(** * Learning Reminder API: review scheduling and completion analytics

    A shallow embedding of [backend/main.py], [backend/analytics.py] and
    [backend/models.py].

    - Python [int] is [Z]; Python [float] is IEEE-754 binary64, computed with
      the Standard Library's [SpecFloat] operations at precision 53 and
      maximal exponent 1024 (round to nearest, ties to even).
    - [datetime] and [timedelta] are microsecond counts with the range
      checks of CPython's [datetime] module.
    - The three tables of [models.py] are finite maps from the primary key to
      the row; a request handler takes the store and returns its response
      together with the store it commits. *)

From Stdlib Require Import ZArith Lia Ascii String Reals Lra.
From Stdlib Require Import Floats.SpecFloat.
From stdpp Require Import gmap strings list.

Local Open Scope Z_scope.

(** ** Exceptions and HTTP outcomes *)

(** The Python exceptions that the modelled code can raise. *)
Inductive exn := ValueError | OverflowError | ZeroDivisionError.

Inductive result (A : Type) :=
  | Ok (a : A)
  | Raise (e : exn).
Arguments Ok {A} a.
Arguments Raise {A} e.

Global Instance result_ret : MRet result := λ A a, Ok a.
Global Instance result_bind : MBind result :=
  λ A B f r, match r with Ok a => f a | Raise e => Raise e end.
Global Instance result_fmap : FMap result :=
  λ A B f r, match r with Ok a => Ok (f a) | Raise e => Raise e end.

(** What FastAPI sends back when a handler raises [HTTPException] or lets an
    exception escape (an escaped exception is a 500 response). *)
Inductive http_error := Http400 | Http404 | Http500.

Inductive response (A : Type) :=
  | Success (a : A)
  | Failure (e : http_error).
Arguments Success {A} a.
Arguments Failure {A} e.

(** ** Python floats *)

Module PyFloat.

Definition prec : Z := 53.
Definition emax : Z := 1024.

Definition fmul : spec_float → spec_float → spec_float := SFmul prec emax.
Definition fadd : spec_float → spec_float → spec_float := SFadd prec emax.
Definition flt : spec_float → spec_float → bool := SFltb.

Definition is_zero (x : spec_float) : bool :=
  match x with S754_zero _ => true | _ => false end.

Definition is_finite (x : spec_float) : bool :=
  match x with S754_zero _ | S754_finite _ _ _ => true | _ => false end.

(** The binary64 nearest to the integer [n] (ties to even); infinite when
    [n] is beyond the largest finite binary64. *)
Definition round_int (n : Z) : spec_float := binary_normalize prec emax n 0 false.

(** [float(n)] for an [int] operand of a mixed operation
    ([PyLong_AsDouble]): "int too large to convert to float". *)
Definition of_int (n : Z) : result spec_float :=
  let f := round_int n in
  if is_finite f then Ok f else Raise OverflowError.

(** The correctly rounded quotient [a / b] of two integers, [0 < b]. It is
    the value of [a / b] on Python ints ([long_true_divide]) and of a
    decimal literal with numerator [a] and a power of ten [b]. *)
Definition round_quot (a b : Z) : spec_float :=
  match a with
  | 0 => S754_zero false
  | _ =>
    let '(q, e, l) := SFdiv_core_binary prec emax (Z.abs a) 0 b 0 in
    binary_round_aux prec emax (a <? 0) q e l
  end.

(** The literals of the source. *)
Definition lit_0_1 : spec_float := Eval vm_compute in round_quot 1 10.
Definition lit_0_8 : spec_float := Eval vm_compute in round_quot 8 10.
Definition lit_1_0 : spec_float := Eval vm_compute in round_int 1.
Definition lit_1_2 : spec_float := Eval vm_compute in round_quot 12 10.

(** [x * n], [n + x] and [n * x] with [n] an [int] and [x] a [float]. *)
Definition mul_float_int (x : spec_float) (n : Z) : result spec_float :=
  y ← of_int n; Ok (fmul x y).
Definition add_int_float (n : Z) (x : spec_float) : result spec_float :=
  y ← of_int n; Ok (fadd y x).
Definition mul_int_float (n : Z) (x : spec_float) : result spec_float :=
  y ← of_int n; Ok (fmul y x).

(** [int(x)], also [PyLong_FromDouble]: truncation toward zero. *)
Definition to_int (x : spec_float) : result Z :=
  match x with
  | S754_zero _ => Ok 0
  | S754_infinity _ => Raise OverflowError
  | S754_nan => Raise ValueError
  | S754_finite s m e => Ok (cond_Zopp s (Z.shiftl (Z.pos m) e))
  end.

(** The fractional part that C's [modf] returns; it is exact. *)
Definition frac (x : spec_float) : spec_float :=
  match x with
  | S754_finite s m e =>
    if 0 <=? e then S754_zero s
    else binary_normalize prec emax (cond_Zopp s (Z.pos m mod 2 ^ (- e))) e s
  | S754_infinity s => S754_zero s
  | _ => x
  end.

End PyFloat.

(** ** Python numbers: [int] or [float] *)

Inductive pynum :=
  | PyInt (n : Z)
  | PyFloat (x : spec_float).

Module PyNum.
Import PyFloat.

(** [x < k] and [x > k] for an [int] literal [k]; a float is compared with
    the integer exactly, and a NaN compares false. *)
Definition float_cmp_int (x : spec_float) (k : Z) : option comparison :=
  match x with
  | S754_nan => None
  | S754_infinity s => Some (if s then Lt else Gt)
  | S754_zero _ => Some (0 ?= k)
  | S754_finite s m e =>
    let v := cond_Zopp s (Z.pos m) in
    Some (if 0 <=? e then (v * 2 ^ e ?= k) else (v ?= k * 2 ^ (- e)))
  end.

Definition lt_int (x : pynum) (k : Z) : bool :=
  match x with
  | PyInt n => n <? k
  | PyFloat f => match float_cmp_int f k with Some Lt => true | _ => false end
  end.

Definition gt_int (x : pynum) (k : Z) : bool :=
  match x with
  | PyInt n => k <? n
  | PyFloat f => match float_cmp_int f k with Some Gt => true | _ => false end
  end.
End PyNum.

(** ** [datetime] and [timedelta] *)

Module PyDatetime.
Import PyFloat.

(** A [timedelta] is its total number of microseconds; the constructor
    checks that the day count has magnitude at most 999999999. *)
Definition timedelta := Z.

Definition US_PER_HOUR : Z := 3600000000.
Definition US_PER_DAY : Z := 86400000000.
Definition MAX_DELTA_DAYS : Z := 999999999.

(** [microseconds_to_delta]: the day count is a floor division. *)
Definition microseconds_to_delta (us : Z) : result timedelta :=
  let days := us / US_PER_DAY in
  if (- MAX_DELTA_DAYS <=? days) && (days <=? MAX_DELTA_DAYS)
  then Ok us else Raise OverflowError.

(** [timedelta(hours=h)] for an [int] [h]. *)
Definition timedelta_hours_int (h : Z) : result timedelta :=
  microseconds_to_delta (h * US_PER_HOUR).

(** The last step of the constructor: the fractional microseconds left
    over, a float of magnitude below one, are rounded to the nearest
    integer, a tie going to the side that makes the total [x] even. *)
Definition round_leftover (x : Z) (leftover : spec_float) : Z :=
  match leftover with
  | S754_finite s m e =>
    let half := 2 ^ (- e - 1) in
    let whole :=
      match Z.pos m ?= half with
      | Lt => 0
      | Gt => 1
      | Eq => if Z.odd x then 1 else 0
      end in
    x + cond_Zopp s whole
  | _ => x
  end.

(** [timedelta(hours=h)] for a [float] [h], as CPython's [accum] computes
    it: the integer part of [h] is scaled exactly, the fractional part is
    scaled in floating point and split again, and what is left is rounded
    by [round_leftover]. *)
Definition hours_to_us (h : spec_float) : result Z :=
  intpart ← to_int h;
  let sum := intpart * US_PER_HOUR in
  let fracpart := frac h in
  if is_zero fracpart then Ok sum
  else
    factor ← of_int US_PER_HOUR;
    let dnum := fmul factor fracpart in
    intpart' ← to_int dnum;
    Ok (round_leftover (sum + intpart') (frac dnum)).

(** The microseconds are then normalised into a [timedelta]. *)
Definition timedelta_hours_float (h : spec_float) : result timedelta :=
  us ← hours_to_us h; microseconds_to_delta us.

(** A [datetime] is the number of microseconds since 0001-01-01T00:00:00
    on its own clock, together with its UTC offset when it is aware. *)
Record datetime := { dt_us : Z; dt_tz : option Z }.

Global Instance datetime_eq_dec : EqDecision datetime.
Proof. solve_decision. Defined.

(** 9999-12-31 is day 3652059 of the proleptic Gregorian calendar. *)
Definition MAX_ORDINAL : Z := 3652059.
Definition MAX_US : Z := MAX_ORDINAL * US_PER_DAY - 1.

Definition datetime_valid (d : datetime) : bool :=
  (0 <=? dt_us d) && (dt_us d <=? MAX_US).

(** [d + td]: "date value out of range" outside the years 1 to 9999. *)
Definition datetime_add (d : datetime) (td : timedelta) : result datetime :=
  let d' := {| dt_us := dt_us d + td; dt_tz := dt_tz d |} in
  if datetime_valid d' then Ok d' else Raise OverflowError.

(** [d + timedelta(hours=h)] for a float [h]. *)
Definition after_hours (d : datetime) (h : spec_float) : result datetime :=
  td ← timedelta_hours_float h; datetime_add d td.

(** [d] shifted by [h] whole hours, without a range check. *)
Definition plus_hours (d : datetime) (h : Z) : datetime :=
  {| dt_us := dt_us d + h * US_PER_HOUR; dt_tz := dt_tz d |}.

(** Earlier and later on one clock. *)
Definition before (d1 d2 : datetime) : Prop := dt_us d1 < dt_us d2.

End PyDatetime.

(** ** The tables of [models.py] *)

Module Models.
Import PyDatetime.

(** A row without its primary key [id]: the key of the table holds it. *)
Record User := {
email : string;
hashed_password : string;
created_at : datetime;
}.

Record LearningItem := {
title : string;
content : string;
learning_date : datetime;
user_id : Z;
}.

Record ReviewSchedule := {
learning_item_id : Z;
review_number : Z;
review_date : datetime;
completed : option datetime;
is_deleted : bool;
}.

Record store := {
users : gmap Z User;
learning_items : gmap Z LearningItem;
review_schedules : gmap Z ReviewSchedule;
}.

End Models.
Import PyDatetime Models.

Definition set_completed (t : datetime) (s : ReviewSchedule) : ReviewSchedule :=
  {| learning_item_id := learning_item_id s; review_number := review_number s;
     review_date := review_date s; completed := Some t;
     is_deleted := is_deleted s |}.

Definition set_is_deleted (b : bool) (s : ReviewSchedule) : ReviewSchedule :=
  {| learning_item_id := learning_item_id s; review_number := review_number s;
     review_date := review_date s; completed := completed s;
     is_deleted := b |}.

Definition with_review_schedules (db : store) (rs : gmap Z ReviewSchedule) : store :=
  {| users := users db; learning_items := learning_items db; review_schedules := rs |}.

(** The key that the store gives to the next inserted row. The engine is
    configured in [database.py], which is not in the sources; keys are
    allocated as SQLite allocates an integer primary key, one more than the
    largest key in use and [1] in an empty table. The proofs use only that
    the key is new. *)
Definition next_id {A} (t : gmap Z A) : Z :=
  1 + map_fold (λ k _ acc, Z.max k acc) 0 t.

(** [db.add] of a new row followed by a flush. *)
Definition add_row {A} (row : A) (t : gmap Z A) : Z * gmap Z A :=
  let k := next_id t in (k, <[k := row]> t).

(** ** [analytics.py] *)

Module Analytics.
Import PyFloat PyNum.

Record analytics := {
  total_items : Z;
  completion_rate : pynum;
}.

(** The rows of [ReviewSchedule] joined with [LearningItem] on the foreign
    key that belong to [user_id] and are not deleted. *)
Definition joined_for_user (db : store) (user_id : Z) (s : ReviewSchedule) : bool :=
  match learning_items db !! learning_item_id s with
  | Some it => bool_decide (it.(Models.user_id) = user_id)
  | None => false
  end.

(** [round(x, 1)]: an [int] is returned as it is; a float is rounded to
    one decimal on its exact value, a tie going to the even digit, and the
    result is the float nearest to that decimal. *)
Definition round_half_even (num den : Z) : Z :=
  let q := num / den in
  let r := num mod den in
  match 2 * r ?= den with
  | Lt => q
  | Gt => q + 1
  | Eq => if Z.even q then q else q + 1
  end.

(** The float nearest to the one-decimal rounding of [x]. *)
Definition round1_nearest (x : spec_float) : spec_float :=
  match x with
  | S754_finite s m e =>
    let k :=
      if 0 <=? e then 10 * Z.pos m * 2 ^ e
      else round_half_even (10 * Z.pos m) (2 ^ (- e)) in
    match round_quot (cond_Zopp s k) 10 with
    | S754_zero _ => S754_zero s
    | y => y
    end
  | _ => x
  end.

(** "rounded value too large to represent" when a finite [x] rounds to an
    infinity. *)
Definition round1_float (x : spec_float) : result spec_float :=
  let y := round1_nearest x in
  if is_finite x && negb (is_finite y) then Raise OverflowError else Ok y.

Definition round1 (x : pynum) : result pynum :=
  match x with
  | PyInt n => Ok (PyInt n)
  | PyFloat f => PyFloat <$> round1_float f
  end.

(** [completed_schedules / all_schedules * 100], or the integer [0] when
    there is no schedule. *)
Definition percentage (completed_schedules all_schedules : Z) : pynum :=
  if 0 <? all_schedules
  then PyFloat (fmul (round_quot completed_schedules all_schedules) (round_int 100))
  else PyInt 0.

(** The rate of [completed_schedules] out of [all_schedules] rounded to one
    decimal: the integer [0] when there is no schedule. *)
Definition rounded_percentage (completed_schedules all_schedules : Z) : pynum :=
  if all_schedules =? 0 then PyInt 0
  else PyFloat (round1_nearest
                  (fmul (round_quot completed_schedules all_schedules) (round_int 100))).

(** The schedules of the user that are not deleted. *)
Definition user_schedules (db : store) (user_id : Z) : gmap Z ReviewSchedule :=
  filter (λ kv, joined_for_user db user_id kv.2 = true ∧ is_deleted kv.2 = false)
         (review_schedules db).

Definition analyze_learning_pattern (db : store) (user_id : Z) : result analytics :=
  let total_items :=
    Z.of_nat (size (filter (λ kv, kv.2.(Models.user_id) = user_id) (learning_items db))) in
  let all_schedules :=
    Z.of_nat (size (filter (λ kv, joined_for_user db user_id kv.2 = true
                                  ∧ is_deleted kv.2 = false)
                           (review_schedules db))) in
  let completed_schedules :=
    Z.of_nat (size (filter (λ kv, joined_for_user db user_id kv.2 = true
                                  ∧ completed kv.2 ≠ None
                                  ∧ is_deleted kv.2 = false)
                           (review_schedules db))) in
  let completion_rate := percentage completed_schedules all_schedules in
  rate ← round1 completion_rate;
  Ok {| total_items := total_items; completion_rate := rate |}.

(** The integer that [int(interval * adjustment)] denotes when the product
    is finite. *)
Definition truncated_product (adjustment : spec_float) (interval : Z) : Z :=
  match fmul (round_int interval) adjustment with
  | S754_finite s m e => cond_Zopp s (Z.shiftl (Z.pos m) e)
  | _ => 0
  end.

Definition optimize_review_intervals (completion_rate : pynum) (base_intervals : list Z)
    : result (list Z) :=
  let adjustment :=
    if lt_int completion_rate 50 then lit_0_8
    else if gt_int completion_rate 80 then lit_1_2
    else lit_1_0 in
  mapM (λ interval, p ← mul_int_float interval adjustment; to_int p) base_intervals.

End Analytics.

(** ** A fragment of the ISO 8601 grammar

    The handlers take the grammar of [datetime.fromisoformat] as a
    parameter. [IsoFormat.parse] reads its basic forms [YYYY-MM-DD] and
    [YYYY-MM-DDTHH:MM:SS], with the calendar arithmetic of the [datetime]
    module; the handlers are run with it on concrete requests. *)

Module IsoFormat.

Definition digit (c : ascii) : option Z :=
  let n := Z.of_N (N_of_ascii c) in
  if (48 <=? n) && (n <=? 57) then Some (n - 48) else None.

Fixpoint number (acc : Z) (cs : list ascii) : option Z :=
  match cs with
  | [] => Some acc
  | c :: cs => d ← digit c; number (10 * acc + d) cs
  end.

Definition is_leap (y : Z) : bool :=
  (y mod 4 =? 0) && (negb (y mod 100 =? 0) || (y mod 400 =? 0)).

Definition days_before_year (year : Z) : Z :=
  let y := year - 1 in y * 365 + y / 4 - y / 100 + y / 400.

Definition days_in_month (y m : Z) : Z :=
  if m =? 2 then (if is_leap y then 29 else 28)
  else if (m =? 4) || (m =? 6) || (m =? 9) || (m =? 11) then 30 else 31.

Definition days_before_month (y m : Z) : Z :=
  foldr Z.add 0 (days_in_month y <$> seqZ 1 (m - 1)).

(** The ordinal of a date, 0001-01-01 being day 1. *)
Definition ymd2ord (y m d : Z) : Z :=
  days_before_year y + days_before_month y m + d.

Definition make (y m d hh mm ss : Z) : option datetime :=
  if (1 <=? y) && (y <=? 9999) && (1 <=? m) && (m <=? 12)
     && (1 <=? d) && (d <=? days_in_month y m)
     && (hh <=? 23) && (mm <=? 59) && (ss <=? 59)
  then Some {| dt_us := (((ymd2ord y m d - 1) * 24 + hh) * 60 + mm) * 60000000
                         + ss * 1000000;
               dt_tz := None |}
  else None.

Definition parse (s : string) : option datetime :=
  match String.list_ascii_of_string s with
  | [y1; y2; y3; y4; "-"; m1; m2; "-"; d1; d2]%char =>
    y ← number 0 [y1; y2; y3; y4];
    m ← number 0 [m1; m2];
    d ← number 0 [d1; d2];
    make y m d 0 0 0
  | [y1; y2; y3; y4; "-"; m1; m2; "-"; d1; d2; "T";
     h1; h2; ":"; n1; n2; ":"; s1; s2]%char =>
    y ← number 0 [y1; y2; y3; y4];
    m ← number 0 [m1; m2];
    d ← number 0 [d1; d2];
    hh ← number 0 [h1; h2];
    mm ← number 0 [n1; n2];
    ss ← number 0 [s1; s2];
    make y m d hh mm ss
  | _ => None
  end.

End IsoFormat.

(** ** [main.py] *)

Module Main.
Import PyFloat PyNum Analytics.

(** The request bodies. *)
Module LearningItemCreate.
Record t := {
  title : string;
  content : string;
  learning_date : string;
  user_id : Z;
}.
End LearningItemCreate.

Module UserCreate.
Record t := { email : string; password : string }.
End UserCreate.

(** An entry of the ["review_schedule"] list of [calculate_reviews]; the
    response shows [review_date] in ISO format. *)
Module Preview.
Record t := {
  review_number : Z;
  review_date : datetime;
  interval_hours : spec_float;
  completed : bool;
  is_deleted : bool;
}.
End Preview.

Definition BASE_INTERVALS : list Z := [1; 24; 72; 168; 336; 720].

(** [except ValueError] answers 400; in [create_learning_item] the clause
    [except Exception] answers 500, and an exception that escapes a
    handler is a 500 response as well. *)
Definition respond {A} (r : result A) : response A :=
  match r with
  | Ok a => Success a
  | Raise ValueError => Failure Http400
  | Raise _ => Failure Http500
  end.

Section Handlers.

(** The grammar of [datetime.fromisoformat]: the date and time that a
    string denotes, when it denotes one. *)
Variable iso_parse : string → option datetime.

(** The password hash of [passlib]. *)
Variable pwd_hash : string → string.

(** [datetime.fromisoformat] raises [ValueError] on a string outside the
    grammar and on a date outside the years 1 to 9999. *)
Definition fromisoformat (s : string) : result datetime :=
  match iso_parse s with
  | Some d => if datetime_valid d then Ok d else Raise ValueError
  | None => Raise ValueError
  end.

(** [interval * (1 + 0.1 * repetition_number)] *)
Definition adjusted_interval (repetition_number interval : Z) : result spec_float :=
  t ← mul_float_int lit_0_1 repetition_number;
  u ← add_int_float 1 t;
  mul_int_float interval u.

(** The value of [interval * (1 + 0.1 * repetition_number)] in binary64. *)
Definition scaled_interval (repetition_number interval : Z) : spec_float :=
  fmul (round_int interval) (fadd (round_int 1) (fmul lit_0_1 (round_int repetition_number))).

(** The entry of index [i] of the response. *)
Definition preview (i : nat) (interval : spec_float) (review_date : datetime) : Preview.t :=
  {| Preview.review_number := Z.of_nat i + 1;
     Preview.review_date := review_date;
     Preview.interval_hours := interval;
     Preview.completed := false;
     Preview.is_deleted := false |}.

Definition calculate_reviews (learning_date : string) (repetition_number : Z)
    : response (list Preview.t) :=
  respond (
    date ← fromisoformat learning_date;
    let base_intervals := [1; 24; 72; 168; 336; 720] in
    adjusted_intervals ← mapM (adjusted_interval repetition_number) base_intervals;
    review_dates ←
      mapM (λ interval, td ← timedelta_hours_float interval; datetime_add date td)
           adjusted_intervals;
    Ok (imap (λ i '(review_date, interval), preview i interval review_date)
             (zip review_dates adjusted_intervals))).

(** The summary that [create_learning_item] returns. *)
Record item_summary := {
  item_id : Z;
  item_title : string;
  item_learning_date : datetime;
}.

(** The schedules are added in order and get consecutive keys at the
    commit. *)
Definition add_schedules (item_id : Z) (learning_date : datetime)
    (review_dates : list datetime) (t : gmap Z ReviewSchedule) : gmap Z ReviewSchedule :=
  foldl (λ t '(i, review_date),
         (add_row {| learning_item_id := item_id;
                     review_number := i;
                     review_date := review_date;
                     completed := None;
                     is_deleted := false |} t).2)
        t (imap (λ i review_date, (Z.of_nat i + 1, review_date)) review_dates).

(** The statements of the [try] block before the first [db.add]: they parse
    the date and read the database, and write nothing. *)
Definition create_learning_item_reads (item : LearningItemCreate.t) (db : store)
    : result (datetime * list Z) :=
  learning_date ← fromisoformat (LearningItemCreate.learning_date item);
  analytics ← analyze_learning_pattern db (LearningItemCreate.user_id item);
  intervals ← optimize_review_intervals (completion_rate analytics) BASE_INTERVALS;
  Ok (learning_date, intervals).

(** The statements from [db.add(db_item)] to [db.commit()]: the summary and
    the committed store. *)
Definition create_learning_item_writes (item : LearningItemCreate.t) (db : store)
    (learning_date : datetime) (intervals : list Z) : result (item_summary * store) :=
  let '(id, items) :=
    add_row {| title := LearningItemCreate.title item;
               content := LearningItemCreate.content item;
               learning_date := learning_date;
               user_id := LearningItemCreate.user_id item |}
            (learning_items db) in
  review_dates ←
    mapM (λ interval, td ← timedelta_hours_int interval; datetime_add learning_date td)
         intervals;
  Ok ({| item_id := id;
         item_title := LearningItemCreate.title item;
         item_learning_date := learning_date |},
      {| users := users db;
         learning_items := items;
         review_schedules :=
           add_schedules id learning_date review_dates (review_schedules db) |}).

(** Modelled from the spec: the session that [get_db] of [database.py]
    hands to a handler is not in the sources. By the spec a failure
    leaves nothing behind ("transaction rolled back", "either fully
    succeeds or fully fails"): what was added and flushed before the
    exception is discarded with the session, and the store is the one
    the request found. *)
Definition rollback (db : store) : store := db.

(** An exception before the first [db.add] finds the session without a
    pending write; one after it leaves the flushed item to [rollback]. *)
Definition create_learning_item (item : LearningItemCreate.t) (db : store)
    : response item_summary * store :=
  match create_learning_item_reads item db with
  | Raise e => (respond (Raise e), db)
  | Ok (learning_date, intervals) =>
    match create_learning_item_writes item db learning_date intervals with
    | Ok (summary, db') => (Success summary, db')
    | Raise e => (respond (Raise e), rollback db)
    end
  end.

(** [get_learning_items]: the rows of the user, one per [id]. *)
Definition get_learning_items (user_id : Z) (db : store) : list (Z * LearningItem) :=
  map_to_list (filter (λ kv, kv.2.(Models.user_id) = user_id) (learning_items db)).

(** The filter on the primary key followed by [first()]. *)
Definition first_schedule (schedule_id : Z) (db : store) : option ReviewSchedule :=
  review_schedules db !! schedule_id.

(** [complete_review] at the time [now] that [datetime.utcnow()] gives;
    the response carries [completed_at]. *)
Definition complete_review (now : datetime) (schedule_id : Z) (db : store)
    : response datetime * store :=
  match first_schedule schedule_id db with
  | None => (Failure Http404, db)
  | Some schedule =>
    (Success now,
     with_review_schedules db
       (<[schedule_id := set_completed now schedule]> (review_schedules db)))
  end.

(** [delete_review]; the response carries [is_deleted]. *)
Definition delete_review (schedule_id : Z) (db : store) : response bool * store :=
  match first_schedule schedule_id db with
  | None => (Failure Http404, db)
  | Some schedule =>
    (Success true,
     with_review_schedules db
       (<[schedule_id := set_is_deleted true schedule]> (review_schedules db)))
  end.

(** [get_review_schedules]: the schedules of the item that are not
    deleted, each with its [id]. *)
Definition get_review_schedules (learning_item_id : Z) (db : store)
    : list (Z * ReviewSchedule) :=
  map_to_list
    (filter (λ kv, kv.2.(Models.learning_item_id) = learning_item_id
                   ∧ is_deleted kv.2 = false)
            (review_schedules db)).

Definition get_analytics (user_id : Z) (db : store) : response analytics :=
  respond (analyze_learning_pattern db user_id).

(** The row of the first user with the given address, if any. *)
Definition first_user_by_email (e : string) (db : store) : option Z :=
  fst <$> head (map_to_list (filter (λ kv, email kv.2 = e) (users db))).

Definition create_user_with (now : datetime) (e p : string) (db : store)
    : response Z * store :=
  match first_user_by_email e db with
  | Some id => (Success id, db)
  | None =>
    let '(id, us) :=
      add_row {| email := e; hashed_password := pwd_hash p; created_at := now |}
              (users db) in
    (Success id,
     {| users := us; learning_items := learning_items db;
        review_schedules := review_schedules db |})
  end.

Definition create_user (now : datetime) (user : UserCreate.t) (db : store)
    : response Z * store :=
  create_user_with now (UserCreate.email user) (UserCreate.password user) db.

Definition create_test_user (now : datetime) (db : store) : response Z * store :=
  create_user_with now "test@example.com" "testpassword" db.

(** [delete_learning_item]: the bulk delete of the schedules of the item,
    then the delete of the item. *)
Definition delete_learning_item (item_id : Z) (db : store) : response unit * store :=
  match learning_items db !! item_id with
  | None => (Failure Http404, db)
  | Some item =>
    (Success (),
     {| users := users db;
        learning_items := delete item_id (learning_items db);
        review_schedules :=
          filter (λ kv, kv.2.(Models.learning_item_id) ≠ item_id)
                 (review_schedules db) |})
  end.

(** *** The service as a transition system *)

Inductive request :=
  | CalculateReviews (learning_date : string) (repetition_number : Z)
  | CreateLearningItem (item : LearningItemCreate.t)
  | GetLearningItems (user_id : Z)
  | CompleteReview (schedule_id : Z)
  | DeleteReview (schedule_id : Z)
  | GetReviewSchedules (learning_item_id : Z)
  | GetAnalytics (user_id : Z)
  | CreateUser (user : UserCreate.t)
  | CreateTestUser
  | Root
  | DeleteLearningItem (item_id : Z).

Definition status {A} (r : response A) : option http_error :=
  match r with Success _ => None | Failure e => Some e end.

(** One request served at time [now]: the error of the response, if it
    is one, and the store afterwards. *)
Definition serve (now : datetime) (req : request) (db : store)
    : option http_error * store :=
  match req with
  | CalculateReviews d n => (status (calculate_reviews d n), db)
  | CreateLearningItem item =>
    let '(r, db') := create_learning_item item db in (status r, db')
  | GetLearningItems _ => (None, db)
  | CompleteReview id =>
    let '(r, db') := complete_review now id db in (status r, db')
  | DeleteReview id =>
    let '(r, db') := delete_review id db in (status r, db')
  | GetReviewSchedules _ => (None, db)
  | GetAnalytics u => (status (get_analytics u db), db)
  | CreateUser user =>
    let '(r, db') := create_user now user db in (status r, db')
  | CreateTestUser =>
    let '(r, db') := create_test_user now db in (status r, db')
  | Root => (None, db)
  | DeleteLearningItem id =>
    let '(r, db') := delete_learning_item id db in (status r, db')
  end.

End Handlers.
End Main.

(** ** Sample requests and stores *)

Module Sample.
Import Main.

(** The instant that a string of the fragment denotes. *)
Definition at_iso (s : string) : datetime :=
default {| dt_us := 0; dt_tz := None |} (IsoFormat.parse s).

Definition hash (p : string) : string := String.append "$2b$" p.

Definition monday : datetime := at_iso "2024-01-01T09:00:00".
Definition tuesday : datetime := at_iso "2024-01-02T18:30:00".
Definition friday : datetime := at_iso "2024-01-05T08:15:00".

Definition schedule (item n : Z) (date : datetime) (done : option datetime)
  (deleted : bool) : ReviewSchedule :=
{| learning_item_id := item; review_number := n; review_date := date;
   completed := done; is_deleted := deleted |}.

(** One user with two learning items; the first item has a completed
    schedule, a cancelled one and an open one. *)
Definition db : store :=
{| users :=
     {[ 1 := {| email := "a@example.com"; hashed_password := hash "pw";
                created_at := monday |} ]};
   learning_items :=
     {[ 1 := {| title := "kanji"; content := "week 1";
                learning_date := monday; user_id := 1 |};
        2 := {| title := "grammar"; content := "particles";
                learning_date := tuesday; user_id := 1 |} ]};
   review_schedules :=
     {[ 1 := schedule 1 1 (plus_hours monday 1) (Some tuesday) false;
        2 := schedule 1 2 (plus_hours monday 24) None true;
        3 := schedule 1 3 (plus_hours monday 72) None false;
        4 := schedule 2 1 (plus_hours tuesday 1) None false ]} |}.

Definition new_item (date : string) : LearningItemCreate.t :=
{| LearningItemCreate.title := "vocabulary";
   LearningItemCreate.content := "unit 3";
   LearningItemCreate.learning_date := date;
   LearningItemCreate.user_id := 1 |}.

End Sample.

(** ** The real numbers that floats denote

    The notions in which the rounding of binary64 is specified: the value
    of a float, what a shift record stands for, and the exponent and the
    result of a rounding. *)

Module Value.
Import PyFloat.
Local Open Scope R_scope.

(** The powers of two and the real number that a mantissa and an exponent
    denote. *)
Definition bpow (e : Z) : R := powerRZ 2 e.
Definition F2R (m e : Z) : R := IZR m * bpow e.

(** The real value of a finite float; [0] for the others. *)
Definition value (x : spec_float) : R :=
  match x with
  | S754_finite s m e => F2R (cond_Zopp s (Z.pos m)) e
  | _ => 0
  end.

(** A shift record [(m, r, s)] stands for a real number in [m, m + 1): the
    round bit [r] and the sticky bit [s] say where it lies in the interval. *)
Definition represents (x : R) (mrs : shr_record) : Prop :=
  let m := IZR (shr_m mrs) in
  match shr_r mrs, shr_s mrs with
  | false, false => x = m
  | false, true => m < x < m + / 2
  | true, false => x = m + / 2
  | true, true => m + / 2 < x < m + 1
  end.

(** [r] is the float that rounding the nonnegative real [V] at exponent [e]
    gives under the sign [s]: the multiple [m * 2^e] nearest to [V], or the
    infinity when that multiple is beyond the largest float. *)
Definition rounds_to (s : bool) (V : R) (e : Z) (r : spec_float) : Prop :=
  ∃ m : Z,
    (0 <= m)%Z
    ∧ Rabs (F2R m e - V) <= bpow e / 2
    ∧ (∀ j, V <= F2R j e → (m <= j)%Z)
    ∧ (∀ j, F2R j e <= V → (j <= m)%Z)
    ∧ ((m = 0%Z ∧ r = S754_zero s)
       ∨ (∃ p e', r = S754_finite s p e' ∧ F2R (Z.pos p) e' = F2R m e
                  ∧ (e' <= emax - prec)%Z)
       ∨ (r = S754_infinity s ∧ bpow (emax - prec + 1) <= F2R m e)).

(** The exponent at which a mantissa [mx] with exponent [ex] is rounded. *)
Definition e_round (mx ex : Z) : Z := Z.max ex (fexp prec emax (Zdigits2 mx + ex)).

(** Rounding an exact value [V = m * 2^e]. *)
Definition exact_round (s : bool) (m e : Z) : spec_float :=
  binary_round_aux prec emax s m e loc_Exact.

(** A float of sign [+], finite or not. *)
Definition positive_class (x : spec_float) : Prop :=
  x = S754_zero false ∨ (∃ p e, x = S754_finite false p e) ∨ x = S754_infinity false.

End Value.

(** ** Integrity of the store

    The constraints that [models.py] declares on the tables. *)

(** [unique=True] on [User.email]: an address belongs to at most one user. *)
Definition emails_unique (db : store) : Prop :=
  ∀ i j u v, users db !! i = Some u → users db !! j = Some v →
             email u = email v → i = j.

(** The foreign key of [ReviewSchedule.learning_item_id]: the parent of a
    stored schedule is a stored learning item. *)
Definition parents_stored (db : store) : Prop :=
  ∀ k s, review_schedules db !! k = Some s →
         is_Some (learning_items db !! learning_item_id s).

(** The row that [create_learning_item] adds for the review [n] of an item. *)
Definition new_schedule (item_id n : Z) (date : datetime) : ReviewSchedule :=
  {| learning_item_id := item_id; review_number := n; review_date := date;
     completed := None; is_deleted := false |}.

(** ** The optimized base table *)

(** The table that the optimizer makes of [BASE_INTERVALS]. *)
Definition optimized_base (r : pynum) : list Z :=
  if PyNum.lt_int r 50 then [0; 19; 57; 134; 268; 576]
  else if PyNum.gt_int r 80 then [1; 28; 86; 201; 403; 864]
  else [1; 24; 72; 168; 336; 720].

(** The longest interval of the optimized table. *)
Definition last_interval (r : pynum) : Z :=
  if PyNum.lt_int r 50 then 576 else if PyNum.gt_int r 80 then 864 else 720.

(** ** The counts of [analyze_learning_pattern]

    The three queries of [analyze_learning_pattern], by the names of its
    local variables. *)

Definition total_items_of (db : store) (user_id : Z) : Z :=
  Z.of_nat (size (filter (λ kv, kv.2.(Models.user_id) = user_id) (learning_items db))).

Definition all_schedules_of (db : store) (user_id : Z) : Z :=
  Z.of_nat (size (Analytics.user_schedules db user_id)).

Definition completed_schedules_of (db : store) (user_id : Z) : Z :=
  Z.of_nat (size (filter (λ kv, completed kv.2 ≠ None)
                         (Analytics.user_schedules db user_id))).

(** The schedule is one that the queries of [analyze_learning_pattern]
    count for the user: its parent item is the user's and it is not
    deleted. *)
Definition counted_for (db : store) (u : Z) (s : ReviewSchedule) : bool :=
  Analytics.joined_for_user db u s && negb (is_deleted s).

(** ** Floats in a range *)

(** A float that is zero or positive and at most [N]. *)
Definition within (N : Z) (x : spec_float) : Prop :=
  x = S754_zero false ∨ ∃ p e, x = S754_finite false p e ∧ (Value.F2R (Z.pos p) e <= IZR N)%R.

(** * Properties *)

Import Main.

Lemma bind_Ok {A B} (a : A) (f : A → result B) : (Ok a ≫= f) = f a.
Proof. done. Qed.

(** ** Tables *)

Section NextId.
Context {A : Type}.
Implicit Types t : gmap Z A.

Lemma next_id_above t k : is_Some (t !! k) → k < next_id t.
Proof.
  unfold next_id.
  induction t as [|i x t Hi Hfirst IH] using map_first_key_ind.
  - rewrite lookup_empty. by intros [? ?].
  - rewrite map_fold_insert_first_key by done.
    rewrite lookup_insert. case_decide as Hk.
    + intros _. subst. lia.
    + intros Hs. specialize (IH Hs). lia.
Qed.

Lemma next_id_fresh t : t !! next_id t = None.
Proof.
  destruct (t !! next_id t) eqn:E; [|done].
  assert (next_id t < next_id t) by (apply next_id_above; eauto). lia.
Qed.

Lemma add_row_lookup_old (row : A) t k :
  is_Some (t !! k) → (add_row row t).2 !! k = t !! k.
Proof.
  intros Hk. unfold add_row. simpl. apply lookup_insert_ne.
  intros Heq. rewrite <- Heq, next_id_fresh in Hk. by destruct Hk.
Qed.


End NextId.

(** ** Rounding in binary64 *)

Section Bpow.
Import PyFloat Value.
Local Open Scope R_scope.

Lemma Rabs_bound x b : Rabs x <= b → - b <= x <= b.
Proof. unfold Rabs. destruct (Rcase_abs x); lra. Qed.

Lemma bpow_gt_0 e : 0 < bpow e.
Proof. apply powerRZ_lt. lra. Qed.

Lemma bpow_add a b : bpow (a + b) = bpow a * bpow b.
Proof. apply powerRZ_add. lra. Qed.

Lemma bpow_0 : bpow 0 = 1.
Proof. reflexivity. Qed.

Lemma bpow_1 : bpow 1 = 2.
Proof. apply (powerRZ_1 2). Qed.

Lemma bpow_opp a : bpow (- a) = / bpow a.
Proof. apply powerRZ_neg'. Qed.

Lemma bpow_sub a b : bpow (a - b) = bpow a / bpow b.
Proof. unfold Z.sub. rewrite bpow_add, bpow_opp. reflexivity. Qed.

Lemma bpow_IZR n : (0 <= n)%Z → bpow n = IZR (2 ^ n).
Proof.
  intros Hn. unfold bpow. rewrite <- (Z2Nat.id n Hn) at 1.
  rewrite <- pow_powerRZ, pow_IZR, Z2Nat.id by lia. reflexivity.
Qed.

Lemma bpow_le a b : (a <= b)%Z → bpow a <= bpow b.
Proof.
  intros H. replace b with (a + (b - a))%Z by lia.
  rewrite bpow_add, (bpow_IZR (b - a)) by lia.
  assert (1 <= IZR (2 ^ (b - a))).
  { apply IZR_le. assert (0 < 2 ^ (b - a))%Z by (apply Z.pow_pos_nonneg; lia). lia. }
  pose proof (bpow_gt_0 a). nra.
Qed.

Lemma bpow_lt a b : (a < b)%Z → bpow a < bpow b.
Proof.
  intros H. replace b with (a + (b - a))%Z by lia.
  rewrite bpow_add, (bpow_IZR (b - a)) by lia.
  assert (2 <= IZR (2 ^ (b - a))).
  { apply IZR_le. replace (b - a)%Z with (Z.succ (b - a - 1)) by lia.
    rewrite Z.pow_succ_r by lia.
    assert (0 < 2 ^ (b - a - 1))%Z by (apply Z.pow_pos_nonneg; lia). lia. }
  pose proof (bpow_gt_0 a). nra.
Qed.

Lemma bpow_le_inv a b : bpow a <= bpow b → (a <= b)%Z.
Proof.
  intros H. destruct (Z_le_gt_dec a b) as [|Hgt]; [done|].
  assert (bpow b < bpow a) by (apply bpow_lt; lia). lra.
Qed.

Lemma bpow_lt_inv a b : bpow a < bpow b → (a < b)%Z.
Proof.
  intros H. destruct (Z_lt_ge_dec a b) as [|Hge]; [done|].
  assert (bpow b <= bpow a) by (apply bpow_le; lia). lra.
Qed.

Lemma F2R_shift m e k : (0 <= k)%Z → F2R (m * 2 ^ k) (e - k) = F2R m e.
Proof.
  intros Hk. unfold F2R. rewrite mult_IZR, <- bpow_IZR by done.
  rewrite Rmult_assoc, <- bpow_add. f_equal. f_equal. lia.
Qed.

End Bpow.

Section Shift.
Import PyFloat Value.
Local Open Scope R_scope.

Lemma iter_pos_iter {A} (f : A → A) p x : SpecFloat.iter_pos f p x = Pos.iter f x p.
Proof.
  revert x. induction p as [p IH|p IH|]; intros x; simpl; [| |done].
  - rewrite !IH, !Pos.iter_swap. reflexivity.
  - rewrite !IH. reflexivity.
Qed.

Lemma shr_1_spec x mrs :
  (0 <= shr_m mrs)%Z → represents x mrs →
  represents (x / 2) (shr_1 mrs) ∧ shr_m (shr_1 mrs) = (shr_m mrs / 2)%Z.
Proof.
  destruct mrs as [m r s]. unfold represents. simpl. intros Hm Hx.
  destruct m as [|p|p]; [| |lia].
  - split; [|done]. destruct r, s; simpl in *; lra.
  - destruct p as [q|q|].
    + assert (IZR (Z.pos q~1) = 2 * IZR (Z.pos q) + 1) as R1
        by (rewrite Pos2Z.inj_xI, plus_IZR, mult_IZR; reflexivity).
      split; [|simpl; apply (Z.div_unique _ _ _ 1); lia].
      rewrite R1 in Hx. destruct r, s; simpl in *; lra.
    + assert (IZR (Z.pos q~0) = 2 * IZR (Z.pos q)) as R0
        by (rewrite Pos2Z.inj_xO, mult_IZR; reflexivity).
      split; [|simpl; apply (Z.div_unique _ _ _ 0); lia].
      rewrite R0 in Hx. destruct r, s; simpl in *; lra.
    + split; [|done]. destruct r, s; simpl in *; lra.
Qed.

Lemma shr_iter_spec x mrs n :
  (0 <= shr_m mrs)%Z → represents x mrs →
  represents (x * bpow (- Z.pos n)) (Pos.iter shr_1 mrs n)
  ∧ shr_m (Pos.iter shr_1 mrs n) = (shr_m mrs / 2 ^ Z.pos n)%Z.
Proof.
  intros Hm Hx. induction n as [|n [IH1 IH2]] using Pos.peano_ind.
  - simpl Pos.iter. destruct (shr_1_spec x mrs Hm Hx) as [H1 H2].
    split; [|exact H2]. replace (x * bpow (- Z.pos 1)) with (x / 2); [exact H1|].
    rewrite bpow_opp, bpow_1. reflexivity.
  - rewrite Pos.iter_succ.
    assert (0 <= shr_m (Pos.iter shr_1 mrs n))%Z as Hn.
    { rewrite IH2. apply Z.div_pos; [done|]. apply Z.pow_pos_nonneg; lia. }
    destruct (shr_1_spec _ _ Hn IH1) as [H1 H2]. split.
    + replace (x * bpow (- Z.pos (Pos.succ n))) with (x * bpow (- Z.pos n) / 2);
        [exact H1|].
      rewrite Pos2Z.inj_succ. replace (- Z.succ (Z.pos n))%Z with (- Z.pos n + - 1)%Z by lia.
      rewrite bpow_add. change (bpow (-1)) with (bpow (- (1))).
      rewrite (bpow_opp 1), bpow_1. field.
    + rewrite H2, IH2, Pos2Z.inj_succ, Z.pow_succ_r by lia.
      rewrite Z.div_div by (try apply Z.pow_pos_nonneg; lia).
      f_equal. lia.
Qed.

Lemma shr_spec x mrs e n :
  (0 <= shr_m mrs)%Z → represents x mrs →
  (shr mrs e n).2 = (e + Z.max n 0)%Z
  ∧ represents (x * bpow (- Z.max n 0)) (shr mrs e n).1
  ∧ shr_m (shr mrs e n).1 = (shr_m mrs / 2 ^ Z.max n 0)%Z.
Proof.
  intros Hm Hx. destruct n as [|n|n]; simpl.
  - rewrite Z.add_0_r, Rmult_1_r, Z.div_1_r. done.
  - rewrite iter_pos_iter. destruct (shr_iter_spec x mrs n Hm Hx) as [H1 H2].
    done.
  - rewrite Z.add_0_r, Rmult_1_r, Z.div_1_r. done.
Qed.

Lemma round_nearest_even_spec x mrs :
  (0 <= shr_m mrs)%Z → represents x mrs →
  (shr_m mrs <= round_nearest_even (shr_m mrs) (loc_of_shr_record mrs) <= shr_m mrs + 1)%Z
  ∧ Rabs (IZR (round_nearest_even (shr_m mrs) (loc_of_shr_record mrs)) - x) <= / 2
  ∧ (∀ j, x <= IZR j → (round_nearest_even (shr_m mrs) (loc_of_shr_record mrs) <= j)%Z)
  ∧ (∀ j, IZR j <= x → (j <= round_nearest_even (shr_m mrs) (loc_of_shr_record mrs))%Z).
Proof.
  destruct mrs as [m r s]. unfold represents. simpl. intros Hm Hx.
  assert (IZR (m + 1) = IZR m + 1) as Hs by apply plus_IZR.
  destruct r, s; simpl; try destruct (Z.even m); rewrite ?Hs;
    (split; [lia|]); (split; [apply Rabs_le; lra|]);
    (split; intros j Hj;
     first [ apply le_IZR; rewrite ?plus_IZR; lra
           | (cut (m < j)%Z; [lia|]); apply lt_IZR; lra
           | (cut (j < m + 1)%Z; [lia|]); apply lt_IZR; rewrite plus_IZR; lra ]).
Qed.

End Shift.

Section Digits.
Import PyFloat.
Local Open Scope Z_scope.

Lemma digits2_size p : digits2_pos p = Pos.size p.
Proof. induction p as [p IH|p IH|]; simpl; by rewrite ?IH. Qed.

Lemma Zdigits2_nonneg m : 0 <= Zdigits2 m.
Proof. destruct m; simpl; lia. Qed.

Lemma Zdigits2_bounds m : 0 < m → 2 ^ (Zdigits2 m - 1) <= m < 2 ^ Zdigits2 m.
Proof.
  destruct m as [|p|p]; try lia. intros _.
  change (Zdigits2 (Z.pos p)) with (Z.pos (digits2_pos p)). rewrite digits2_size.
  pose proof (Pos.size_gt p) as Hgt. pose proof (Pos.size_le p) as Hle.
  apply Pos2Z.pos_lt_pos in Hgt. apply Pos2Z.pos_le_pos in Hle.
  rewrite Pos2Z.inj_pow in Hgt, Hle.
  split; [|exact Hgt].
  replace (Z.pos (Pos.size p)) with (Z.succ (Z.pos (Pos.size p) - 1)) in Hle by lia.
  rewrite Z.pow_succ_r in Hle by lia. lia.
Qed.

Lemma Zdigits2_le m k : 0 <= m → 0 <= k → m < 2 ^ k → Zdigits2 m <= k.
Proof.
  intros Hm Hk Hlt. destruct (Z.eq_dec m 0) as [->|Hne]; [done|].
  destruct (Zdigits2_bounds m) as [H1 _]; [lia|].
  destruct (Z_le_gt_dec (Zdigits2 m) k) as [|Hgt]; [done|].
  assert (2 ^ k <= 2 ^ (Zdigits2 m - 1)) by (apply Z.pow_le_mono_r; lia). lia.
Qed.

Lemma Zdigits2_gt m k : 0 <= k → 2 ^ k <= m → k < Zdigits2 m.
Proof.
  intros Hk Hle.
  assert (0 < m) as Hm by (pose proof (Z.pow_pos_nonneg 2 k); lia).
  destruct (Zdigits2_bounds m Hm) as [_ H2].
  destruct (Z_lt_ge_dec k (Zdigits2 m)) as [|Hge]; [done|].
  assert (2 ^ Zdigits2 m <= 2 ^ k) by (apply Z.pow_le_mono_r; lia). lia.
Qed.

Lemma Zdigits2_div m n :
  0 <= m → 0 <= n → Zdigits2 (m / 2 ^ n) <= Z.max (Zdigits2 m - n) 0.
Proof.
  intros Hm Hn.
  assert (0 < 2 ^ n) as Hp by (apply Z.pow_pos_nonneg; lia).
  assert (0 <= m / 2 ^ n) as Hq by (apply Z.div_pos; lia).
  apply Zdigits2_le; [done|lia|].
  destruct (Z.eq_dec m 0) as [->|Hne].
  { rewrite Z.div_0_l by lia. apply Z.pow_pos_nonneg; lia. }
  destruct (Zdigits2_bounds m) as [_ H2]; [lia|].
  destruct (Z_le_gt_dec n (Zdigits2 m)) as [Hle|Hgt].
  - rewrite Z.max_l by lia. apply Z.div_lt_upper_bound; [done|].
    rewrite <- Z.pow_add_r by lia. replace (n + (Zdigits2 m - n)) with (Zdigits2 m) by lia.
    done.
  - rewrite Z.max_r by lia. rewrite Z.div_small; [lia|]. split; [done|].
    assert (2 ^ Zdigits2 m <= 2 ^ n) by (apply Z.pow_le_mono_r; lia). lia.
Qed.

Lemma shr_m_of_loc m l : shr_m (shr_record_of_loc m l) = m.
Proof. by destruct l as [|[]]. Qed.

Lemma fexp_ge_emin e : emin prec emax <= fexp prec emax e.
Proof. unfold fexp. lia. Qed.

End Digits.

Section Rounding.
Import PyFloat Value.
Local Open Scope R_scope.


Lemma e_round_ge_emin mx ex : (-1074 <= e_round mx ex)%Z.
Proof. unfold e_round, fexp, emin, prec, emax. lia. Qed.

Lemma shr_nonpos mrs e n : (n <= 0)%Z → shr mrs e n = (mrs, e).
Proof. by destruct n. Qed.

Lemma binary_round_aux_spec s mx ex lx x :
  (0 <= mx)%Z → represents x (shr_record_of_loc mx lx) →
  ∃ m1 : Z,
    (mx / 2 ^ (e_round mx ex - ex) <= m1 <= mx / 2 ^ (e_round mx ex - ex) + 1)%Z
    ∧ Rabs (IZR m1 - x * bpow (ex - e_round mx ex)) <= / 2
    ∧ (∀ j, x * bpow (ex - e_round mx ex) <= IZR j → (m1 <= j)%Z)
    ∧ (∀ j, IZR j <= x * bpow (ex - e_round mx ex) → (j <= m1)%Z)
    ∧ ((m1 = 0%Z ∧ binary_round_aux prec emax s mx ex lx = S754_zero s)
       ∨ (∃ p e2, binary_round_aux prec emax s mx ex lx = S754_finite s p e2
                  ∧ F2R (Z.pos p) e2 = F2R m1 (e_round mx ex)
                  ∧ (e2 <= emax - prec)%Z)
       ∨ (binary_round_aux prec emax s mx ex lx = S754_infinity s
          ∧ bpow (emax - prec + 1) <= F2R m1 (e_round mx ex))).
Proof.
  intros Hmx Hx.
  set (e1 := e_round mx ex).
  set (n1 := (fexp prec emax (Zdigits2 mx + ex) - ex)%Z).
  assert (Z.max n1 0 = e1 - ex)%Z as Hn1 by (unfold n1, e1, e_round; lia).
  assert (0 <= e1 - ex)%Z as Hshift by lia.
  unfold binary_round_aux, shr_fexp. fold n1.
  destruct (shr_spec x (shr_record_of_loc mx lx) ex n1) as (He' & Hrep & Hm');
    [by rewrite shr_m_of_loc | done |].
  destruct (shr (shr_record_of_loc mx lx) ex n1) as [mrs' e'].
  simpl in He', Hrep, Hm'. rewrite shr_m_of_loc, Hn1 in Hm'.
  assert (e' = e1) as -> by lia.
  replace (- Z.max n1 0)%Z with (ex - e1)%Z in Hrep by lia.
  assert (0 <= shr_m mrs')%Z as Hm'0.
  { rewrite Hm'. apply Z.div_pos; [done|]. apply Z.pow_pos_nonneg; lia. }
  destruct (round_nearest_even_spec _ _ Hm'0 Hrep) as ([Hlo Hhi] & Herr & Hup & Hdown).
  set (m1 := round_nearest_even (shr_m mrs') (loc_of_shr_record mrs')) in *.
  exists m1. rewrite <- Hm'.
  split; [done|]. split; [done|]. split; [done|]. split; [done|].
  (* the mantissa after the first shift has at most 53 digits *)
  assert (shr_m mrs' < 2 ^ 53)%Z as Hm'53.
  { destruct (Z.eq_dec (shr_m mrs') 0%Z) as [->|Hne]; [done|].
    destruct (Zdigits2_bounds (shr_m mrs')) as [_ Hlt]; [lia|].
    eapply Z.lt_le_trans; [exact Hlt|]. apply Z.pow_le_mono_r; [lia|].
    rewrite Hm'. etransitivity; [apply Zdigits2_div; lia|].
    unfold e1, e_round, fexp, emin, prec, emax. pose proof (Zdigits2_nonneg mx). lia. }
  pose proof (e_round_ge_emin mx ex) as Hemin. fold e1 in Hemin.
  clearbody e1 n1 m1.
  destruct (Z.eq_dec m1 9007199254740992%Z) as [Hcarry|Hnocarry].
  - (* the rounding carried into a 54th digit: one more exact shift *)
    rewrite Hcarry.
    assert ((fexp prec emax (Zdigits2 9007199254740992 + e1) - e1)%Z = 1%Z) as ->.
    { change (Zdigits2 9007199254740992) with 54%Z. unfold fexp, emin, prec, emax.
      clear -Hemin. lia. }
    cbn -[Z.add Z.leb Z.sub].
    right. destruct (e1 + 1 <=? emax - prec)%Z eqn:E.
    + left. eexists _, _. split; [reflexivity|]. split; [|by apply Z.leb_le].
      unfold F2R. rewrite bpow_add, bpow_1. lra.
    + right. split; [reflexivity|]. apply Z.leb_gt in E.
      unfold F2R. change (IZR 9007199254740992) with (IZR (2 ^ 53)).
      rewrite <- (bpow_IZR 53), <- bpow_add by lia.
      apply bpow_le. unfold emax, prec in *. lia.
  - assert (m1 < 2 ^ 53)%Z as Hm153 by lia.
    assert (Zdigits2 m1 <= 53)%Z as Hd1 by (apply Zdigits2_le; lia).
    rewrite shr_nonpos by (unfold fexp, emin, prec, emax; lia).
    simpl shr_m. destruct m1 as [|p|p] eqn:Ep; [by left| |lia].
    right. destruct (e1 <=? emax - prec)%Z eqn:E.
    + left. eexists _, _. split; [reflexivity|]. split; [done|by apply Z.leb_le].
    + right. split; [reflexivity|]. apply Z.leb_gt in E.
      unfold F2R. assert (1 <= IZR (Z.pos p)) by (apply IZR_le; lia).
      assert (bpow (emax - prec + 1) <= bpow e1) by (apply bpow_le; lia).
      pose proof (bpow_gt_0 e1). nra.
Qed.

End Rounding.

Section RoundsTo.
Import PyFloat Value.
Local Open Scope R_scope.

Lemma F2R_le_inv m j e : F2R m e <= F2R j e → IZR m <= IZR j.
Proof. unfold F2R. pose proof (bpow_gt_0 e). nra. Qed.

Lemma F2R_bpow k e : (0 <= k)%Z → F2R (2 ^ k) e = bpow (k + e).
Proof. intros Hk. unfold F2R. by rewrite <- bpow_IZR, bpow_add. Qed.

Lemma F2R_bpow_sub B e : (e <= B)%Z → F2R (2 ^ (B - e)) e = bpow B.
Proof. intros H. rewrite F2R_bpow by lia. f_equal. lia. Qed.

Lemma F2R_scale x ex e : x * bpow ex = x * bpow (ex - e) * bpow e.
Proof. rewrite Rmult_assoc, <- bpow_add. do 2 f_equal. lia. Qed.

Lemma binary_round_aux_rounds s mx ex lx x :
  (0 <= mx)%Z → represents x (shr_record_of_loc mx lx) →
  rounds_to s (x * bpow ex) (e_round mx ex) (binary_round_aux prec emax s mx ex lx).
Proof.
  intros Hmx Hx.
  destruct (binary_round_aux_spec s mx ex lx x Hmx Hx)
    as (m1 & [Hlo _] & Herr & Hup & Hdown & Hres).
  set (e1 := e_round mx ex) in *.
  assert (0 <= e1 - ex)%Z by (unfold e1, e_round; lia).
  exists m1. pose proof (bpow_gt_0 e1) as Hpos.
  split. { etransitivity; [|exact Hlo]. apply Z.div_pos; [done|].
           apply Z.pow_pos_nonneg; lia. }
  split. { rewrite (F2R_scale x ex e1). unfold F2R.
           rewrite <- Rmult_minus_distr_r, Rabs_mult, (Rabs_pos_eq (bpow e1)) by lra.
           nra. }
  split. { intros j Hj. apply Hup. rewrite (F2R_scale x ex e1) in Hj.
           unfold F2R in Hj. nra. }
  split. { intros j Hj. apply Hdown. rewrite (F2R_scale x ex e1) in Hj.
           unfold F2R in Hj. nra. }
  exact Hres.
Qed.

Lemma rounds_to_cases s V e r :
  rounds_to s V e r →
  r = S754_zero s ∨ (∃ p e', r = S754_finite s p e') ∨ r = S754_infinity s.
Proof. intros (m & _ & _ & _ & _ & [[_ ->]|[(p & e' & -> & _)| [-> _]]]); eauto. Qed.

Lemma value_finite_pos s p e : Rabs (value (S754_finite s p e)) = F2R (Z.pos p) e.
Proof.
  unfold value, F2R. pose proof (bpow_gt_0 e).
  assert (0 < IZR (Z.pos p)) by (apply IZR_lt; lia).
  destruct s; simpl; rewrite ?opp_IZR, Rabs_mult, (Rabs_pos_eq (bpow e)) by lra.
  - rewrite Rabs_Ropp, Rabs_pos_eq by lra. done.
  - rewrite Rabs_pos_eq by lra. done.
Qed.

(** A bound by a power of two is kept by rounding. *)
Lemma rounds_to_upper s V e r B :
  rounds_to s V e r → (e <= B)%Z → V <= bpow B → Rabs (value r) <= bpow B.
Proof.
  intros (m & Hm & _ & Hup & _ & Hres) HB HV.
  pose proof (bpow_gt_0 B).
  destruct Hres as [[_ ->]|[(p & e' & -> & Hval & _)| [-> _]]];
    [simpl; rewrite Rabs_R0; lra | | simpl; rewrite Rabs_R0; lra].
  rewrite value_finite_pos, Hval.
  assert (m <= 2 ^ (B - e))%Z as Hle by (apply Hup; by rewrite F2R_bpow_sub).
  apply IZR_le in Hle. rewrite <- (F2R_bpow_sub B e) by lia.
  unfold F2R. pose proof (bpow_gt_0 e). nra.
Qed.

Lemma rounds_to_finite s V e r B :
  rounds_to s V e r → (e <= B)%Z → V <= bpow B → (B <= emax - prec)%Z →
  PyFloat.is_finite r = true.
Proof.
  intros (m & Hm & _ & Hup & _ & Hres) HB HV Hmax.
  destruct Hres as [[_ ->]|[(p & e' & -> & _)| [-> Hbig]]]; [done|done|].
  assert (m <= 2 ^ (B - e))%Z as Hle by (apply Hup; by rewrite F2R_bpow_sub).
  apply IZR_le in Hle.
  assert (F2R m e <= bpow B).
  { rewrite <- (F2R_bpow_sub B e) by lia. unfold F2R.
    pose proof (bpow_gt_0 e). nra. }
  assert (bpow B < bpow (emax - prec + 1)) by (apply bpow_lt; lia). lra.
Qed.

Lemma rounds_to_lower s V e r B :
  rounds_to s V e r → (e <= B)%Z → bpow B <= V → PyFloat.is_finite r = true →
  bpow B <= Rabs (value r).
Proof.
  intros (m & Hm & _ & _ & Hdown & Hres) HB HV Hfin.
  assert (2 ^ (B - e) <= m)%Z as Hle by (apply Hdown; by rewrite F2R_bpow_sub).
  assert (0 < 2 ^ (B - e))%Z by (apply Z.pow_pos_nonneg; lia).
  destruct Hres as [[-> _]|[(p & e' & -> & Hval & _)| [-> _]]]; [lia| |done].
  rewrite value_finite_pos, Hval.
  apply IZR_le in Hle. rewrite <- (F2R_bpow_sub B e) by lia.
  unfold F2R. pose proof (bpow_gt_0 e). nra.
Qed.

Lemma rounds_to_error s V e r :
  rounds_to s V e r → PyFloat.is_finite r = true →
  Rabs (Rabs (value r) - V) <= bpow e / 2.
Proof.
  intros (m & Hm & Herr & _ & _ & Hres) Hfin.
  destruct Hres as [[-> ->]|[(p & e' & -> & Hval & _)| [-> _]]]; [| |done].
  - simpl. rewrite Rabs_R0. unfold F2R in Herr. by rewrite Rmult_0_l in Herr.
  - by rewrite value_finite_pos, Hval.
Qed.

Lemma rounds_to_nonneg V e r : rounds_to false V e r → 0 <= value r.
Proof.
  intros Hr. destruct (rounds_to_cases _ _ _ _ Hr) as [->|[(p & e' & ->)| ->]];
    simpl; try lra.
  unfold F2R. pose proof (bpow_gt_0 e'). assert (0 < IZR (Z.pos p)) by (apply IZR_lt; lia).
  nra.
Qed.

End RoundsTo.

Section Operations.
Import PyFloat Value.
Local Open Scope R_scope.

Lemma represents_exact m : represents (IZR m) (shr_record_of_loc m loc_Exact).
Proof. reflexivity. Qed.

(** The rounding exponent of a positive mantissa is below its magnitude,
    and in the normal range it leaves 53 digits. *)
Lemma e_round_magnitude m e :
  (0 < m)%Z → (-1074 <= Zdigits2 m + e - 1)%Z → (e_round m e <= Zdigits2 m + e - 1)%Z.
Proof.
  intros Hm Hn. pose proof (Zdigits2_bounds m Hm) as [H1 _].
  assert (0 < Zdigits2 m)%Z.
  { destruct (Z_lt_le_dec 0 (Zdigits2 m)) as [|Hle]; [done|].
    destruct m; simpl in Hle; lia. }
  unfold e_round, fexp, emin, prec, emax. lia.
Qed.

Lemma F2R_digits m e :
  (0 < m)%Z → bpow (Zdigits2 m + e - 1) <= F2R m e < bpow (Zdigits2 m + e).
Proof.
  intros Hm. destruct (Zdigits2_bounds m Hm) as [H1 H2].
  assert (0 < Zdigits2 m)%Z.
  { destruct (Z_lt_le_dec 0 (Zdigits2 m)) as [|Hle]; [done|].
    destruct m; simpl in Hle; lia. }
  apply IZR_le in H1. apply IZR_lt in H2.
  rewrite <- bpow_IZR in H1, H2 by lia.
  replace (Zdigits2 m + e - 1)%Z with ((Zdigits2 m - 1) + e)%Z by lia.
  rewrite !bpow_add. unfold F2R. pose proof (bpow_gt_0 e). split; nra.
Qed.


Lemma exact_round_rounds s m e :
  (0 <= m)%Z → rounds_to s (F2R m e) (e_round m e) (exact_round s m e).
Proof. intros Hm. apply binary_round_aux_rounds; [done|apply represents_exact]. Qed.

(** What is a multiple of the rounding unit is not changed. *)
Lemma rounds_to_exact s V e r j :
  rounds_to s V e r → V = F2R j e → PyFloat.is_finite r = true → Rabs (value r) = V.
Proof.
  intros (m & Hm & _ & Hup & Hdown & Hres) -> Hfin.
  assert (m = j) as -> by (apply Z.le_antisymm; [apply Hup | apply Hdown]; lra).
  destruct Hres as [[-> ->]|[(p & e' & -> & Hval & _)| [-> _]]]; [| |done].
  - simpl. rewrite Rabs_R0. unfold F2R. lra.
  - by rewrite value_finite_pos.
Qed.

(** In the normal range the rounding error of an exact value is at most
    [2^-53] of it. *)
Lemma exact_round_relative s m e :
  (0 < m)%Z → (-1021 <= Zdigits2 m + e)%Z →
  PyFloat.is_finite (exact_round s m e) = true →
  Rabs (Rabs (value (exact_round s m e)) - F2R m e) <= F2R m e * bpow (-53).
Proof.
  intros Hm Hnormal Hfin.
  pose proof (exact_round_rounds s m e ltac:(lia)) as Hr.
  pose proof (F2R_digits m e Hm) as [Hlo _].
  assert (0 < F2R m e) by (pose proof (bpow_gt_0 (Zdigits2 m + e - 1)); lra).
  pose proof (bpow_gt_0 (-53)).
  destruct (Z_le_gt_dec (fexp prec emax (Zdigits2 m + e)) e) as [Hnoshift|Hshift].
  - assert (e_round m e = e) as He by (unfold e_round; lia).
    rewrite He in Hr. rewrite (rounds_to_exact _ _ _ _ m Hr eq_refl Hfin).
    rewrite Rminus_diag, Rabs_R0. nra.
  - assert (e_round m e = Zdigits2 m + e - 53)%Z as He
      by (unfold e_round, fexp, emin, prec, emax in *; lia).
    etransitivity; [apply (rounds_to_error _ _ _ _ Hr Hfin)|].
    rewrite He. replace (Zdigits2 m + e - 53)%Z with ((Zdigits2 m + e - 1) + 1 + -53)%Z by lia.
    rewrite !bpow_add, bpow_1. pose proof (bpow_gt_0 (Zdigits2 m + e - 1)). nra.
Qed.

(** A power of two below the exact value stays below the rounded one. *)
Lemma exact_round_lower s m e B :
  (0 < m)%Z → (-1074 <= B)%Z → bpow B <= F2R m e →
  PyFloat.is_finite (exact_round s m e) = true →
  bpow B <= Rabs (value (exact_round s m e)).
Proof.
  intros Hm HB HV Hfin.
  pose proof (exact_round_rounds s m e ltac:(lia)) as Hr.
  pose proof (F2R_digits m e Hm) as [Hlo Hhi].
  assert (B < Zdigits2 m + e)%Z by (apply bpow_lt_inv; lra).
  etransitivity; [apply (bpow_le B (Zdigits2 m + e - 1)); lia|].
  apply (rounds_to_lower _ _ _ _ _ Hr); [apply e_round_magnitude; lia|done|done].
Qed.

(** A power of two above the exact value stays above the rounded one. *)
Lemma exact_round_upper s m e B :
  (0 < m)%Z → (-1074 <= B)%Z → (e <= B)%Z → F2R m e <= bpow B →
  Rabs (value (exact_round s m e)) <= bpow B
  ∧ ((B <= emax - prec)%Z → PyFloat.is_finite (exact_round s m e) = true).
Proof.
  intros Hm HB He HV.
  pose proof (exact_round_rounds s m e ltac:(lia)) as Hr.
  pose proof (F2R_digits m e Hm) as [Hlo Hhi].
  assert (Zdigits2 m + e - 1 < B + 1)%Z by (apply bpow_lt_inv; rewrite bpow_add, bpow_1;
    pose proof (bpow_gt_0 B); lra).
  assert (e_round m e <= B)%Z by (unfold e_round, fexp, emin, prec, emax; lia).
  split; [by apply (rounds_to_upper _ _ _ _ _ Hr)|].
  intros Hmax. by apply (rounds_to_finite _ _ _ _ B Hr).
Qed.

Lemma fmul_finite sx mx ex sy my ey :
  fmul (S754_finite sx mx ex) (S754_finite sy my ey)
  = exact_round (xorb sx sy) (Z.pos (mx * my)) (ex + ey).
Proof. reflexivity. Qed.

Lemma F2R_mul m1 e1 m2 e2 : F2R (m1 * m2) (e1 + e2) = F2R m1 e1 * F2R m2 e2.
Proof. unfold F2R. rewrite mult_IZR, bpow_add. ring. Qed.

End Operations.

Section Alignment.
Import PyFloat Value.
Local Open Scope R_scope.

Lemma pos_iter_xO m d : Z.pos (Pos.iter xO m d) = (Z.pos m * 2 ^ Z.pos d)%Z.
Proof.
  induction d as [|d IH] using Pos.peano_ind.
  - simpl. lia.
  - rewrite Pos.iter_succ, Pos2Z.inj_xO, IH, Pos2Z.inj_succ, Z.pow_succ_r by lia. lia.
Qed.

Lemma shl_align_spec m e e' :
  ((shl_align m e e').2 = Z.min e e'
   ∧ Z.pos (shl_align m e e').1 = Z.pos m * 2 ^ (e - Z.min e e'))%Z.
Proof.
  unfold shl_align. destruct (e' - e)%Z as [|d|d] eqn:E; simpl.
  - rewrite Z.min_l by lia. rewrite Z.sub_diag. lia.
  - rewrite Z.min_l by lia. rewrite Z.sub_diag. lia.
  - rewrite Z.min_r by lia. split; [done|].
    rewrite pos_iter_xO. do 2 f_equal. lia.
Qed.

Lemma F2R_align m e e' :
  (e' <= e)%Z → F2R (m * 2 ^ (e - e')) e' = F2R m e.
Proof.
  intros H. unfold F2R. rewrite mult_IZR, <- bpow_IZR, Rmult_assoc, <- bpow_add by lia.
  do 2 f_equal. lia.
Qed.

(** [binary_round] aligns the mantissa and rounds the same value. *)
Lemma binary_round_as_exact s m e :
  ∃ mz ez, binary_round prec emax s m e = exact_round s mz ez
           ∧ (0 < mz)%Z ∧ F2R mz ez = F2R (Z.pos m) e ∧ (ez <= e)%Z.
Proof.
  unfold binary_round.
  destruct (shl_align_spec m e (fexp prec emax (Z.pos (digits2_pos m) + e))) as [H1 H2].
  destruct (shl_align m e (fexp prec emax (Z.pos (digits2_pos m) + e))) as [mz ez].
  simpl in H1, H2. exists (Z.pos mz), ez.
  split; [reflexivity|]. split; [lia|]. split; [|lia].
  rewrite H2, H1. apply F2R_align. lia.
Qed.

Lemma round_int_as_exact n :
  (0 < n)%Z →
  ∃ mz ez, round_int n = exact_round false mz ez
           ∧ (0 < mz)%Z ∧ F2R mz ez = IZR n ∧ (ez <= 0)%Z.
Proof.
  destruct n as [|p|p]; try lia. intros _.
  destruct (binary_round_as_exact false p 0) as (mz & ez & H1 & H2 & H3 & H4).
  exists mz, ez. split; [exact H1|]. split; [done|]. split; [|done].
  rewrite H3. unfold F2R. rewrite bpow_0. lra.
Qed.

Lemma fadd_pos_as_exact m1 e1 m2 e2 :
  ∃ mz ez, fadd (S754_finite false m1 e1) (S754_finite false m2 e2) = exact_round false mz ez
           ∧ (0 < mz)%Z
           ∧ F2R mz ez = F2R (Z.pos m1) e1 + F2R (Z.pos m2) e2.
Proof.
  unfold fadd, SFadd.
  destruct (shl_align_spec m1 e1 (Z.min e1 e2)) as [_ H1].
  destruct (shl_align_spec m2 e2 (Z.min e1 e2)) as [_ H2].
  rewrite (Z.min_r e1 (Z.min e1 e2)) in H1 by lia.
  rewrite (Z.min_r e2 (Z.min e1 e2)) in H2 by lia.
  set (a := (shl_align m1 e1 (Z.min e1 e2)).1) in *.
  set (b := (shl_align m2 e2 (Z.min e1 e2)).1) in *.
  simpl cond_Zopp. change (Z.pos a + Z.pos b)%Z with (Z.pos (a + b)).
  unfold binary_normalize.
  destruct (binary_round_as_exact false (a + b) (Z.min e1 e2)) as (mz & ez & E & Hpos & Hval & _).
  exists mz, ez. split; [exact E|]. split; [done|].
  rewrite Hval, Pos2Z.inj_add, H1, H2. unfold F2R at 1. rewrite plus_IZR, Rmult_plus_distr_r.
  fold (F2R (Z.pos m1 * 2 ^ (e1 - Z.min e1 e2)) (Z.min e1 e2)).
  fold (F2R (Z.pos m2 * 2 ^ (e2 - Z.min e1 e2)) (Z.min e1 e2)).
  rewrite !F2R_align by lia. reflexivity.
Qed.

End Alignment.

Section Hours.
Import PyFloat Value.
Local Open Scope R_scope.

(** [int(h)] is the floor of a positive float. *)
Lemma shiftl_floor m e :
  (0 <= Z.shiftl (Z.pos m) e)%Z
  ∧ IZR (Z.shiftl (Z.pos m) e) <= F2R (Z.pos m) e < IZR (Z.shiftl (Z.pos m) e) + 1.
Proof.
  destruct (Z_le_gt_dec 0 e) as [He|He].
  - rewrite Z.shiftl_mul_pow2 by done.
    assert (0 < 2 ^ e)%Z by (apply Z.pow_pos_nonneg; lia).
    split; [lia|]. unfold F2R. rewrite mult_IZR, <- bpow_IZR by done. lra.
  - assert (e = - (- e))%Z as Hk by lia. revert Hk.
    generalize (- e)%Z. intros k ->. assert (0 < k)%Z as Hk by lia. clear He.
    rewrite Z.shiftl_opp_r, Z.shiftr_div_pow2 by lia.
    assert (0 < 2 ^ k)%Z as Hp by (apply Z.pow_pos_nonneg; lia).
    pose proof (Z.div_mod (Z.pos m) (2 ^ k) ltac:(lia)) as Hdm.
    pose proof (Z.mod_pos_bound (Z.pos m) (2 ^ k) Hp) as [Hr0 Hr1].
    split; [apply Z.div_pos; lia|].
    unfold F2R. rewrite bpow_opp, bpow_IZR by lia.
    set (q := (Z.pos m / 2 ^ k)%Z) in *. set (r := (Z.pos m mod 2 ^ k)%Z) in *.
    assert (IZR (Z.pos m) = IZR (2 ^ k) * IZR q + IZR r) as ->
      by (rewrite <- mult_IZR, <- plus_IZR; f_equal; exact Hdm).
    apply IZR_lt in Hp, Hr1. apply IZR_le in Hr0.
    set (P := IZR (2 ^ k)) in *.
    assert (IZR r * / P < 1).
    { apply (Rmult_lt_reg_r P); [done|]. rewrite Rmult_assoc, Rinv_l by lra. lra. }
    assert (0 <= IZR r * / P).
    { apply Rmult_le_pos; [done|]. left. by apply Rinv_0_lt_compat. }
    replace ((P * IZR q + IZR r) * / P) with (IZR q + IZR r * / P) by (field; lra).
    lra.
Qed.

(** The fractional part of a positive float is [+0] or a positive float of
    value at most one. *)
Lemma frac_pos m e :
  frac (S754_finite false m e) = S754_zero false
  ∨ ∃ p e', frac (S754_finite false m e) = S754_finite false p e'
            ∧ F2R (Z.pos p) e' <= 1.
Proof.
  unfold frac. destruct (0 <=? e)%Z eqn:E; [by left|]. apply Z.leb_gt in E.
  simpl cond_Zopp.
  assert (0 < 2 ^ (- e))%Z as Hp by (apply Z.pow_pos_nonneg; lia).
  pose proof (Z.mod_pos_bound (Z.pos m) (2 ^ (- e)) Hp) as [Hr0 Hr1].
  destruct (Z.pos m mod 2 ^ (- e))%Z as [|r|r] eqn:Er; [by left| |lia].
  unfold binary_normalize.
  destruct (binary_round_as_exact false r e) as (mz & ez & -> & Hmz & Hval & Hez).
  assert (F2R mz ez <= bpow 0) as Hle.
  { rewrite Hval, bpow_0. unfold F2R. rewrite <- (Z.opp_involutive e), bpow_opp, bpow_IZR by lia.
    apply IZR_lt in Hr1, Hp. set (P := IZR (2 ^ (- e))) in *.
    apply (Rmult_le_reg_r P); [done|]. rewrite Rmult_assoc, Rinv_l by lra. lra. }
  destruct (exact_round_upper false mz ez 0 Hmz ltac:(lia) ltac:(lia) Hle) as [Hup Hfin].
  specialize (Hfin ltac:(unfold emax, prec; lia)).
  destruct (rounds_to_cases _ _ _ _ (exact_round_rounds false mz ez ltac:(lia)))
    as [Hz|[(p & e' & Hf)|Hi]].
  - left. exact Hz.
  - right. exists p, e'. split; [exact Hf|].
    rewrite Hf, value_finite_pos, bpow_0 in Hup. exact Hup.
  - rewrite Hi in Hfin. discriminate Hfin.
Qed.

Lemma F2R_le_1_exp p e : F2R (Z.pos p) e <= 1 → (e <= 0)%Z.
Proof.
  intros H. apply bpow_le_inv. rewrite bpow_0.
  unfold F2R in H. assert (1 <= IZR (Z.pos p)) by (apply IZR_le; lia).
  pose proof (bpow_gt_0 e). nra.
Qed.

Lemma round_leftover_pos x f :
  (f = S754_zero false ∨ ∃ p e, f = S754_finite false p e) →
  (x <= round_leftover x f <= x + 1)%Z.
Proof.
  intros [->|(p & e & ->)]; unfold round_leftover; [lia|]. cbv zeta.
  destruct (Z.pos p ?= 2 ^ (- e - 1))%Z; try destruct (Z.odd x); cbn [cond_Zopp]; lia.
Qed.

Lemma to_int_pos m e B :
  (0 <= B)%Z → F2R (Z.pos m) e <= bpow B →
  (0 <= Z.shiftl (Z.pos m) e <= 2 ^ B)%Z.
Proof.
  intros HB Hle. destruct (shiftl_floor m e) as (H0 & H1 & _).
  split; [done|]. apply le_IZR. rewrite <- bpow_IZR by done. lra.
Qed.

(** The microseconds of a positive number of hours: the whole hours, plus
    less than [2^32 + 1] for the fraction of an hour. *)
Lemma hours_to_us_bounds m e :
  ∃ us, hours_to_us (S754_finite false m e) = Ok us
        ∧ (Z.shiftl (Z.pos m) e * US_PER_HOUR <= us
           <= Z.shiftl (Z.pos m) e * US_PER_HOUR + 2 ^ 32 + 1)%Z.
Proof.
  unfold hours_to_us.
  change (to_int (S754_finite false m e)) with (Ok (Z.shiftl (Z.pos m) e)).
  rewrite bind_Ok. cbv zeta.
  set (t := Z.shiftl (Z.pos m) e).
  destruct (frac_pos m e) as [->|(p & e' & -> & Hle)].
  { cbn [is_zero]. exists (t * US_PER_HOUR)%Z. split; [done|lia]. }
  cbn [is_zero].
  change (of_int US_PER_HOUR) with (Ok (S754_finite false 7549747200000000 (-21))).
  rewrite bind_Ok, fmul_finite. simpl xorb.
  set (P := Z.pos (7549747200000000 * p)). set (E := (-21 + e')%Z).
  pose proof (F2R_le_1_exp _ _ Hle) as He'.
  assert (F2R P E <= bpow 32) as HV.
  { unfold P, E. rewrite Pos2Z.inj_mul, F2R_mul.
    assert (F2R 7549747200000000 (-21) = 3600000000) as ->.
    { unfold F2R. change (-21)%Z with (- (21))%Z.
      rewrite bpow_opp, (bpow_IZR 21) by lia. change (2 ^ 21)%Z with 2097152%Z.
      change 7549747200000000%Z with (3600000000 * 2097152)%Z. rewrite mult_IZR. field. }
    rewrite (bpow_IZR 32) by lia. change (2 ^ 32)%Z with 4294967296%Z.
    assert (0 < F2R (Z.pos p) e').
    { unfold F2R. pose proof (bpow_gt_0 e'). assert (0 < IZR (Z.pos p)) by (apply IZR_lt; lia).
      nra. }
    nra. }
  destruct (exact_round_upper false P E 32 ltac:(unfold P; lia) ltac:(lia)
              ltac:(unfold E; lia) HV) as [Hup Hfin].
  specialize (Hfin ltac:(unfold emax, prec; lia)).
  destruct (rounds_to_cases _ _ _ _ (exact_round_rounds false P E ltac:(unfold P; lia)))
    as [Hz|[(q & eq & Hf)|Hi]].
  - rewrite Hz. cbn [to_int]. rewrite bind_Ok. exists (t * US_PER_HOUR + 0)%Z. split; [done|lia].
  - rewrite Hf in *. cbn [to_int cond_Zopp]. rewrite bind_Ok.
    rewrite value_finite_pos in Hup.
    pose proof (to_int_pos q eq 32 ltac:(lia) Hup) as Hq.
    eexists. split; [reflexivity|].
    assert (frac (S754_finite false q eq) = S754_zero false
            ∨ ∃ p0 e0, frac (S754_finite false q eq) = S754_finite false p0 e0) as Hfrac.
    { destruct (frac_pos q eq) as [->|(p0 & e0 & -> & _)]; eauto. }
    pose proof (round_leftover_pos (t * US_PER_HOUR + Z.shiftl (Z.pos q) eq) _ Hfrac).
    lia.
  - rewrite Hi in Hfin. discriminate Hfin.
Qed.

End Hours.

Section Intervals.
Import PyFloat Value Main.
Local Open Scope R_scope.


Lemma exact_round_positive_class m e : (0 <= m)%Z → positive_class (exact_round false m e).
Proof. intros Hm. apply (rounds_to_cases _ _ _ _ (exact_round_rounds false m e Hm)). Qed.

Lemma round_int_positive_class n : (0 <= n)%Z → positive_class (round_int n).
Proof.
  intros Hn. destruct (Z.eq_dec n 0%Z) as [->|Hne]; [by left|].
  destruct (round_int_as_exact n ltac:(lia)) as (mz & ez & -> & Hmz & _).
  apply exact_round_positive_class. lia.
Qed.

Lemma fmul_positive_class p e x :
  positive_class x → positive_class (fmul (S754_finite false p e) x).
Proof.
  intros [->|[(q & eq & ->)| ->]]; [by left| |by right; right].
  rewrite fmul_finite. apply exact_round_positive_class. lia.
Qed.

Lemma F2R_whole m e v : (e <= 0)%Z → (m = v * 2 ^ (- e))%Z → F2R m e = IZR v.
Proof.
  intros He ->. unfold F2R. rewrite mult_IZR, <- bpow_IZR, Rmult_assoc, <- bpow_add by lia.
  replace (- e + e)%Z with 0%Z by lia. rewrite bpow_0. lra.
Qed.

(** The factor [1 + 0.1 * n] is at least one, or it overflowed. *)
Lemma factor_at_least_one n :
  (0 <= n)%Z →
  (∃ p e, fadd (round_int 1) (fmul lit_0_1 (round_int n)) = S754_finite false p e
          ∧ 1 <= F2R (Z.pos p) e)
  ∨ fadd (round_int 1) (fmul lit_0_1 (round_int n)) = S754_infinity false.
Proof.
  intros Hn.
  assert (positive_class (fmul lit_0_1 (round_int n))) as Ht
    by (apply fmul_positive_class, round_int_positive_class, Hn).
  destruct Ht as [->|[(q & eq & ->)| ->]]; [| |by right].
  { left. eexists _, _. split; [reflexivity|]. by rewrite (F2R_whole _ _ 1). }
  change (round_int 1) with (S754_finite false 4503599627370496 (-52)).
  destruct (fadd_pos_as_exact 4503599627370496 (-52) q eq) as (mz & ez & -> & Hmz & Hval).
  assert (F2R 4503599627370496 (-52) = 1) as Hone by by apply F2R_whole.
  assert (0 < F2R (Z.pos q) eq).
  { unfold F2R. pose proof (bpow_gt_0 eq). assert (0 < IZR (Z.pos q)) by (apply IZR_lt; lia).
    nra. }
  assert (bpow 0 <= F2R mz ez) as Hge by (rewrite bpow_0; lra).
  destruct (exact_round_positive_class mz ez ltac:(lia)) as [Hz|[(p & e & Hf)|Hi]];
    [| |by right].
  - pose proof (exact_round_lower false mz ez 0 Hmz ltac:(lia) Hge) as Hlow.
    rewrite Hz in Hlow. specialize (Hlow eq_refl). cbn [value] in Hlow.
    rewrite Rabs_R0, bpow_0 in Hlow. lra.
  - left. exists p, e. split; [exact Hf|].
    pose proof (exact_round_lower false mz ez 0 Hmz ltac:(lia) Hge) as Hlow.
    rewrite Hf in Hlow. specialize (Hlow eq_refl).
    by rewrite value_finite_pos, bpow_0 in Hlow.
Qed.

(** The six base intervals as floats. *)
Lemma round_int_base b :
  b ∈ [1; 24; 72; 168; 336; 720]%Z →
  ∃ mb eb, round_int b = S754_finite false mb eb ∧ F2R (Z.pos mb) eb = IZR b.
Proof.
  intros Hb.
  repeat (apply elem_of_cons in Hb as [-> | Hb];
          [eexists _, _; split; [by vm_compute|]; by apply F2R_whole|]).
  by apply elem_of_nil in Hb.
Qed.

Lemma bpow_m53_small : bpow (-53) <= / 1000000.
Proof.
  etransitivity; [apply (bpow_le (-53) (-20)); lia|].
  change (-20)%Z with (- (20))%Z. rewrite bpow_opp, (bpow_IZR 20) by lia.
  change (2 ^ 20)%Z with 1048576%Z. apply Rinv_le_contravar; lra.
Qed.

(** An interval [b * u] with [u >= 1]: if the product is finite, it is a
    positive float within [2^-53] of the exact product. *)
Lemma scaled_by_factor mb eb p e :
  1 <= F2R (Z.pos mb) eb → 1 <= F2R (Z.pos p) e →
  PyFloat.is_finite (fmul (S754_finite false mb eb) (S754_finite false p e)) = true →
  ∃ q eq, fmul (S754_finite false mb eb) (S754_finite false p e) = S754_finite false q eq
          ∧ Rabs (F2R (Z.pos q) eq - F2R (Z.pos mb) eb * F2R (Z.pos p) e)
            <= F2R (Z.pos mb) eb * F2R (Z.pos p) e * / 1000000.
Proof.
  intros Hb Hu. rewrite fmul_finite. simpl xorb. intros Hfin.
  set (P := Z.pos (mb * p)) in *.
  assert (F2R P (eb + e) = F2R (Z.pos mb) eb * F2R (Z.pos p) e) as HV
    by (unfold P; rewrite Pos2Z.inj_mul; apply F2R_mul).
  assert (1 <= F2R P (eb + e)) as Hge by (rewrite HV; nra).
  pose proof (F2R_digits P (eb + e) ltac:(unfold P; lia)) as [_ Hhi].
  assert (0 < Zdigits2 P + (eb + e))%Z.
  { apply bpow_lt_inv. rewrite bpow_0. lra. }
  pose proof (exact_round_relative false P (eb + e) ltac:(unfold P; lia) ltac:(lia) Hfin) as Herr.
  pose proof bpow_m53_small as Hsmall.
  destruct (exact_round_positive_class P (eb + e) ltac:(unfold P; lia))
    as [Hz|[(q & eq & Hf)|Hi]].
  - rewrite Hz in Herr. simpl in Herr. rewrite Rabs_R0, Rminus_0_l, Rabs_Ropp in Herr.
    rewrite Rabs_pos_eq in Herr by lra.
    assert (F2R P (eb + e) * bpow (-53) <= F2R P (eb + e) * / 1000000) by nra.
    assert (F2R P (eb + e) * / 1000000 < F2R P (eb + e)) by nra. lra.
  - exists q, eq. split; [exact Hf|]. rewrite Hf, value_finite_pos, HV in Herr.
    etransitivity; [exact Herr|].
    assert (0 <= F2R (Z.pos mb) eb * F2R (Z.pos p) e) by nra. nra.
  - rewrite Hi in Hfin. discriminate Hfin.
Qed.

End Intervals.

Section Increasing.
Import PyFloat Value Main.
Local Open Scope R_scope.

Lemma hours_to_us_finite h us : hours_to_us h = Ok us → PyFloat.is_finite h = true.
Proof. by destruct h. Qed.

Lemma base_range b : b ∈ [1; 24; 72; 168; 336; 720]%Z → (1 <= b <= 720)%Z.
Proof.
  intros Hb. repeat (apply elem_of_cons in Hb as [-> | Hb]; [lia|]).
  by apply elem_of_nil in Hb.
Qed.

(** The microseconds of two intervals of one schedule: a base interval at
    least four hours longer gives strictly more microseconds. *)
Lemma interval_us_increasing n b b' us us' :
  (0 <= n)%Z →
  b ∈ [1; 24; 72; 168; 336; 720]%Z → b' ∈ [1; 24; 72; 168; 336; 720]%Z →
  (b + 4 <= b')%Z →
  hours_to_us (scaled_interval n b) = Ok us →
  hours_to_us (scaled_interval n b') = Ok us' →
  (us < us')%Z.
Proof.
  intros Hn Hb Hb' Hgap Hus Hus'.
  pose proof (base_range b Hb) as Hrb. pose proof (base_range b' Hb') as Hrb'.
  destruct (round_int_base b Hb) as (mb & eb & Eb & Vb).
  destruct (round_int_base b' Hb') as (mb' & eb' & Eb' & Vb').
  pose proof (hours_to_us_finite _ _ Hus) as Hfin.
  pose proof (hours_to_us_finite _ _ Hus') as Hfin'.
  unfold scaled_interval in *. rewrite Eb in Hus, Hfin. rewrite Eb' in Hus', Hfin'.
  destruct (factor_at_least_one n Hn) as [(p & e & Hu & Hge)|Hinf];
    [|rewrite Hinf in Hfin; discriminate Hfin].
  rewrite Hu in *.
  assert (1 <= IZR b <= 720) as HRb by (split; apply IZR_le; lia).
  assert (1 <= IZR b' <= 720) as HRb' by (split; apply IZR_le; lia).
  assert (IZR b + 4 <= IZR b') as HRgap by (rewrite <- plus_IZR; apply IZR_le; lia).
  destruct (scaled_by_factor mb eb p e ltac:(lra) Hge Hfin) as (q & eq & Eq & Herr).
  destruct (scaled_by_factor mb' eb' p e ltac:(lra) Hge Hfin') as (q' & eq' & Eq' & Herr').
  rewrite Eq in Hus. rewrite Eq' in Hus'.
  destruct (hours_to_us_bounds q eq) as (u0 & Hu0 & Hlo & Hhi).
  destruct (hours_to_us_bounds q' eq') as (u0' & Hu0' & Hlo' & Hhi').
  assert (u0 = us) as -> by congruence. assert (u0' = us') as -> by congruence.
  destruct (shiftl_floor q eq) as (Ht0 & Ht1 & Ht2).
  destruct (shiftl_floor q' eq') as (Ht0' & Ht1' & Ht2').
  set (t := Z.shiftl (Z.pos q) eq) in *. set (t' := Z.shiftl (Z.pos q') eq') in *.
  rewrite Vb in Herr. rewrite Vb' in Herr'.
  set (U := F2R (Z.pos p) e) in *.
  set (V := F2R (Z.pos q) eq) in *. set (V' := F2R (Z.pos q') eq') in *.
  assert (IZR b' * U - IZR b * U >= 4 * U) as Hdiff by nra.
  assert (IZR b * U + IZR b' * U <= 1440 * U) as Hsum by nra.
  assert (0 <= IZR b * U) as Hx by nra. assert (0 <= IZR b' * U) as Hx' by nra.
  set (X := IZR b * U) in *. set (X' := IZR b' * U) in *.
  apply Rabs_bound in Herr, Herr'.
  assert (t + 1 < t')%Z as Hgap_t.
  { apply lt_IZR. rewrite plus_IZR. lra. }
  unfold US_PER_HOUR in *. lia.
Qed.

End Increasing.

(** ** Quotients and percentages *)

Section Quotient.
Import PyFloat Value Analytics.
Local Open Scope R_scope.

(** Every location is the location of some real in [m, m + 1). *)
Lemma loc_represented m l :
  ∃ x, represents x (shr_record_of_loc m l) ∧ IZR m <= x < IZR m + 1.
Proof.
  destruct l as [|[| |]].
  - exists (IZR m). split; [reflexivity|lra].
  - exists (IZR m + / 2). split; [reflexivity|lra].
  - exists (IZR m + / 4). split; [unfold represents; simpl; lra|lra].
  - exists (IZR m + 3 / 4). split; [unfold represents; simpl; lra|lra].
Qed.

(** A coarse bound on a rounding from a mantissa and any location. *)
Lemma binary_round_aux_upper s m e l B :
  (0 <= m)%Z → (e <= B)%Z → (-1074 <= B)%Z → (m + 1 <= 2 ^ (B - e))%Z →
  (B <= emax - prec)%Z →
  PyFloat.is_finite (binary_round_aux prec emax s m e l) = true
  ∧ Rabs (value (binary_round_aux prec emax s m e l)) <= bpow B
  ∧ (binary_round_aux prec emax s m e l = S754_zero s
     ∨ ∃ p e', binary_round_aux prec emax s m e l = S754_finite s p e').
Proof.
  intros Hm He HB Hlt Hmax.
  destruct (loc_represented m l) as (x & Hx & _ & Hx1).
  pose proof (binary_round_aux_rounds s m e l x Hm Hx) as Hr.
  assert (x * bpow e <= bpow B) as HV.
  { apply IZR_le in Hlt. rewrite plus_IZR, <- bpow_IZR in Hlt by lia.
    replace B with ((B - e) + e)%Z at 1 by lia. rewrite bpow_add.
    pose proof (bpow_gt_0 e). nra. }
  assert (Zdigits2 m <= B - e)%Z as Hd by (apply Zdigits2_le; lia).
  assert (e_round m e <= B)%Z as Her by (unfold e_round, fexp, emin, prec, emax; lia).
  pose proof (rounds_to_finite _ _ _ _ B Hr Her HV Hmax) as Hfin.
  split; [exact Hfin|]. split; [by apply (rounds_to_upper _ _ _ _ _ Hr)|].
  destruct (rounds_to_cases _ _ _ _ Hr) as [Hz|[Hf|Hi]]; [by left|by right|].
  rewrite Hi in Hfin. discriminate Hfin.
Qed.

(** The quotient of two positive integers is a finite float, of magnitude
    at most what the digit counts allow. *)
Lemma round_quot_bound c a B :
  (0 < c)%Z → (0 < a)%Z →
  (Z.max (Zdigits2 c - Zdigits2 a + 1) 0 <= B)%Z → (B <= emax - prec)%Z →
  PyFloat.is_finite (round_quot c a) = true
  ∧ Rabs (value (round_quot c a)) <= bpow B
  ∧ (round_quot c a = S754_zero false ∨ ∃ p e, round_quot c a = S754_finite false p e).
Proof.
  intros Hc Ha HB Hmax. unfold round_quot.
  destruct c as [|c|c]; try lia.
  assert ((Z.pos c <? 0)%Z = false) as -> by (apply Z.ltb_ge; lia).
  change (Z.abs (Z.pos c)) with (Z.pos c). unfold SFdiv_core_binary. cbv zeta.
  set (d1 := Zdigits2 (Z.pos c)) in *. set (d2 := Zdigits2 a) in *.
  rewrite !Z.add_0_r, !Z.sub_0_r.
  set (e' := Z.min (fexp prec emax (d1 - d2)) 0).
  assert (e' <= 0)%Z as He' by (unfold e'; lia).
  assert (-1074 <= e')%Z as He'min by (unfold e', fexp, emin, prec, emax; lia).
  set (m' := match (0 - e')%Z with
             | Z0 => Z.pos c | Z.pos _ => Z.shiftl (Z.pos c) (0 - e') | Z.neg _ => 0%Z
             end).
  assert (m' = Z.pos c * 2 ^ (- e'))%Z as Hm'.
  { unfold m'. destruct (0 - e')%Z as [|s|s] eqn:Es.
    - replace (- e')%Z with 0%Z by lia. lia.
    - rewrite <- Es. rewrite Z.shiftl_mul_pow2 by lia. repeat f_equal; lia.
    - lia. }
  clearbody m'.
  pose proof (Z.div_eucl_eq m' a ltac:(lia)) as Hdiv.
  pose proof (Z.mod_pos_bound m' a Ha) as Hmod.
  unfold Z.modulo in Hmod.
  destruct (Z.div_eucl m' a) as [q r]. simpl in Hmod.
  destruct (Zdigits2_bounds (Z.pos c) ltac:(lia)) as [_ Hc2]. fold d1 in Hc2.
  destruct (Zdigits2_bounds a Ha) as [Ha1 _]. fold d2 in Ha1.
  assert (0 < 2 ^ (- e'))%Z as Hp by (apply Z.pow_pos_nonneg; lia).
  assert (0 <= q)%Z as Hq by nia.
  assert (0 < d1)%Z by (unfold d1; simpl; lia).
  assert (0 < d2)%Z.
  { destruct (Z_lt_le_dec 0 d2) as [|Hle]; [done|]. unfold d2 in Hle. destruct a; simpl in Hle; lia. }
  apply binary_round_aux_upper; try lia.
  (* q * a <= c * 2^-e' < 2^d1 * 2^-e' and 2^(d2-1) <= a *)
  assert (q * 2 ^ (d2 - 1) < 2 ^ (d1 - e'))%Z as Hqa.
  { rewrite Z.pow_sub_r by lia. replace (d1 - e')%Z with (d1 + - e')%Z by lia.
    rewrite Z.pow_add_r by lia.
    assert (0 < 2 ^ (d2 - 1))%Z by (apply Z.pow_pos_nonneg; lia).
    rewrite Z.pow_sub_r in * by lia. nia. }
  destruct (Z_le_gt_dec (d2 - 1) (d1 - e')) as [Hle|Hgt].
  - replace (d1 - e')%Z with ((d1 - e' - (d2 - 1)) + (d2 - 1))%Z in Hqa by lia.
    rewrite Z.pow_add_r in Hqa by lia.
    assert (0 < 2 ^ (d2 - 1))%Z by (apply Z.pow_pos_nonneg; lia).
    assert (q < 2 ^ (d1 - e' - (d2 - 1)))%Z by nia.
    assert (2 ^ (d1 - e' - (d2 - 1)) <= 2 ^ (B - e'))%Z by (apply Z.pow_le_mono_r; lia).
    lia.
  - assert (2 ^ (d1 - e') < 2 ^ (d2 - 1))%Z by (apply Z.pow_lt_mono_r; lia).
    assert (0 < 2 ^ (d2 - 1))%Z by (apply Z.pow_pos_nonneg; lia).
    assert (q = 0)%Z as -> by nia.
    assert (0 < 2 ^ (B - e'))%Z by (apply Z.pow_pos_nonneg; lia). lia.
Qed.

End Quotient.

Section Percentage.
Import PyFloat Value Analytics.
Local Open Scope R_scope.

Lemma round_half_even_bounds num den :
  (0 <= num)%Z → (0 < den)%Z →
  (0 <= round_half_even num den <= num / den + 1)%Z.
Proof.
  intros Hn Hd. unfold round_half_even.
  assert (0 <= num / den)%Z by (apply Z.div_pos; lia).
  destruct (2 * (num mod den) ?= den)%Z; try destruct (Z.even (num / den)); lia.
Qed.

Lemma F2R_le_bpow_exp p e B : F2R (Z.pos p) e <= bpow B → (e <= B)%Z.
Proof.
  intros H. apply bpow_le_inv. etransitivity; [|exact H].
  unfold F2R. assert (1 <= IZR (Z.pos p)) by (apply IZR_le; lia).
  pose proof (bpow_gt_0 e). nra.
Qed.

Lemma F2R_le_bpow_int p e B :
  (0 <= B)%Z → (0 <= e)%Z → F2R (Z.pos p) e <= bpow B → (Z.pos p * 2 ^ e <= 2 ^ B)%Z.
Proof.
  intros HB He H. apply le_IZR. rewrite mult_IZR, <- !bpow_IZR by lia. exact H.
Qed.

Lemma F2R_le_bpow_frac p e B :
  (0 <= B)%Z → (e < 0)%Z → F2R (Z.pos p) e <= bpow B → (Z.pos p <= 2 ^ B * 2 ^ (- e))%Z.
Proof.
  intros HB He H. apply le_IZR. rewrite mult_IZR, <- !bpow_IZR by lia.
  unfold F2R in H. rewrite bpow_opp. pose proof (bpow_gt_0 e).
  apply (Rmult_le_reg_r (bpow e)); [done|]. rewrite Rmult_assoc, Rinv_l by lra. lra.
Qed.

(** Rounding a float of magnitude at most 256 to one decimal gives a finite
    float. *)
Lemma round1_nearest_finite x :
  (x = S754_zero false ∨ ∃ p e, x = S754_finite false p e ∧ F2R (Z.pos p) e <= bpow 8) →
  PyFloat.is_finite (round1_nearest x) = true.
Proof.
  intros [->|(p & e & -> & Hle)]; [done|].
  unfold round1_nearest. cbv zeta. cbn [cond_Zopp].
  set (k := if (0 <=? e)%Z then (10 * Z.pos p * 2 ^ e)%Z
            else round_half_even (10 * Z.pos p) (2 ^ (- e))).
  assert (0 <= k <= 2561)%Z as Hk.
  { unfold k. destruct (0 <=? e)%Z eqn:E.
    - apply Z.leb_le in E. pose proof (F2R_le_bpow_int p e 8 ltac:(lia) E Hle).
      assert (0 < 2 ^ e)%Z by (apply Z.pow_pos_nonneg; lia). nia.
    - apply Z.leb_gt in E. pose proof (F2R_le_bpow_frac p e 8 ltac:(lia) E Hle) as Hp.
      assert (0 < 2 ^ (- e))%Z as Hd by (apply Z.pow_pos_nonneg; lia).
      pose proof (round_half_even_bounds (10 * Z.pos p) (2 ^ (- e)) ltac:(lia) Hd).
      assert (10 * Z.pos p / 2 ^ (- e) <= 2560)%Z.
      { apply Z.div_le_upper_bound; [done|]. change (2 ^ 8)%Z with 256%Z in Hp. lia. }
      lia. }
  clearbody k.
  destruct (Z.eq_dec k 0%Z) as [->|Hne]; [done|].
  destruct (round_quot_bound k 10 9 ltac:(lia) ltac:(lia)) as (Hfin & _ & Hcases).
  - assert (Zdigits2 k <= 12)%Z by (apply Zdigits2_le; lia).
    change (Zdigits2 10) with 4%Z. lia.
  - unfold emax, prec. lia.
  - by destruct Hcases as [->|(q & eq & ->)].
Qed.

(** The percentage of [c] out of [a >= c] is at most 256 as a float. *)
Lemma percentage_float_bound c a :
  (0 <= c <= a)%Z → (0 < a)%Z →
  fmul (round_quot c a) (round_int 100) = S754_zero false
  ∨ ∃ p e, fmul (round_quot c a) (round_int 100) = S754_finite false p e
           ∧ F2R (Z.pos p) e <= bpow 8.
Proof.
  intros Hc Ha. destruct (Z.eq_dec c 0%Z) as [->|Hne]; [by left|].
  destruct (round_quot_bound c a 1 ltac:(lia) Ha) as (_ & Hup & Hcases).
  - destruct (Zdigits2_bounds a Ha) as [_ Ha2].
    assert (Zdigits2 c <= Zdigits2 a)%Z.
    { apply Zdigits2_le; [lia|apply Zdigits2_nonneg|lia]. }
    lia.
  - unfold emax, prec. lia.
  - destruct Hcases as [->|(p & e & Hq)]; [by left|].
    rewrite Hq in *. rewrite value_finite_pos in Hup.
    change (round_int 100) with (S754_finite false 7036874417766400 (-46)).
    rewrite fmul_finite. cbn [xorb].
    set (P := Z.pos (p * 7036874417766400)). set (E := (e + -46)%Z).
    pose proof (F2R_le_bpow_exp p e 1 Hup) as He.
    assert (F2R P E <= bpow 8) as HV.
    { unfold P, E. rewrite Pos2Z.inj_mul, F2R_mul.
      rewrite (F2R_whole 7036874417766400 (-46) 100) by (lia || reflexivity).
      rewrite bpow_1 in Hup. rewrite (bpow_IZR 8) by lia. change (2 ^ 8)%Z with 256%Z.
      assert (0 < F2R (Z.pos p) e).
      { unfold F2R. pose proof (bpow_gt_0 e).
        assert (0 < IZR (Z.pos p)) by (apply IZR_lt; lia). nra. }
      lra. }
    destruct (exact_round_upper false P E 8 ltac:(unfold P; lia) ltac:(lia)
                ltac:(unfold E; lia) HV) as [Hup' Hfin].
    specialize (Hfin ltac:(unfold emax, prec; lia)).
    destruct (exact_round_positive_class P E ltac:(unfold P; lia))
      as [Hz|[(q & eq & Hf)|Hi]].
    + by left.
    + right. exists q, eq. split; [exact Hf|]. by rewrite Hf, value_finite_pos in Hup'.
    + rewrite Hi in Hfin. discriminate Hfin.
Qed.

(** The rate that [analyze_learning_pattern] reports for [c] completed
    schedules out of [a]. *)
Lemma round1_percentage c a :
  (0 <= c <= a)%Z →
  round1 (percentage c a) = Ok (rounded_percentage c a).
Proof.
  intros Hc. unfold percentage, rounded_percentage.
  destruct (0 <? a)%Z eqn:E.
  - apply Z.ltb_lt in E. assert ((a =? 0)%Z = false) as -> by (apply Z.eqb_neq; lia).
    cbn [round1]. unfold round1_float. cbv zeta.
    rewrite (round1_nearest_finite _ (percentage_float_bound c a Hc E)).
    by rewrite andb_false_r.
  - apply Z.ltb_ge in E. assert ((a =? 0)%Z = true) as -> by (apply Z.eqb_eq; lia). done.
Qed.

End Percentage.

(** ** Completing and cancelling a review *)

Lemma with_review_schedules_id (db : store) :
  with_review_schedules db (review_schedules db) = db.
Proof. by destruct db. Qed.

Lemma complete_review_found now schedule_id db s :
  review_schedules db !! schedule_id = Some s →
  complete_review now schedule_id db =
    (Success now,
     with_review_schedules db (<[schedule_id := set_completed now s]> (review_schedules db))).
Proof. intros H. unfold complete_review, first_schedule. by rewrite H. Qed.

Lemma complete_review_missing now schedule_id db :
  review_schedules db !! schedule_id = None →
  complete_review now schedule_id db = (Failure Http404, db).
Proof. intros H. unfold complete_review, first_schedule. by rewrite H. Qed.

Lemma delete_review_found schedule_id db s :
  review_schedules db !! schedule_id = Some s →
  delete_review schedule_id db =
    (Success true,
     with_review_schedules db (<[schedule_id := set_is_deleted true s]> (review_schedules db))).
Proof. intros H. unfold delete_review, first_schedule. by rewrite H. Qed.

Lemma delete_review_missing schedule_id db :
  review_schedules db !! schedule_id = None →
  delete_review schedule_id db = (Failure Http404, db).
Proof. intros H. unfold delete_review, first_schedule. by rewrite H. Qed.

(** C8. [complete_review] and [delete_review] answer not-found exactly when
    no schedule with the given id is stored, they have no other failure, and
    a failure leaves the store as it was; a successful [complete_review]
    stores the time of the call in [completed] of that schedule, a
    successful [delete_review] stores [is_deleted = true], and neither
    touches another field. *)
Theorem review_update_not_found_iff (now : datetime) (schedule_id : Z) (db : store) :
  ((complete_review now schedule_id db).1 = Failure Http404
     ↔ review_schedules db !! schedule_id = None)
  ∧ ((delete_review schedule_id db).1 = Failure Http404
     ↔ review_schedules db !! schedule_id = None)
  ∧ (∀ e, (complete_review now schedule_id db).1 = Failure e →
          e = Http404 ∧ (complete_review now schedule_id db).2 = db)
  ∧ (∀ e, (delete_review schedule_id db).1 = Failure e →
          e = Http404 ∧ (delete_review schedule_id db).2 = db)
  ∧ (∀ t, (complete_review now schedule_id db).1 = Success t →
          ∃ s s', review_schedules db !! schedule_id = Some s
                  ∧ review_schedules (complete_review now schedule_id db).2 !! schedule_id
                    = Some s'
                  ∧ completed s' = Some now ∧ t = now
                  ∧ s' = set_completed now s)
  ∧ (∀ b, (delete_review schedule_id db).1 = Success b →
          ∃ s s', review_schedules db !! schedule_id = Some s
                  ∧ review_schedules (delete_review schedule_id db).2 !! schedule_id
                    = Some s'
                  ∧ is_deleted s' = true ∧ b = true
                  ∧ s' = set_is_deleted true s).
Proof.
  destruct (review_schedules db !! schedule_id) as [s|] eqn:E.
  - rewrite (complete_review_found _ _ _ _ E), (delete_review_found _ _ _ E). simpl.
    repeat split; try discriminate.
    + intros t [= <-]. exists s, (set_completed now s).
      by rewrite lookup_insert_eq.
    + intros b [= <-]. exists s, (set_is_deleted true s).
      by rewrite lookup_insert_eq.
  - rewrite (complete_review_missing _ _ _ E), (delete_review_missing _ _ E). simpl.
    repeat split; try done; congruence.
Qed.

(** C10. A schedule that is already soft-deleted is still found by the
    mutation lookups: [complete_review] succeeds on it and stores the time of
    the call, and [delete_review] succeeds again and leaves the store,
    [is_deleted = true] included, exactly as it was. *)
Theorem soft_deleted_still_mutable (now : datetime) (schedule_id : Z) (db : store)
    (s : ReviewSchedule) :
  review_schedules db !! schedule_id = Some s →
  is_deleted s = true →
  (complete_review now schedule_id db).1 = Success now
  ∧ (∃ s', review_schedules (complete_review now schedule_id db).2 !! schedule_id = Some s'
           ∧ completed s' = Some now ∧ is_deleted s' = true)
  ∧ delete_review schedule_id db = (Success true, db).
Proof.
  intros Hs Hdel.
  rewrite (complete_review_found _ _ _ _ Hs), (delete_review_found _ _ _ Hs). simpl.
  split; [done|]. split.
  - exists (set_completed now s). by rewrite lookup_insert_eq.
  - f_equal.
    assert (set_is_deleted true s = s) as -> by (destruct s; simpl in *; by subst).
    rewrite insert_id by done. apply with_review_schedules_id.
Qed.

Lemma soft_deleted_still_mutable_witness :
  review_schedules Sample.db !! 2 = Some (Sample.schedule 1 2 (plus_hours Sample.monday 24) None true)
  ∧ (complete_review Sample.friday 2 Sample.db).1 = Success Sample.friday
  ∧ delete_review 2 Sample.db = (Success true, Sample.db).
Proof.
  assert (review_schedules Sample.db !! 2
          = Some (Sample.schedule 1 2 (plus_hours Sample.monday 24) None true)) as H
    by (vm_compute; reflexivity).
  split; [exact H|].
  destruct (soft_deleted_still_mutable Sample.friday 2 Sample.db _ H eq_refl)
    as (H1 & _ & H3).
  split; [exact H1 | exact H3].
Defined.

(** ** Deleting a learning item *)

Lemma delete_learning_item_found item_id db item :
  learning_items db !! item_id = Some item →
  delete_learning_item item_id db =
    (Success (),
     {| users := users db;
        learning_items := delete item_id (learning_items db);
        review_schedules :=
          filter (λ kv, kv.2.(Models.learning_item_id) ≠ item_id) (review_schedules db) |}).
Proof. intros H. unfold delete_learning_item. by rewrite H. Qed.

Lemma schedules_after_delete item_id (rs : gmap Z ReviewSchedule) sid :
  filter (λ kv, kv.2.(Models.learning_item_id) ≠ item_id) rs !! sid =
    match rs !! sid with
    | Some s => if decide (learning_item_id s = item_id) then None else Some s
    | None => None
    end.
Proof.
  destruct (rs !! sid) as [s|] eqn:E.
  - case_decide as Hd.
    + apply map_lookup_filter_None. right. intros s' Hs'. simpl.
      rewrite E in Hs'. injection Hs' as <-. by intros ?.
    + apply map_lookup_filter_Some. by split.
  - apply map_lookup_filter_None. by left.
Qed.

(** C5. Deleting a stored learning item succeeds and removes the item and
    every review schedule whose parent it is: afterwards
    [get_review_schedules] of the item is empty, none of those schedules is
    in the table, and [complete_review] and [delete_review] on any of their
    ids answer not-found. *)
Theorem delete_learning_item_cascades (item_id : Z) (db : store) (item : LearningItem) :
  learning_items db !! item_id = Some item →
  (delete_learning_item item_id db).1 = Success ()
  ∧ learning_items (delete_learning_item item_id db).2 !! item_id = None
  ∧ get_review_schedules item_id (delete_learning_item item_id db).2 = []
  ∧ ∀ now schedule_id s,
      review_schedules db !! schedule_id = Some s →
      learning_item_id s = item_id →
      review_schedules (delete_learning_item item_id db).2 !! schedule_id = None
      ∧ (complete_review now schedule_id (delete_learning_item item_id db).2).1
        = Failure Http404
      ∧ (delete_review schedule_id (delete_learning_item item_id db).2).1
        = Failure Http404.
Proof.
  intros Hitem. rewrite (delete_learning_item_found _ _ _ Hitem). simpl.
  split; [done|]. split; [apply lookup_delete_eq|]. split.
  - unfold get_review_schedules. simpl.
    rewrite map_filter_filter.
    replace (filter _ (review_schedules db)) with (∅ : gmap Z ReviewSchedule);
      [apply map_to_list_empty|].
    symmetry. apply map_empty_filter_2.
    intros k s _ [[H1 _] H2]. simpl in *. done.
  - intros now sid s Hs Hparent.
    assert (filter (λ kv, kv.2.(Models.learning_item_id) ≠ item_id) (review_schedules db)
              !! sid = None) as Hgone.
    { rewrite schedules_after_delete, Hs. by rewrite decide_True. }
    split; [done|].
    split.
    + by rewrite complete_review_missing.
    + by rewrite delete_review_missing.
Qed.

Lemma delete_learning_item_cascades_witness :
  get_review_schedules 1 (delete_learning_item 1 Sample.db).2 = []
  ∧ (complete_review Sample.friday 3 (delete_learning_item 1 Sample.db).2).1
    = Failure Http404
  ∧ review_schedules (delete_learning_item 1 Sample.db).2 !! 4
    = Some (Sample.schedule 2 1 (plus_hours Sample.tuesday 1) None false).
Proof.
  assert (learning_items Sample.db !! 1
          = Some {| title := "kanji"; content := "week 1";
                    learning_date := Sample.monday; user_id := 1 |}) as H
    by (vm_compute; reflexivity).
  destruct (delete_learning_item_cascades 1 Sample.db _ H) as (_ & _ & Hlist & Hall).
  split; [exact Hlist|]. split.
  - refine (proj1 (proj2 (Hall Sample.friday 3
             (Sample.schedule 1 3 (plus_hours Sample.monday 72) None false) _ eq_refl))).
    vm_compute; reflexivity.
  - vm_compute; reflexivity.
Defined.

(** ** Creating a learning item *)

(** Inversion of a [result] computation that returned. *)
Ltac bind_inv H :=
  match type of H with
  | (match ?r with Ok _ => _ | Raise _ => _ end) = _ =>
    let E := fresh "E" in destruct r eqn:E; simpl in H; [|discriminate H]
  | (?r ≫= _) = _ =>
    let E := fresh "E" in destruct r eqn:E; simpl in H; [|discriminate H]
  end.

Section CreateLearningItem.
Variable iso_parse : string → option datetime.

Lemma create_learning_item_Success item db summary db' :
  create_learning_item iso_parse item db = (Success summary, db') →
  ∃ date a intervals review_dates,
    fromisoformat iso_parse (LearningItemCreate.learning_date item) = Ok date
    ∧ Analytics.analyze_learning_pattern db (LearningItemCreate.user_id item) = Ok a
    ∧ Analytics.optimize_review_intervals (Analytics.completion_rate a) BASE_INTERVALS
      = Ok intervals
    ∧ mapM (λ interval, td ← timedelta_hours_int interval; datetime_add date td) intervals
      = Ok review_dates
    ∧ item_id summary = next_id (learning_items db)
    ∧ item_learning_date summary = date
    ∧ users db' = users db
    ∧ learning_items db' =
        <[next_id (learning_items db) :=
            {| title := LearningItemCreate.title item;
               content := LearningItemCreate.content item;
               learning_date := date;
               user_id := LearningItemCreate.user_id item |}]> (learning_items db)
    ∧ review_schedules db' =
        add_schedules (next_id (learning_items db)) date review_dates (review_schedules db).
Proof.
  unfold create_learning_item. intros H.
  destruct (create_learning_item_reads iso_parse item db) as [[date intervals]|e] eqn:E1;
    [|by destruct e].
  destruct (create_learning_item_writes item db date intervals)
    as [[summary' db'']|e] eqn:E2; [|by destruct e].
  injection H as <- <-.
  unfold create_learning_item_reads in E1.
  bind_inv E1. bind_inv E1. bind_inv E1. injection E1 as <- <-.
  unfold create_learning_item_writes, add_row in E2. simpl in E2. bind_inv E2.
  injection E2 as <- <-. simpl. eauto 15.
Qed.

Lemma add_schedules_lookup_old id date dates (t : gmap Z ReviewSchedule) k :
  is_Some (t !! k) → add_schedules id date dates t !! k = t !! k.
Proof.
  unfold add_schedules.
  generalize (imap (λ (i : nat) (review_date : datetime), (Z.of_nat i + 1, review_date)) dates).
  intros l. revert t. induction l as [|[i d] l IH]; intros t Hk; cbn [foldl]; [done|].
  rewrite IH; rewrite add_row_lookup_old; done.
Qed.

Lemma create_learning_item_old_schedule item db k :
  is_Some (review_schedules db !! k) →
  review_schedules (create_learning_item iso_parse item db).2 !! k = review_schedules db !! k.
Proof.
  intros Hk.
  destruct (create_learning_item iso_parse item db) as [[summary|e] db'] eqn:E;
    cbn [snd].
  - apply create_learning_item_Success in E
      as (? & ? & ? & ? & _ & _ & _ & _ & _ & _ & _ & _ & ->).
    by apply add_schedules_lookup_old.
  - unfold create_learning_item in E.
    destruct (create_learning_item_reads iso_parse item db) as [[date intervals]|e'];
      [|by injection E as _ <-].
    destruct (create_learning_item_writes item db date intervals)
      as [[summary db'']|e'']; [discriminate E|by injection E as _ <-].
Qed.

End CreateLearningItem.

(** ** The completion timestamp over all requests *)

(** C4, as the claim states it, fails: a second [complete_review] on a
    completed schedule replaces the timestamp. Schedule 1 of the sample
    store was completed on Tuesday; completing it again on Friday stores
    Friday. *)
Lemma first_completion_does_not_win :
  ¬ (∀ (now : datetime) (schedule_id : Z) (db : store) (s : ReviewSchedule) (t : datetime),
       review_schedules db !! schedule_id = Some s →
       completed s = Some t →
       ∃ s', review_schedules (complete_review now schedule_id db).2 !! schedule_id = Some s'
             ∧ completed s' = Some t).
Proof.
  intros H.
  destruct (H Sample.friday 1 Sample.db
              (Sample.schedule 1 1 (plus_hours Sample.monday 1) (Some Sample.tuesday) false)
              Sample.tuesday) as (s' & Hs' & Hc).
  - vm_compute; reflexivity.
  - reflexivity.
  - vm_compute in Hs'. injection Hs' as <-. discriminate Hc.
Qed.

Section Serve.
Variable iso_parse : string → option datetime.
Variable pwd_hash : string → string.

Lemma create_user_with_schedules now e p db :
  review_schedules (create_user_with pwd_hash now e p db).2 = review_schedules db.
Proof. unfold create_user_with. by destruct (first_user_by_email e db). Qed.

(** C4, amended. Once [completed] of a stored schedule is set, a request
    either leaves the schedule stored with [completed] set, or it is the
    deletion of the parent learning item, which removes the schedule. The
    timestamp changes only by [complete_review] on that schedule id, which
    replaces it by the time of the call (the last completion wins); every
    other request keeps it. *)
Theorem completed_overwritten_only_by_completion
    (now : datetime) (req : request) (db : store)
    (schedule_id : Z) (s : ReviewSchedule) (t : datetime) :
  review_schedules db !! schedule_id = Some s →
  completed s = Some t →
  match review_schedules (serve iso_parse pwd_hash now req db).2 !! schedule_id with
  | Some s' =>
    (req = CompleteReview schedule_id → completed s' = Some now)
    ∧ (req ≠ CompleteReview schedule_id → completed s' = Some t)
  | None => req = DeleteLearningItem (learning_item_id s)
  end.
Proof.
  intros Hs Hc.
  assert (∀ s', s' = s →
            (req = CompleteReview schedule_id → completed s' = Some now) →
            (req = CompleteReview schedule_id → completed s' = Some now)
            ∧ (req ≠ CompleteReview schedule_id → completed s' = Some t)) as Hkeep
    by (intros ? -> ?; split; [done | by intros _]).
  destruct req as [d n|item|u|id|id|i|u|user| | |id]; simpl.
  - rewrite Hs. by apply Hkeep.
  - destruct (create_learning_item iso_parse item db) as [r db'] eqn:E. simpl.
    assert (db' = (create_learning_item iso_parse item db).2) as -> by by rewrite E.
    rewrite create_learning_item_old_schedule, Hs by eauto. by apply Hkeep.
  - rewrite Hs. by apply Hkeep.
  - unfold complete_review, first_schedule.
    destruct (review_schedules db !! id) as [s0|] eqn:E0; simpl.
    + destruct (decide (id = schedule_id)) as [->|Hne].
      * rewrite lookup_insert_eq. split; [done|congruence].
      * rewrite lookup_insert_ne, Hs by done. split; [congruence|done].
    + rewrite Hs. split; [|done]. intros [= ->]. congruence.
  - unfold delete_review, first_schedule.
    destruct (review_schedules db !! id) as [s0|] eqn:E0; simpl.
    + destruct (decide (id = schedule_id)) as [->|Hne].
      * rewrite lookup_insert_eq. split; [done|]. intros _. simpl. congruence.
      * rewrite lookup_insert_ne, Hs by done. by apply Hkeep.
    + rewrite Hs. by apply Hkeep.
  - rewrite Hs. by apply Hkeep.
  - rewrite Hs. by apply Hkeep.
  - destruct (create_user pwd_hash now user db) as [r db'] eqn:E. simpl.
    assert (db' = (create_user pwd_hash now user db).2) as -> by by rewrite E.
    unfold create_user. rewrite create_user_with_schedules, Hs. by apply Hkeep.
  - destruct (create_test_user pwd_hash now db) as [r db'] eqn:E. simpl.
    assert (db' = (create_test_user pwd_hash now db).2) as -> by by rewrite E.
    unfold create_test_user. rewrite create_user_with_schedules, Hs. by apply Hkeep.
  - rewrite Hs. by apply Hkeep.
  - unfold delete_learning_item.
    destruct (learning_items db !! id) as [item|] eqn:E0; simpl.
    + rewrite schedules_after_delete, Hs.
      case_decide as Hd; [by subst | by apply Hkeep].
    + rewrite Hs. by apply Hkeep.
Qed.

End Serve.

Lemma completed_overwritten_only_by_completion_witness :
  (∃ s', review_schedules
           (serve IsoFormat.parse Sample.hash Sample.friday (CompleteReview 1) Sample.db).2
           !! 1 = Some s'
         ∧ completed s' = Some Sample.friday)
  ∧ (∃ s', review_schedules
             (serve IsoFormat.parse Sample.hash Sample.friday (DeleteReview 1) Sample.db).2
             !! 1 = Some s'
           ∧ completed s' = Some Sample.tuesday).
Proof.
  assert (review_schedules Sample.db !! 1
          = Some (Sample.schedule 1 1 (plus_hours Sample.monday 1) (Some Sample.tuesday) false))
    as H by (vm_compute; reflexivity).
  split.
  - pose proof (completed_overwritten_only_by_completion IsoFormat.parse Sample.hash
                  Sample.friday (CompleteReview 1) Sample.db 1 _ Sample.tuesday H eq_refl) as W.
    destruct (review_schedules (serve _ _ _ _ _).2 !! 1) as [s'|] eqn:E; [|discriminate W].
    exists s'. split; [reflexivity | exact (proj1 W eq_refl)].
  - pose proof (completed_overwritten_only_by_completion IsoFormat.parse Sample.hash
                  Sample.friday (DeleteReview 1) Sample.db 1 _ Sample.tuesday H eq_refl) as W.
    destruct (review_schedules (serve _ _ _ _ _).2 !! 1) as [s'|] eqn:E; [|discriminate W].
    exists s'. split; [reflexivity | apply (proj2 W); discriminate].
Defined.

(** ** Dates that do not parse *)

Lemma fromisoformat_fails iso_parse s :
  (∀ d, fromisoformat iso_parse s ≠ Ok d) → fromisoformat iso_parse s = Raise ValueError.
Proof.
  unfold fromisoformat. intros H.
  destruct (iso_parse s) as [d|]; [|done].
  destruct (datetime_valid d); [|done]. by destruct (H d).
Qed.

Lemma fromisoformat_valid iso_parse s d :
  fromisoformat iso_parse s = Ok d → datetime_valid d = true.
Proof.
  unfold fromisoformat. destruct (iso_parse s) as [d'|]; [|done].
  destruct (datetime_valid d') eqn:E; [|done]. by intros [= <-].
Qed.

(** C6. When the date string does not parse, [calculate_reviews] and
    [create_learning_item] answer 400, whatever the other inputs, and the
    store after the request is the store before it. *)
Theorem unparsable_date_is_rejected
    (iso_parse : string → option datetime) (pwd_hash : string → string)
    (now : datetime) (s : string) (n : Z) (item : LearningItemCreate.t) (db : store) :
  (∀ d, fromisoformat iso_parse s ≠ Ok d) →
  LearningItemCreate.learning_date item = s →
  calculate_reviews iso_parse s n = Failure Http400
  ∧ create_learning_item iso_parse item db = (Failure Http400, db)
  ∧ serve iso_parse pwd_hash now (CalculateReviews s n) db = (Some Http400, db)
  ∧ serve iso_parse pwd_hash now (CreateLearningItem item) db = (Some Http400, db).
Proof.
  intros Hs Hitem. apply fromisoformat_fails in Hs.
  assert (calculate_reviews iso_parse s n = Failure Http400) as Hcalc.
  { unfold calculate_reviews. by rewrite Hs. }
  assert (create_learning_item iso_parse item db = (Failure Http400, db)) as Hcreate.
  { unfold create_learning_item, create_learning_item_reads. by rewrite Hitem, Hs. }
  repeat split; [done | done | |].
  - simpl. by rewrite Hcalc.
  - simpl. by rewrite Hcreate.
Qed.

Lemma unparsable_date_is_rejected_witness :
  calculate_reviews IsoFormat.parse "next tuesday" 2 = Failure Http400
  ∧ create_learning_item IsoFormat.parse (Sample.new_item "2024-02-30T10:00:00") Sample.db
    = (Failure Http400, Sample.db).
Proof.
  split.
  - refine (proj1 (unparsable_date_is_rejected IsoFormat.parse Sample.hash Sample.friday
                     "next tuesday" 2 (Sample.new_item "next tuesday") Sample.db _ eq_refl)).
    intros d. vm_compute. discriminate.
  - refine (proj1 (proj2 (unparsable_date_is_rejected IsoFormat.parse Sample.hash
                     Sample.friday "2024-02-30T10:00:00" 0
                     (Sample.new_item "2024-02-30T10:00:00") Sample.db _ eq_refl))).
    intros d. vm_compute. discriminate.
Defined.

(** ** The first review of a user who is behind *)

Lemma datetime_add_hours (T : datetime) (h : Z) :
  0 ≤ dt_us T + h * US_PER_HOUR ≤ MAX_US →
  - 999999999 * 24 ≤ h ≤ 999999999 * 24 →
  (td ← timedelta_hours_int h; datetime_add T td) = Ok (plus_hours T h).
Proof.
  intros Hrange Hh. unfold timedelta_hours_int, microseconds_to_delta.
  assert (- MAX_DELTA_DAYS <= h * US_PER_HOUR / US_PER_DAY <= MAX_DELTA_DAYS) as [H1 H2].
  { unfold MAX_DELTA_DAYS, US_PER_HOUR, US_PER_DAY.
    replace (h * 3600000000) with (h * 1 * 3600000000) by lia.
    change 86400000000 with (24 * 3600000000).
    rewrite Z.div_mul_cancel_r by lia. rewrite Z.mul_1_r.
    split; [apply Z.div_le_lower_bound | apply Z.div_le_upper_bound]; lia. }
  apply Z.leb_le in H1, H2. rewrite H1, H2. simpl.
  unfold datetime_add, datetime_valid. simpl.
  destruct Hrange as [H3 H4]. apply Z.leb_le in H3, H4. by rewrite H3, H4.
Qed.





(** ** The preview of a review schedule *)

Lemma of_int_finite n : PyFloat.is_finite (PyFloat.round_int n) = true →
  PyFloat.of_int n = Ok (PyFloat.round_int n).
Proof. unfold PyFloat.of_int. by intros ->. Qed.

Lemma adjusted_interval_finite n b :
  PyFloat.is_finite (PyFloat.round_int n) = true →
  PyFloat.is_finite (PyFloat.round_int b) = true →
  adjusted_interval n b = Ok (scaled_interval n b).
Proof.
  intros Hn Hb. unfold adjusted_interval, scaled_interval.
  unfold PyFloat.mul_float_int, PyFloat.add_int_float, PyFloat.mul_int_float.
  rewrite (of_int_finite _ Hn), (of_int_finite _ Hb). reflexivity.
Qed.

(** When [float(n)] overflows, no interval is computed. *)
Lemma adjusted_interval_overflow n b :
  PyFloat.is_finite (PyFloat.round_int n) = false →
  adjusted_interval n b = Raise OverflowError.
Proof.
  intros Hn. unfold adjusted_interval, PyFloat.mul_float_int, PyFloat.of_int.
  by rewrite Hn.
Qed.





Ltac in_base := rewrite ?elem_of_cons; auto 10.




(** ** The interval optimizer *)

Lemma fmul_finite_l x f :
  PyFloat.is_finite (PyFloat.fmul x f) = true → PyFloat.is_finite x = true.
Proof. destruct x, f; try done. Qed.

Lemma scale_interval f b :
  PyFloat.is_finite (PyFloat.fmul (PyFloat.round_int b) f) = true →
  (p ← PyFloat.mul_int_float b f; PyFloat.to_int p) = Ok (Analytics.truncated_product f b).
Proof.
  intros Hfin. unfold PyFloat.mul_int_float.
  rewrite (of_int_finite b (fmul_finite_l _ _ Hfin)), !bind_Ok.
  unfold Analytics.truncated_product.
  by destruct (PyFloat.fmul (PyFloat.round_int b) f).
Qed.

Section SmallIntervals.
Import PyFloat Value.
Local Open Scope R_scope.

Lemma round_int_signed_as_exact n :
  n ≠ 0%Z →
  ∃ mz ez, round_int n = exact_round (n <? 0)%Z mz ez
           ∧ (0 < mz)%Z ∧ F2R mz ez = IZR (Z.abs n).
Proof.
  intros Hn. destruct n as [|p|p]; [done| |].
  - destruct (binary_round_as_exact false p 0) as (mz & ez & H1 & H2 & H3 & _).
    exists mz, ez. split; [exact H1|]. split; [done|].
    rewrite H3. unfold F2R. rewrite bpow_0. change (Z.abs (Z.pos p)) with (Z.pos p). lra.
  - destruct (binary_round_as_exact true p 0) as (mz & ez & H1 & H2 & H3 & _).
    exists mz, ez. split; [exact H1|]. split; [done|].
    rewrite H3. unfold F2R. rewrite bpow_0. change (Z.abs (Z.neg p)) with (Z.pos p). lra.
Qed.

Lemma F2R_le_two m e : (Zdigits2 (Z.pos m) + e <= 1)%Z → F2R (Z.pos m) e <= 2.
Proof.
  intros H. destruct (F2R_digits (Z.pos m) e ltac:(lia)) as [_ Hlt].
  rewrite <- bpow_1. left. eapply Rlt_le_trans; [exact Hlt|]. by apply bpow_le.
Qed.

(** An interval of magnitude at most [2^970] times a factor of magnitude at
    most two is a finite float. *)
Lemma small_interval_finite b mf ef :
  (Z.abs b <= 2 ^ 970)%Z → (ef <= 0)%Z → F2R (Z.pos mf) ef <= 2 →
  is_finite (fmul (round_int b) (S754_finite false mf ef)) = true.
Proof.
  intros Hb Hef Hf. destruct (Z.eq_dec b 0%Z) as [->|Hne]; [done|].
  destruct (round_int_signed_as_exact b Hne) as (mz & ez & -> & Hmz & Hval).
  assert (F2R mz ez <= bpow 970) as HV.
  { rewrite Hval, (bpow_IZR 970) by lia. by apply IZR_le. }
  assert (ez <= 970)%Z as Hez.
  { destruct mz as [|pz|pz]; try lia. by apply (F2R_le_bpow_exp pz). }
  destruct (exact_round_upper (b <? 0)%Z mz ez 970 Hmz ltac:(lia) Hez HV) as [Hup Hfin].
  specialize (Hfin ltac:(unfold emax, prec; lia)).
  destruct (rounds_to_cases _ _ _ _ (exact_round_rounds (b <? 0)%Z mz ez ltac:(lia)))
    as [Hz|[(q & eq & Hq)|Hi]];
    [by rewrite Hz; destruct (b <? 0)%Z | | rewrite Hi in Hfin; discriminate Hfin].
  rewrite Hq in *. rewrite value_finite_pos in Hup.
  rewrite fmul_finite.
  pose proof (F2R_le_bpow_exp q eq 970 Hup) as Heq.
  assert (0 < F2R (Z.pos q) eq).
  { unfold F2R. pose proof (bpow_gt_0 eq).
    assert (0 < IZR (Z.pos q)) by (apply IZR_lt; lia). nra. }
  assert (0 < F2R (Z.pos mf) ef).
  { unfold F2R. pose proof (bpow_gt_0 ef).
    assert (0 < IZR (Z.pos mf)) by (apply IZR_lt; lia). nra. }
  apply (exact_round_upper _ (Z.pos (q * mf)) (eq + ef) 971); try lia.
  - rewrite Pos2Z.inj_mul, F2R_mul.
    replace 971%Z with (970 + 1)%Z by lia. rewrite bpow_add, bpow_1. nra.
  - unfold emax, prec. lia.
Qed.

End SmallIntervals.




(** ** The order of the review dates *)

Lemma after_hours_us T h d :
  after_hours T h = Ok d →
  ∃ us, hours_to_us h = Ok us ∧ dt_us d = dt_us T + us.
Proof.
  unfold after_hours, timedelta_hours_float. intros H.
  destruct (hours_to_us h) as [us|] eqn:E; [|discriminate H].
  rewrite bind_Ok in H. unfold microseconds_to_delta in H.
  destruct (_ && _); [|discriminate H]. rewrite bind_Ok in H.
  unfold datetime_add in H. destruct (datetime_valid _); [|discriminate H].
  injection H as <-. by exists us.
Qed.

(** What a successful [calculate_reviews] computed. *)
Lemma calculate_reviews_Success iso_parse s n records :
  calculate_reviews iso_parse s n = Success records →
  ∃ T d1 d2 d3 d4 d5 d6,
    fromisoformat iso_parse s = Ok T
    ∧ after_hours T (scaled_interval n 1) = Ok d1
    ∧ after_hours T (scaled_interval n 24) = Ok d2
    ∧ after_hours T (scaled_interval n 72) = Ok d3
    ∧ after_hours T (scaled_interval n 168) = Ok d4
    ∧ after_hours T (scaled_interval n 336) = Ok d5
    ∧ after_hours T (scaled_interval n 720) = Ok d6
    ∧ records = [preview 0 (scaled_interval n 1) d1;
                 preview 1 (scaled_interval n 24) d2;
                 preview 2 (scaled_interval n 72) d3;
                 preview 3 (scaled_interval n 168) d4;
                 preview 4 (scaled_interval n 336) d5;
                 preview 5 (scaled_interval n 720) d6].
Proof.
  unfold calculate_reviews.
  destruct (fromisoformat iso_parse s) as [T|e] eqn:HT; [|by destruct e].
  rewrite bind_Ok. cbv zeta. cbn [mapM].
  destruct (PyFloat.is_finite (PyFloat.round_int n)) eqn:Hfin.
  - rewrite !(adjusted_interval_finite n) by (done || by vm_compute).
    cbn [mbind mret result_bind result_ret mapM].
    fold (after_hours T (scaled_interval n 1)). fold (after_hours T (scaled_interval n 24)).
    fold (after_hours T (scaled_interval n 72)). fold (after_hours T (scaled_interval n 168)).
    fold (after_hours T (scaled_interval n 336)). fold (after_hours T (scaled_interval n 720)).
    destruct (after_hours T (scaled_interval n 1)) as [d1|e1] eqn:A1; [|by destruct e1].
    destruct (after_hours T (scaled_interval n 24)) as [d2|e2] eqn:A2; [|by destruct e2].
    destruct (after_hours T (scaled_interval n 72)) as [d3|e3] eqn:A3; [|by destruct e3].
    destruct (after_hours T (scaled_interval n 168)) as [d4|e4] eqn:A4; [|by destruct e4].
    destruct (after_hours T (scaled_interval n 336)) as [d5|e5] eqn:A5; [|by destruct e5].
    destruct (after_hours T (scaled_interval n 720)) as [d6|e6] eqn:A6; [|by destruct e6].
    rewrite !bind_Ok. intros [= <-]. by exists T, d1, d2, d3, d4, d5, d6.
  - rewrite (adjusted_interval_overflow n 1 Hfin). discriminate.
Qed.

(** C7. Whenever [calculate_reviews] returns a schedule for [n >= 0], its
    review dates are strictly increasing: a record further down the list
    has a strictly later [review_date]. *)
Theorem review_dates_strictly_increasing
    (iso_parse : string → option datetime) (s : string) (n : Z) (records : list Preview.t) :
  0 ≤ n →
  calculate_reviews iso_parse s n = Success records →
  ∀ (i j : nat) (r1 r2 : Preview.t),
    (i < j)%nat → records !! i = Some r1 → records !! j = Some r2 →
    before (Preview.review_date r1) (Preview.review_date r2).
Proof.
  intros Hn Hcalc.
  apply calculate_reviews_Success in Hcalc
    as (T & d1 & d2 & d3 & d4 & d5 & d6 & _ & H1 & H2 & H3 & H4 & H5 & H6 & ->).
  apply after_hours_us in H1 as (u1 & U1 & E1), H2 as (u2 & U2 & E2), H3 as (u3 & U3 & E3),
    H4 as (u4 & U4 & E4), H5 as (u5 & U5 & E5), H6 as (u6 & U6 & E6).
  assert (u1 < u2) by (apply (interval_us_increasing n 1 24); try done; in_base).
  assert (u2 < u3) by (apply (interval_us_increasing n 24 72); try done; in_base).
  assert (u3 < u4) by (apply (interval_us_increasing n 72 168); try done; in_base).
  assert (u4 < u5) by (apply (interval_us_increasing n 168 336); try done; in_base).
  assert (u5 < u6) by (apply (interval_us_increasing n 336 720); try done; in_base).
  intros i j r1 r2 Hij Hi Hj. unfold before.
  destruct i as [|[|[|[|[|[|i]]]]]]; try discriminate Hi; injection Hi as <-;
    destruct j as [|[|[|[|[|[|j]]]]]]; try discriminate Hj; try lia;
    injection Hj as <-; cbn [Preview.review_date preview]; lia.
Qed.

Lemma review_dates_strictly_increasing_witness :
  ∃ records,
    calculate_reviews IsoFormat.parse "2024-01-01T09:00:00" 3 = Success records
    ∧ length records = 6%nat
    ∧ ∀ (i j : nat) (r1 r2 : Preview.t),
        (i < j)%nat → records !! i = Some r1 → records !! j = Some r2 →
        before (Preview.review_date r1) (Preview.review_date r2).
Proof.
  eexists. split; [vm_compute; reflexivity|]. split; [reflexivity|].
  apply (review_dates_strictly_increasing IsoFormat.parse "2024-01-01T09:00:00" 3).
  - lia.
  - vm_compute. reflexivity.
Defined.

(** ** The analytics of a user *)



(** The sample user has two items, and one completed schedule out of the
    three that are not cancelled: 33.3 percent. *)
Example analyze_sample :
  Analytics.analyze_learning_pattern Sample.db 1 =
    Ok {| Analytics.total_items := 2;
          Analytics.completion_rate := PyFloat (PyFloat.round_quot 333 10) |}.
Proof. vm_compute. reflexivity. Qed.

(** * Further properties of the handlers *)

(** ** The sample store *)

Lemma sample_parents_stored : parents_stored Sample.db.
Proof.
  apply (bool_decide_unpack
           (map_Forall (λ (_ : Z) s, is_Some (learning_items Sample.db !! learning_item_id s))
                       (review_schedules Sample.db))).
  vm_compute. exact I.
Qed.

Lemma sample_emails_unique : emails_unique Sample.db.
Proof.
  intros i j u v Hi Hj _. unfold Sample.db, users in Hi, Hj.
  apply lookup_singleton_Some in Hi as [<- _].
  by apply lookup_singleton_Some in Hj as [<- _].
Qed.

(** ** Mutations of review schedules commute *)

Lemma store_eq (db1 db2 : store) :
  users db1 = users db2 → learning_items db1 = learning_items db2 →
  review_schedules db1 = review_schedules db2 → db1 = db2.
Proof. destruct db1, db2. simpl. by intros -> -> ->. Qed.

(** X1. Completing one review and cancelling another, or the same one,
    give the same store and the same answers in either order. *)
Theorem complete_review_delete_review_commute (now : datetime) (a b : Z) (db : store) :
  (complete_review now a (delete_review b db).2).2
  = (delete_review b (complete_review now a db).2).2
  ∧ (complete_review now a (delete_review b db).2).1 = (complete_review now a db).1
  ∧ (delete_review b (complete_review now a db).2).1 = (delete_review b db).1.
Proof.
  unfold complete_review, delete_review, first_schedule.
  destruct (review_schedules db !! a) as [sa|] eqn:Ea;
    destruct (review_schedules db !! b) as [sb|] eqn:Eb; simpl;
    rewrite ?Ea, ?Eb; simpl.
  - destruct (decide (a = b)) as [->|Hne].
    + rewrite !lookup_insert_eq. simpl. rewrite !insert_insert_eq.
      assert (sa = sb) as -> by congruence. done.
    + rewrite !lookup_insert_ne, Ea, Eb by done. simpl.
      split; [|done]. apply store_eq; simpl; try done. by apply insert_insert_ne.
  - assert (a ≠ b) by congruence.
    rewrite lookup_insert_ne, Eb by done. done.
  - assert (a ≠ b) by congruence.
    rewrite lookup_insert_ne, Ea by done. done.
  - done.
Qed.

(** ** What the listings show *)

Lemma get_review_schedules_elem i db k s :
  (k, s) ∈ get_review_schedules i db ↔
  review_schedules db !! k = Some s ∧ learning_item_id s = i ∧ is_deleted s = false.
Proof.
  unfold get_review_schedules.
  rewrite elem_of_map_to_list, map_lookup_filter_Some. simpl. tauto.
Qed.

(** X2. Cancelling a review takes it, and nothing else, out of every
    listing of [get_review_schedules]; completing a review keeps every
    listing as it was, but for the completion time of that review. A
    listing shows no schedule id twice. *)
Theorem review_listing_after_update (now : datetime) (sid i : Z) (db : store) :
  (∀ k s, (k, s) ∈ get_review_schedules i (delete_review sid db).2 ↔
          (k, s) ∈ get_review_schedules i db ∧ k ≠ sid)
  ∧ (∀ k s', (k, s') ∈ get_review_schedules i (complete_review now sid db).2 ↔
             ∃ s, (k, s) ∈ get_review_schedules i db
                  ∧ s' = if decide (k = sid) then set_completed now s else s)
  ∧ NoDup (get_review_schedules i db).*1.
Proof.
  split; [|split].
  - intros k s. rewrite !get_review_schedules_elem.
    unfold delete_review, first_schedule.
    destruct (review_schedules db !! sid) as [s0|] eqn:E; simpl.
    + destruct (decide (k = sid)) as [->|Hne].
      * rewrite lookup_insert_eq. split.
        -- intros ([= <-] & _ & Hd). discriminate Hd.
        -- intros [_ Hk]. done.
      * rewrite lookup_insert_ne by done. tauto.
    + split; [|tauto]. intros (Hk & ? & ?). repeat split; try done. congruence.
  - intros k s'. setoid_rewrite get_review_schedules_elem.
    unfold complete_review, first_schedule.
    destruct (review_schedules db !! sid) as [s0|] eqn:E; simpl.
    + destruct (decide (k = sid)) as [->|Hne].
      * rewrite lookup_insert_eq. split.
        -- intros ([= <-] & Hi & Hd). exists s0. done.
        -- intros (s & (Hs & Hi & Hd) & ->).
           assert (s = s0) as -> by congruence. done.
      * rewrite lookup_insert_ne by done. split.
        -- intros H. by exists s'.
        -- by intros (s & H & ->).
    + split.
      * intros (Hk & ? & ?). exists s'. split; [done|].
        case_decide; [congruence|done].
      * intros (s & (Hs & Hi & Hd) & ->). case_decide; [congruence|done].
  - unfold get_review_schedules. apply NoDup_fst_map_to_list.
Qed.

(** ** Deleting a learning item *)

(** X3. [delete_learning_item] answers not-found exactly when the item is
    not stored, and then changes nothing. Otherwise it leaves the users,
    every other learning item and every schedule of another item as they
    were. A second deletion of the same item answers not-found. *)
Theorem delete_learning_item_frame (item_id : Z) (db : store) :
  ((delete_learning_item item_id db).1 = Failure Http404
   ↔ learning_items db !! item_id = None)
  ∧ (learning_items db !! item_id = None → (delete_learning_item item_id db).2 = db)
  ∧ users (delete_learning_item item_id db).2 = users db
  ∧ (∀ k, k ≠ item_id →
       learning_items (delete_learning_item item_id db).2 !! k = learning_items db !! k)
  ∧ (∀ k s, review_schedules db !! k = Some s → learning_item_id s ≠ item_id →
       review_schedules (delete_learning_item item_id db).2 !! k = Some s)
  ∧ (delete_learning_item item_id (delete_learning_item item_id db).2).1 = Failure Http404.
Proof.
  unfold delete_learning_item.
  destruct (learning_items db !! item_id) as [item|] eqn:E; simpl.
  - split; [split; discriminate|]. split; [discriminate|]. split; [done|].
    split; [intros k Hk; by apply lookup_delete_ne|]. split.
    + intros k s Hs Hne. by apply map_lookup_filter_Some.
    + by rewrite lookup_delete_eq.
  - rewrite E. simpl. repeat split; done.
Qed.

(** ** Users *)

Lemma first_user_by_email_None e db :
  first_user_by_email e db = None ↔
  ∀ k u, users db !! k = Some u → email u ≠ e.
Proof.
  unfold first_user_by_email. rewrite fmap_None, head_None, map_to_list_empty_iff.
  rewrite map_empty_filter. unfold map_Forall. simpl. done.
Qed.

Lemma first_user_by_email_Some e db id :
  first_user_by_email e db = Some id →
  ∃ u, users db !! id = Some u ∧ email u = e.
Proof.
  unfold first_user_by_email.
  destruct (map_to_list _) as [|[k u] l] eqn:E; [done|]. simpl. intros [= <-].
  assert ((k, u) ∈ map_to_list (filter (λ kv, email kv.2 = e) (users db))) as Hin
    by (rewrite E; left).
  apply elem_of_map_to_list, map_lookup_filter_Some in Hin as [Hk He]. eauto.
Qed.

Section Users.
Variable pwd_hash : string → string.

Lemma create_user_with_existing now e p db id :
  first_user_by_email e db = Some id →
  create_user_with pwd_hash now e p db = (Success id, db).
Proof. intros H. unfold create_user_with. by rewrite H. Qed.

Lemma create_user_with_new now e p db :
  first_user_by_email e db = None →
  create_user_with pwd_hash now e p db =
    (Success (next_id (users db)),
     {| users := <[next_id (users db) :=
                     {| email := e; hashed_password := pwd_hash p; created_at := now |}]>
                   (users db);
        learning_items := learning_items db;
        review_schedules := review_schedules db |}).
Proof. intros H. unfold create_user_with. by rewrite H. Qed.

Lemma first_user_by_email_new now e p db :
  first_user_by_email e db = None →
  first_user_by_email e (create_user_with pwd_hash now e p db).2 = Some (next_id (users db)).
Proof.
  intros H. rewrite (create_user_with_new _ _ _ _ H). simpl.
  unfold first_user_by_email. simpl.
  rewrite map_filter_insert_True by done.
  assert (filter (λ kv : Z * User, email kv.2 = e) (users db) = ∅) as ->.
  { apply map_empty_filter. intros k u Hk. simpl.
    by apply (proj1 (first_user_by_email_None e db) H k u). }
  rewrite insert_empty, map_to_list_singleton. done.
Qed.

Lemma create_user_with_twice (now now' : datetime) (e p p' : string) (db : store) :
  ∃ id u,
    (create_user_with pwd_hash now e p db).1 = Success id
    ∧ users (create_user_with pwd_hash now e p db).2 !! id = Some u
    ∧ email u = e
    ∧ create_user_with pwd_hash now' e p' (create_user_with pwd_hash now e p db).2
      = (Success id, (create_user_with pwd_hash now e p db).2)
    ∧ (first_user_by_email e db = Some id
       → (create_user_with pwd_hash now e p db).2 = db)
    ∧ (first_user_by_email e db = None
       → users db !! id = None
         ∧ u = {| email := e; hashed_password := pwd_hash p; created_at := now |}
         ∧ (∀ k, k ≠ id → users (create_user_with pwd_hash now e p db).2 !! k
                          = users db !! k)
         ∧ learning_items (create_user_with pwd_hash now e p db).2 = learning_items db
         ∧ review_schedules (create_user_with pwd_hash now e p db).2
           = review_schedules db).
Proof.
  destruct (first_user_by_email e db) as [id|] eqn:E.
  - destruct (first_user_by_email_Some _ _ _ E) as (u & Hu & Hemail).
    exists id, u. rewrite !(create_user_with_existing _ _ _ _ _ E). done.
  - pose proof (first_user_by_email_new now _ p _ E) as Hnew.
    eexists (next_id (users db)), _.
    rewrite (create_user_with_existing now' _ p' _ _ Hnew).
    rewrite (create_user_with_new _ _ _ _ E). simpl.
    split; [done|]. split; [apply lookup_insert_eq|]. split; [done|]. split; [done|].
    split; [done|]. intros _. split; [apply next_id_fresh|]. split; [done|].
    split; [|done]. intros k Hk. by apply lookup_insert_ne.
Qed.


(** X6. [create_test_user] never fails and makes at most one user: the
    first call answers with the id of the user of the address
    [test@example.com], stored before or stored now, and every later
    call, and every [create_user] for that address, answers the same id
    and writes nothing. *)
Theorem create_test_user_twice (now now' now'' : datetime) (p' : string) (db : store) :
  ∃ id u,
    (create_test_user pwd_hash now db).1 = Success id
    ∧ users (create_test_user pwd_hash now db).2 !! id = Some u
    ∧ email u = "test@example.com"%string
    ∧ create_test_user pwd_hash now' (create_test_user pwd_hash now db).2
      = (Success id, (create_test_user pwd_hash now db).2)
    ∧ create_user pwd_hash now''
        {| UserCreate.email := "test@example.com"; UserCreate.password := p' |}
        (create_test_user pwd_hash now db).2
      = (Success id, (create_test_user pwd_hash now db).2)
    ∧ (first_user_by_email "test@example.com" db = None
       → users db !! id = None
         ∧ hashed_password u = pwd_hash "testpassword").
Proof.
  unfold create_test_user, create_user. cbn [UserCreate.email UserCreate.password].
  destruct (create_user_with_twice now now' "test@example.com" "testpassword"
              "testpassword" db) as (id & u & H1 & H2 & H3 & H4 & _ & H6).
  destruct (create_user_with_twice now now'' "test@example.com" "testpassword" p' db)
    as (id' & u' & H1' & _ & _ & H4' & _ & _).
  assert (id' = id) as -> by congruence.
  exists id, u. repeat split; try done.
  - by destruct (H6 H).
  - destruct (H6 H) as (_ & -> & _). done.
Qed.

End Users.

(** ** Lists of results *)

Section MapM.
Context {A B : Type} (f : A → result B).

Lemma mapM_Ok l k : mapM f l = Ok k ↔ Forall2 (λ x y, f x = Ok y) l k.
Proof.
  revert k. induction l as [|x l IH]; intros k; cbn [mapM].
  - split; [intros [= <-]; constructor | by intros ->%Forall2_nil_inv_l].
  - destruct (f x) as [y|e] eqn:E; cbn [mbind result_bind].
    + destruct (mapM f l) as [k'|e'] eqn:E'; cbn [mbind result_bind]; unfold mret, result_ret.
      * split.
        -- intros [= <-]. constructor; [done|]. by apply IH.
        -- intros (y' & k'' & Hy & Hk & ->)%Forall2_cons_inv_l.
           apply IH in Hk. congruence.
      * split; [done|].
        intros (y' & k'' & Hy & Hk & ->)%Forall2_cons_inv_l.
        apply IH in Hk. congruence.
    + split; [done|].
      intros (y' & k'' & Hy & Hk & ->)%Forall2_cons_inv_l. congruence.
Qed.

Lemma mapM_Raise l e : mapM f l = Raise e → ∃ x, x ∈ l ∧ f x = Raise e.
Proof.
  induction l as [|x l IH]; cbn [mapM]; [done|].
  destruct (f x) as [y|e'] eqn:E; cbn [mbind result_bind].
  - destruct (mapM f l) as [k'|e''] eqn:E'; cbn [mbind result_bind]; unfold mret, result_ret; [done|].
    intros [= ->]. destruct (IH eq_refl) as (x' & Hin & Hx').
    exists x'. split; [by right|done].
  - intros [= ->]. exists x. split; [by left|done].
Qed.

Lemma mapM_is_Ok l : Forall (λ x, ∃ y, f x = Ok y) l → ∃ k, mapM f l = Ok k.
Proof.
  induction 1 as [|x l [y Hy] _ [k IH]]; [by exists []|].
  exists (y :: k). cbn [mapM]. by rewrite Hy, IH.
Qed.

End MapM.

(** ** The next key *)

Lemma next_id_insert {A} (t : gmap Z A) (x : A) :
  next_id (<[next_id t := x]> t) = next_id t + 1.
Proof.
  unfold next_id at 1 3. rewrite map_fold_insert_L.
  - fold (next_id t). unfold next_id. lia.
  - intros. lia.
  - apply next_id_fresh.
Qed.

(** ** The schedules that [create_learning_item] adds *)

Lemma foldl_add_rows item_id (l : list (Z * datetime)) (t : gmap Z ReviewSchedule) :
  let F := λ (t : gmap Z ReviewSchedule) '(i, d), (add_row (new_schedule item_id i d) t).2 in
  ∀ k s, foldl F t l !! k = Some s ↔
         t !! k = Some s
         ∨ ∃ j p, l !! j = Some p ∧ k = next_id t + Z.of_nat j
                  ∧ s = new_schedule item_id p.1 p.2.
Proof.
  intros F. revert t. induction l as [|[i d] l IH]; intros t k s; cbn [foldl].
  - split; [by left|]. intros [H|(j & p & H & _)]; [done|]. by rewrite lookup_nil in H.
  - rewrite IH. cbn [F add_row snd]. rewrite next_id_insert, lookup_insert_Some. split.
    + intros [[[<- <-]|[Hne Hk]]|(j & p & Hj & -> & ->)].
      * right. exists 0%nat, (i, d). split; [done|]. split; [lia|done].
      * by left.
      * right. exists (S j), p. split; [done|]. split; [lia|done].
    + intros [Hk|(j & p & Hj & -> & ->)].
      * left. right. split; [|done]. intros <-. by rewrite next_id_fresh in Hk.
      * destruct j as [|j]; cbn in Hj.
        -- injection Hj as <-. left. left. split; [lia|done].
        -- right. exists j, p. split; [done|]. split; [lia|done].
Qed.

Lemma add_schedules_lookup item_id date dates (t : gmap Z ReviewSchedule) k s :
  add_schedules item_id date dates t !! k = Some s ↔
  t !! k = Some s
  ∨ ∃ j d, dates !! j = Some d ∧ k = next_id t + Z.of_nat j
           ∧ s = new_schedule item_id (Z.of_nat j + 1) d.
Proof.
  unfold add_schedules.
  rewrite (foldl_add_rows item_id). split.
  - intros [H|(j & p & Hj & -> & ->)]; [by left|]. right.
    rewrite list_lookup_imap in Hj.
    destruct (dates !! j) as [d|] eqn:E; [|done]. injection Hj as <-. by exists j, d.
  - intros [H|(j & d & Hj & -> & ->)]; [by left|]. right.
    exists j, (Z.of_nat j + 1, d). rewrite list_lookup_imap, Hj. done.
Qed.

Lemma datetime_add_Ok T td d :
  datetime_add T td = Ok d → d = {| dt_us := dt_us T + td; dt_tz := dt_tz T |}.
Proof. unfold datetime_add. destruct (datetime_valid _); [by intros [= <-]|done]. Qed.

Lemma timedelta_hours_int_Ok h td : timedelta_hours_int h = Ok td → td = h * US_PER_HOUR.
Proof.
  unfold timedelta_hours_int, microseconds_to_delta.
  destruct (_ && _); [by intros [= <-]|done].
Qed.

Lemma review_date_Ok T h d :
  (td ← timedelta_hours_int h; datetime_add T td) = Ok d → d = plus_hours T h.
Proof.
  destruct (timedelta_hours_int h) as [td|] eqn:E; [|done]. rewrite bind_Ok.
  intros ->%datetime_add_Ok. by apply timedelta_hours_int_Ok in E as ->.
Qed.

Lemma optimize_review_intervals_length r bs out :
  Analytics.optimize_review_intervals r bs = Ok out → length out = length bs.
Proof.
  unfold Analytics.optimize_review_intervals. cbv zeta.
  intros H%mapM_Ok. symmetry. by eapply Forall2_length.
Qed.

Lemma created_schedules_lookup T intervals dates id (rs : gmap Z ReviewSchedule) k s :
  mapM (λ interval, td ← timedelta_hours_int interval; datetime_add T td) intervals
    = Ok dates →
  add_schedules id T dates rs !! k = Some s ↔
  rs !! k = Some s
  ∨ ∃ (j : nat) (h : Z),
      intervals !! j = Some h
      ∧ k = next_id rs + Z.of_nat j
      ∧ rs !! k = None
      ∧ s = new_schedule id (Z.of_nat j + 1) (plus_hours T h).
Proof.
  intros Hdates%mapM_Ok. rewrite add_schedules_lookup. split.
  - intros [Hk|(j & d & Hj & -> & ->)]; [by left|]. right.
    destruct (Forall2_lookup_r _ _ _ _ _ Hdates Hj) as (h & Hh & Hd).
    apply review_date_Ok in Hd as ->. exists j, h. repeat split; try done.
    destruct (rs !! _) eqn:E; [|done].
    assert (next_id rs + Z.of_nat j < next_id rs) by (apply next_id_above; eauto).
    lia.
  - intros [Hk|(j & h & Hj & -> & _ & ->)]; [by left|]. right.
    destruct (Forall2_lookup_l _ _ _ _ _ Hdates Hj) as (d & Hd & Hh).
    apply review_date_Ok in Hh as ->. by exists j, (plus_hours T h).
Qed.

Section Created.
Variable iso_parse : string → option datetime.

(** X7. What a successful [create_learning_item] commits: the users are
    as they were; there is one more learning item, under a new id, with the
    title, the content and the user of the request and the parsed date; and
    there are six more schedules, under the next schedule ids in order,
    numbered 1 to 6, whose dates are the learning date plus the optimized
    intervals in hours, not completed and not deleted. Every row that was
    stored is still stored unchanged. *)
Theorem create_learning_item_commits
    (item : LearningItemCreate.t) (db db' : store) (summary : item_summary) :
  create_learning_item iso_parse item db = (Success summary, db') →
  ∃ T a intervals,
    fromisoformat iso_parse (LearningItemCreate.learning_date item) = Ok T
    ∧ Analytics.analyze_learning_pattern db (LearningItemCreate.user_id item) = Ok a
    ∧ Analytics.optimize_review_intervals (Analytics.completion_rate a) BASE_INTERVALS
      = Ok intervals
    ∧ length intervals = 6%nat
    ∧ item_id summary = next_id (learning_items db)
    ∧ item_learning_date summary = T
    ∧ learning_items db !! item_id summary = None
    ∧ users db' = users db
    ∧ learning_items db' =
        <[item_id summary :=
            {| title := LearningItemCreate.title item;
               content := LearningItemCreate.content item;
               learning_date := T;
               user_id := LearningItemCreate.user_id item |}]> (learning_items db)
    ∧ ∀ k s, review_schedules db' !! k = Some s ↔
             review_schedules db !! k = Some s
             ∨ ∃ (j : nat) (h : Z),
                 intervals !! j = Some h
                 ∧ k = next_id (review_schedules db) + Z.of_nat j
                 ∧ review_schedules db !! k = None
                 ∧ s = new_schedule (item_id summary) (Z.of_nat j + 1) (plus_hours T h).
Proof.
  intros H.
  apply create_learning_item_Success in H
    as (T & a & intervals & dates & HT & Ha & Hopt & Hdates & Hid & Hdate & Hu & Hitems & Hrs).
  exists T, a, intervals. rewrite Hid.
  pose proof (optimize_review_intervals_length _ _ _ Hopt) as Hlen.
  repeat (split; [done || apply next_id_fresh|]).
  intros k s. rewrite Hrs. by apply created_schedules_lookup.
Qed.

End Created.

Lemma create_learning_item_commits_witness :
  ∃ summary db',
    create_learning_item IsoFormat.parse (Sample.new_item "2024-03-01T08:00:00") Sample.db
      = (Success summary, db')
    ∧ item_id summary = 3
    ∧ users db' = users Sample.db
    ∧ review_schedules db' !! 7 =
        Some (new_schedule 3 3 (Sample.at_iso "2024-03-03T17:00:00")).
Proof.
  destruct (create_learning_item IsoFormat.parse (Sample.new_item "2024-03-01T08:00:00")
              Sample.db) as [[summary|e] db'] eqn:E; [|vm_compute in E; discriminate E].
  exists summary, db'. split; [reflexivity|].
  destruct (create_learning_item_commits IsoFormat.parse _ _ _ _ E)
    as (T & a & intervals & HT & Ha & Hopt & _ & Hid & _ & _ & Hu & _ & Hrs).
  vm_compute in HT. injection HT as <-.
  assert (intervals = [0; 19; 57; 134; 268; 576]) as ->.
  { vm_compute in Ha. injection Ha as <-. vm_compute in Hopt. congruence. }
  split; [rewrite Hid; by vm_compute|]. split; [exact Hu|].
  apply Hrs. right. exists 2%nat, 57. rewrite Hid.
  split; [reflexivity|]. split; [by vm_compute|]. split; by vm_compute.
Defined.

(** ** The outcome of [create_learning_item] *)

Lemma analyze_learning_pattern_Ok db uid :
  ∃ a, Analytics.analyze_learning_pattern db uid = Ok a.
Proof.
  unfold Analytics.analyze_learning_pattern. cbv zeta.
  rewrite round1_percentage; [by eexists|].
  split; [lia|]. apply inj_le.
  assert (filter (λ kv, Analytics.joined_for_user db uid kv.2 = true
                        ∧ completed kv.2 ≠ None ∧ is_deleted kv.2 = false)
                 (review_schedules db)
          = filter (λ kv, completed kv.2 ≠ None) (Analytics.user_schedules db uid)) as ->.
  { unfold Analytics.user_schedules. rewrite map_filter_filter.
    apply map_filter_ext. intros k s _. simpl. tauto. }
  apply map_size_filter.
Qed.

Lemma optimize_base (r : pynum) :
  Analytics.optimize_review_intervals r BASE_INTERVALS = Ok (optimized_base r).
Proof.
  unfold Analytics.optimize_review_intervals, optimized_base.
  destruct (PyNum.lt_int r 50); [by vm_compute|].
  destruct (PyNum.gt_int r 80); by vm_compute.
Qed.

Lemma fromisoformat_Raise iso_parse s e :
  fromisoformat iso_parse s = Raise e → e = ValueError.
Proof.
  unfold fromisoformat. destruct (iso_parse s) as [d|]; [|by intros [= <-]].
  destruct (datetime_valid d); [done|by intros [= <-]].
Qed.

Lemma review_date_Raise T h e :
  (td ← timedelta_hours_int h; datetime_add T td) = Raise e → e = OverflowError.
Proof.
  unfold timedelta_hours_int, microseconds_to_delta, datetime_add.
  destruct (_ && _); cbn [mbind result_bind]; [|by intros [= <-]].
  destruct (datetime_valid _); [done|by intros [= <-]].
Qed.

Lemma mapM_Raise_only {A B} (f : A → result B) (l : list A) (e0 : exn) :
  (∀ x e, x ∈ l → f x = Raise e → e = e0) →
  (∃ x e, x ∈ l ∧ f x = Raise e) →
  mapM f l = Raise e0.
Proof.
  intros Hall (x & e & Hx & He).
  destruct (mapM f l) as [k|e'] eqn:E.
  - apply mapM_Ok in E. apply list_elem_of_lookup in Hx as [i Hi].
    destruct (Forall2_lookup_l _ _ _ _ _ E Hi) as (y & _ & Hy). congruence.
  - apply mapM_Raise in E as (x' & Hx' & He'). f_equal. by eapply Hall.
Qed.

Lemma review_date_late T h :
  0 ≤ h → MAX_US < dt_us T + h * US_PER_HOUR →
  ∃ e, (td ← timedelta_hours_int h; datetime_add T td) = Raise e.
Proof.
  intros Hh Hlate.
  destruct (td ← timedelta_hours_int h; datetime_add T td) as [d|e] eqn:E; [|by exists e].
  pose proof (review_date_Ok _ _ _ E) as ->.
  unfold timedelta_hours_int, microseconds_to_delta in E.
  destruct (_ && _); [|done]. rewrite bind_Ok in E.
  unfold datetime_add, datetime_valid in E. cbn [dt_us] in E.
  destruct (0 <=? _) eqn:E0; [|done]. simpl in E.
  destruct (_ <=? MAX_US) eqn:E1; [|done]. apply Z.leb_le in E1. lia.
Qed.

Section Outcome.
Variable iso_parse : string → option datetime.

Lemma last_interval_max r h : h ∈ optimized_base r → 0 ≤ h ≤ last_interval r.
Proof.
  unfold optimized_base, last_interval.
  destruct (PyNum.lt_int r 50); [|destruct (PyNum.gt_int r 80)]; intros Hh;
    repeat (apply elem_of_cons in Hh as [-> | Hh]; [lia|]); by apply elem_of_nil in Hh.
Qed.

Lemma last_interval_elem r : last_interval r ∈ optimized_base r ∧ 0 ≤ last_interval r ≤ 864.
Proof.
  unfold optimized_base, last_interval.
  destruct (PyNum.lt_int r 50); [|destruct (PyNum.gt_int r 80)];
    (split; [rewrite !elem_of_cons; auto 10|lia]).
Qed.

(** X8. [create_learning_item] has three outcomes, for every request and
    store. It answers 400, and writes nothing, when the date does not
    parse. When the date parses, the analytics and the optimizer do not
    fail, and it succeeds unless the last review, 576, 720 or 864 hours
    after the learning date for a completion rate below 50, up to 80, or
    above, falls after the year 9999: then it answers 500. It never
    answers not-found, also for a user that is not stored. *)
Theorem create_learning_item_outcome (item : LearningItemCreate.t) (db : store) :
  match fromisoformat iso_parse (LearningItemCreate.learning_date item) with
  | Raise _ => create_learning_item iso_parse item db = (Failure Http400, db)
  | Ok T =>
    ∃ a, Analytics.analyze_learning_pattern db (LearningItemCreate.user_id item) = Ok a
         ∧ if decide (dt_us T + last_interval (Analytics.completion_rate a) * US_PER_HOUR
                      ≤ MAX_US)
           then ∃ summary db',
                  create_learning_item iso_parse item db = (Success summary, db')
           else (create_learning_item iso_parse item db).1 = Failure Http500
  end.
Proof.
  destruct (fromisoformat iso_parse (LearningItemCreate.learning_date item))
    as [T|e] eqn:HT.
  - destruct (analyze_learning_pattern_Ok db (LearningItemCreate.user_id item)) as [a Ha].
    exists a. split; [done|].
    pose proof (fromisoformat_valid _ _ _ HT) as Hv.
    unfold datetime_valid in Hv. apply andb_true_iff in Hv as [Hv _]. apply Z.leb_le in Hv.
    unfold create_learning_item, create_learning_item_reads.
    rewrite HT, bind_Ok, Ha, bind_Ok, optimize_base, bind_Ok.
    unfold create_learning_item_writes, add_row. cbv zeta.
    set (r := Analytics.completion_rate a).
    case_decide as Hlast.
    + destruct (mapM_is_Ok
                  (λ interval, td ← timedelta_hours_int interval; datetime_add T td)
                  (optimized_base r)) as [dates ->].
      * apply Forall_forall. intros h Hh%last_interval_max.
        destruct (last_interval_elem r) as [_ ?].
        exists (plus_hours T h). apply datetime_add_hours; unfold US_PER_HOUR in *; lia.
      * rewrite bind_Ok. by do 2 eexists.
    + rewrite (mapM_Raise_only _ _ OverflowError); [done| |].
      * intros h e _ He. by eapply review_date_Raise.
      * destruct (last_interval_elem r) as [Hin ?].
        destruct (review_date_late T (last_interval r)) as [e He]; [lia|lia|].
        by exists (last_interval r), e.
  - pose proof (fromisoformat_Raise _ _ _ HT) as ->.
    unfold create_learning_item, create_learning_item_reads. by rewrite HT.
Qed.

End Outcome.

(** ** Listing what was created *)

Lemma get_learning_items_elem u db k item :
  (k, item) ∈ get_learning_items u db ↔
  learning_items db !! k = Some item ∧ Models.user_id item = u.
Proof.
  unfold get_learning_items. by rewrite elem_of_map_to_list, map_lookup_filter_Some.
Qed.

Lemma NoDup_imap_keys {A B} (k0 : Z) (g : nat → A → B) (l : list A) :
  NoDup (imap (λ j x, (k0 + Z.of_nat j, g j x)) l).
Proof.
  apply NoDup_alt. intros i j [k y] Hi Hj.
  rewrite list_lookup_imap in Hi, Hj.
  destruct (l !! i); [|done]. destruct (l !! j); [|done].
  simpl in Hi, Hj. injection Hi as Hi _. injection Hj as Hj _. lia.
Qed.

Section Listed.
Variable iso_parse : string → option datetime.

(** X9. After a successful [create_learning_item] on a store in which
    every schedule has its parent item, the new item has six schedules in
    [get_review_schedules], numbered 1 to 6, none completed and all under
    new ids, and it is one more entry in [get_learning_items] of its user;
    the listings of the other items and of the other users are as
    before. *)
Theorem created_item_is_listed
    (item : LearningItemCreate.t) (db db' : store) (summary : item_summary) :
  parents_stored db →
  create_learning_item iso_parse item db = (Success summary, db') →
  (λ p, review_number p.2) <$> get_review_schedules (item_id summary) db'
    ≡ₚ [1; 2; 3; 4; 5; 6]
  ∧ (∀ k s, (k, s) ∈ get_review_schedules (item_id summary) db' →
            completed s = None ∧ review_schedules db !! k = None)
  ∧ (∃ row, get_learning_items (LearningItemCreate.user_id item) db'
            ≡ₚ (item_id summary, row)
               :: get_learning_items (LearningItemCreate.user_id item) db
            ∧ title row = LearningItemCreate.title item
            ∧ content row = LearningItemCreate.content item
            ∧ learning_date row = item_learning_date summary)
  ∧ (∀ i, i ≠ item_id summary → get_review_schedules i db' = get_review_schedules i db)
  ∧ (∀ u, u ≠ LearningItemCreate.user_id item →
          get_learning_items u db' = get_learning_items u db).
Proof.
  intros Hparents H.
  apply create_learning_item_Success in H
    as (T & a & intervals & dates & HT & Ha & Hopt & Hdates & Hid & Hdate & Hu & Hitems & Hrs).
  pose proof (optimize_review_intervals_length _ _ _ Hopt) as Hlen.
  pose proof (created_schedules_lookup T intervals dates (item_id summary)
                (review_schedules db)) as Hlook.
  rewrite Hid in *. set (id := next_id (learning_items db)) in *.
  assert (learning_items db !! id = None) as Hfresh by apply next_id_fresh.
  assert (get_review_schedules id db'
          ≡ₚ imap (λ j h, (next_id (review_schedules db) + Z.of_nat j,
                           new_schedule id (Z.of_nat j + 1) (plus_hours T h))) intervals)
    as Hperm.
  { apply NoDup_Permutation.
    - apply NoDup_map_to_list.
    - apply (NoDup_imap_keys _ (λ j h, new_schedule id (Z.of_nat j + 1) (plus_hours T h))).
    - intros [k s]. rewrite get_review_schedules_elem, Hrs, (Hlook _ _ Hdates).
      rewrite elem_of_lookup_imap. split.
      + intros ([Hold|(j & h & Hj & -> & _ & ->)] & Hp & Hd).
        * destruct (Hparents _ _ Hold) as [it Hit]. congruence.
        * by exists j, h.
      + intros (j & h & [= -> ->] & Hj). split; [|done]. right. exists j, h.
        repeat split; try done.
        destruct (review_schedules db !! _) eqn:E; [|done].
        assert (next_id (review_schedules db) + Z.of_nat j < next_id (review_schedules db))
          by (apply next_id_above; eauto).
        lia. }
  split; [|split; [|split; [|split]]].
  - rewrite Hperm.
    destruct intervals as [|h1 [|h2 [|h3 [|h4 [|h5 [|h6 [|]]]]]]]; try discriminate Hlen.
    done.
  - intros k s Hks. rewrite Hperm in Hks.
    apply elem_of_lookup_imap in Hks as (j & h & [= -> ->] & Hj). split; [done|].
    destruct (review_schedules db !! _) eqn:E; [|done].
    assert (next_id (review_schedules db) + Z.of_nat j < next_id (review_schedules db))
      by (apply next_id_above; eauto).
    lia.
  - exists {| title := LearningItemCreate.title item;
              content := LearningItemCreate.content item;
              learning_date := T;
              user_id := LearningItemCreate.user_id item |}.
    split; [|by rewrite Hdate].
    unfold get_learning_items. rewrite Hitems.
    rewrite map_filter_insert_True by done.
    apply map_to_list_insert. apply map_lookup_filter_None. by left.
  - intros i Hi. unfold get_review_schedules. f_equal.
    apply map_eq. intros k. apply option_eq. intros s.
    rewrite !map_lookup_filter_Some, Hrs, (Hlook _ _ Hdates). simpl. split.
    + intros [[Hold|(j & h & Hj & -> & _ & ->)] [Hp Hd]]; [done|]. done.
    + intros [Hold ?]. split; [by left|done].
  - intros u Hu'. unfold get_learning_items. rewrite Hitems. f_equal.
    apply map_filter_insert_not'; simpl; [done|]. intros y Hy. congruence.
Qed.

End Listed.

Lemma created_item_is_listed_witness :
  ∃ summary db',
    create_learning_item IsoFormat.parse (Sample.new_item "2024-03-01T08:00:00") Sample.db
      = (Success summary, db')
    ∧ (λ p, review_number p.2) <$> get_review_schedules (item_id summary) db'
      ≡ₚ [1; 2; 3; 4; 5; 6]
    ∧ get_review_schedules 1 db' = get_review_schedules 1 Sample.db.
Proof.
  destruct (create_learning_item IsoFormat.parse (Sample.new_item "2024-03-01T08:00:00")
              Sample.db) as [[summary|e] db'] eqn:E; [|vm_compute in E; discriminate E].
  exists summary, db'. split; [reflexivity|].
  destruct (created_item_is_listed IsoFormat.parse _ _ _ _ sample_parents_stored E)
    as (Hnum & _ & _ & Hother & _).
  split; [exact Hnum|]. apply Hother.
  vm_compute in E. injection E as <- _. by vm_compute.
Defined.

(** ** Invariants of the store *)

Section Invariants.
Variable iso_parse : string → option datetime.
Variable pwd_hash : string → string.

Lemma create_learning_item_writes_Raise item db T intervals e :
  create_learning_item_writes item db T intervals = Raise e → e = OverflowError.
Proof.
  unfold create_learning_item_writes, add_row. cbv zeta.
  destruct (mapM _ intervals) as [dates|e'] eqn:E; [done|].
  cbn [mbind result_bind]. intros [= <-].
  apply mapM_Raise in E as (h & _ & Hh). by eapply review_date_Raise.
Qed.

(** A [create_learning_item] that is not answered with 500 has committed
    its rows or has failed before its first write. *)
Lemma create_learning_item_not_500 item db :
  (create_learning_item iso_parse item db).1 ≠ Failure Http500 →
  (∃ summary, create_learning_item iso_parse item db
              = (Success summary, (create_learning_item iso_parse item db).2))
  ∨ create_learning_item iso_parse item db = (Failure Http400, db).
Proof.
  unfold create_learning_item.
  destruct (create_learning_item_reads iso_parse item db) as [[T intervals]|e] eqn:E1.
  - destruct (create_learning_item_writes item db T intervals) as [[summary db']|e] eqn:E2.
    + intros _. left. by exists summary.
    + apply create_learning_item_writes_Raise in E2 as ->. by intros [].
  - destruct e; simpl; intros H; try by destruct H. by right.
Qed.

Lemma serve_create_learning_item now item db :
  serve iso_parse pwd_hash now (CreateLearningItem item) db
  = (status (create_learning_item iso_parse item db).1,
     (create_learning_item iso_parse item db).2).
Proof. simpl. by destruct (create_learning_item iso_parse item db). Qed.

(** X10. Every request that is not answered with 500 keeps the foreign
    key of the schedules: if every stored schedule has its parent learning
    item before the request, it has it afterwards. *)
Theorem serve_keeps_parents (now : datetime) (req : request) (db : store) :
  (serve iso_parse pwd_hash now req db).1 ≠ Some Http500 →
  parents_stored db →
  parents_stored (serve iso_parse pwd_hash now req db).2.
Proof.
  intros H500 Hinv.
  destruct req as [d n|item|u|id|id|i|u|user| | |id]; try exact Hinv.
  - rewrite serve_create_learning_item in *. cbn [fst snd] in *.
    destruct (create_learning_item_not_500 item db) as [[summary Hs]|Hf].
    + intros E. apply H500. by rewrite E.
    + apply create_learning_item_Success in Hs
        as (T & a & intervals & dates & _ & _ & _ & Hdates & Hid & _ & _ & Hitems & Hrs).
      intros k s. rewrite Hrs, (created_schedules_lookup _ _ _ _ _ _ _ Hdates), Hitems.
      intros [Hold|(j & h & _ & _ & _ & ->)].
      * apply lookup_insert_is_Some'. right. by eapply Hinv.
      * cbn [learning_item_id new_schedule]. rewrite lookup_insert_eq. eauto.
    + by rewrite Hf.
  - simpl. unfold complete_review, first_schedule.
    destruct (review_schedules db !! id) as [s0|] eqn:E; [|exact Hinv]. simpl.
    intros k s; simpl; intros [[<- <-]|[_ Hk]]%lookup_insert_Some; simpl; by eapply Hinv.
  - simpl. unfold delete_review, first_schedule.
    destruct (review_schedules db !! id) as [s0|] eqn:E; [|exact Hinv]. simpl.
    intros k s; simpl; intros [[<- <-]|[_ Hk]]%lookup_insert_Some; simpl; by eapply Hinv.
  - simpl. unfold create_user, create_user_with.
    by destruct (first_user_by_email _ db).
  - simpl. unfold create_test_user, create_user_with.
    by destruct (first_user_by_email _ db).
  - simpl. unfold delete_learning_item.
    destruct (learning_items db !! id) as [item|] eqn:E; [|exact Hinv]. simpl.
    intros k s; simpl; intros [Hk Hne]%map_lookup_filter_Some. simpl in *.
    rewrite lookup_delete_ne by done. by eapply Hinv.
Qed.

(** X11. Every request that is not answered with 500 keeps the addresses
    of the users unique: if no two stored users share an address before the
    request, none do afterwards. *)
Theorem serve_keeps_emails_unique (now : datetime) (req : request) (db : store) :
  (serve iso_parse pwd_hash now req db).1 ≠ Some Http500 →
  emails_unique db →
  emails_unique (serve iso_parse pwd_hash now req db).2.
Proof.
  intros H500 Hinv.
  assert (∀ e p, emails_unique (create_user_with pwd_hash now e p db).2) as Hcreate.
  { intros e p. unfold create_user_with.
    destruct (first_user_by_email e db) as [id|] eqn:E; [exact Hinv|]. simpl.
    pose proof (proj1 (first_user_by_email_None e db) E) as Hnone.
    intros i j u v; simpl;
      intros [[<- <-]|[Hi Hu]]%lookup_insert_Some
             [[<- <-]|[Hj Hv]]%lookup_insert_Some; simpl; intros He.
    - done.
    - by destruct (Hnone _ _ Hv).
    - by destruct (Hnone _ _ Hu).
    - by eapply Hinv. }
  destruct req as [d n|item|u|id|id|i|u|user| | |id]; try exact Hinv.
  - rewrite serve_create_learning_item in *. cbn [fst snd] in *.
    destruct (create_learning_item_not_500 item db) as [[summary Hs]|Hf].
    + intros E. apply H500. by rewrite E.
    + apply create_learning_item_Success in Hs
        as (T & a & intervals & dates & _ & _ & _ & _ & _ & _ & Hu & _ & _).
      unfold emails_unique. rewrite Hu. exact Hinv.
    + by rewrite Hf.
  - simpl. unfold complete_review, first_schedule.
    by destruct (review_schedules db !! id).
  - simpl. unfold delete_review, first_schedule.
    by destruct (review_schedules db !! id).
  - simpl. unfold create_user.
    destruct (create_user_with _ _ _ _ _) as [r db'] eqn:E. simpl.
    specialize (Hcreate (UserCreate.email user) (UserCreate.password user)).
    by rewrite E in Hcreate.
  - simpl. unfold create_test_user.
    destruct (create_user_with _ _ _ _ _) as [r db'] eqn:E. simpl.
    specialize (Hcreate "test@example.com"%string "testpassword"%string).
    by rewrite E in Hcreate.
  - simpl. unfold delete_learning_item.
    by destruct (learning_items db !! id).
Qed.

End Invariants.

Lemma serve_keeps_parents_witness :
  parents_stored
    (serve IsoFormat.parse Sample.hash Sample.friday (DeleteLearningItem 1) Sample.db).2.
Proof.
  apply serve_keeps_parents.
  - vm_compute. discriminate.
  - exact sample_parents_stored.
Defined.

Lemma serve_keeps_emails_unique_witness :
  emails_unique
    (serve IsoFormat.parse Sample.hash Sample.friday
       (CreateUser {| UserCreate.email := "b@example.com"; UserCreate.password := "pw" |})
       Sample.db).2.
Proof.
  apply serve_keeps_emails_unique.
  - vm_compute. discriminate.
  - exact sample_emails_unique.
Defined.

(** ** Analytics after a request *)

Lemma completed_schedules_le db u :
  0 ≤ completed_schedules_of db u ≤ all_schedules_of db u.
Proof.
  unfold completed_schedules_of, all_schedules_of. split; [lia|].
  apply inj_le, map_size_filter.
Qed.

Lemma analyze_learning_pattern_eq db u :
  Analytics.analyze_learning_pattern db u =
    Ok {| Analytics.total_items := total_items_of db u;
          Analytics.completion_rate :=
            Analytics.rounded_percentage (completed_schedules_of db u)
                                         (all_schedules_of db u) |}.
Proof.
  unfold Analytics.analyze_learning_pattern. cbv zeta.
  fold (Analytics.user_schedules db u).
  assert (filter (λ kv, Analytics.joined_for_user db u kv.2 = true
                        ∧ completed kv.2 ≠ None ∧ is_deleted kv.2 = false)
                 (review_schedules db)
          = filter (λ kv, completed kv.2 ≠ None) (Analytics.user_schedules db u)) as ->.
  { unfold Analytics.user_schedules. rewrite map_filter_filter.
    apply map_filter_ext. intros k s _. simpl. tauto. }
  fold (completed_schedules_of db u). fold (all_schedules_of db u).
  rewrite round1_percentage by apply completed_schedules_le. done.
Qed.

Lemma user_schedules_insert db u sid (s' : ReviewSchedule) :
  Analytics.user_schedules
    (with_review_schedules db (<[sid := s']> (review_schedules db))) u
  = if counted_for db u s'
    then <[sid := s']> (Analytics.user_schedules db u)
    else delete sid (Analytics.user_schedules db u).
Proof.
  unfold Analytics.user_schedules, with_review_schedules.
  cbn [review_schedules].
  change (filter (λ kv, Analytics.joined_for_user _ u kv.2 = true ∧ is_deleted kv.2 = false)
                 (<[sid:=s']> (review_schedules db)))
    with (filter (λ kv, Analytics.joined_for_user db u kv.2 = true ∧ is_deleted kv.2 = false)
                 (<[sid:=s']> (review_schedules db))).
  rewrite map_filter_insert. unfold counted_for. simpl.
  destruct (Analytics.joined_for_user db u s') eqn:E1;
    destruct (is_deleted s') eqn:E2; simpl; try done; by rewrite map_filter_delete.
Qed.

Lemma user_schedules_lookup_counted db u sid s :
  review_schedules db !! sid = Some s →
  Analytics.user_schedules db u !! sid = if counted_for db u s then Some s else None.
Proof.
  intros Hs. unfold Analytics.user_schedules, counted_for.
  destruct (Analytics.joined_for_user db u s) eqn:E1;
    destruct (is_deleted s) eqn:E2; simpl.
  - apply map_lookup_filter_None. right. intros s0 Hs0. simpl. intros [_ ?]. congruence.
  - apply map_lookup_filter_Some. done.
  - apply map_lookup_filter_None. right. intros s0 Hs0. simpl. intros [? _]. congruence.
  - apply map_lookup_filter_None. right. intros s0 Hs0. simpl. intros [? _]. congruence.
Qed.

Lemma total_items_with_review_schedules db rs u :
  total_items_of (with_review_schedules db rs) u = total_items_of db u.
Proof. done. Qed.

(** X12. How a completion and a cancellation change what
    [analyze_learning_pattern] reports for a user. Neither changes the
    number of items. Completing a stored review adds one to the completed
    schedules when the review is counted for the user (its item is the
    user's and it is not deleted) and was not completed, and changes
    nothing otherwise. Cancelling a stored review that is counted for the
    user takes one from the schedules, and one from the completed schedules
    when it was completed. *)
Theorem analytics_after_review_update
    (now : datetime) (sid : Z) (db : store) (s : ReviewSchedule) (u : Z) :
  review_schedules db !! sid = Some s →
  let c := completed_schedules_of db u in
  let n := all_schedules_of db u in
  let t := total_items_of db u in
  Analytics.analyze_learning_pattern db u =
    Ok {| Analytics.total_items := t;
          Analytics.completion_rate := Analytics.rounded_percentage c n |}
  ∧ Analytics.analyze_learning_pattern (complete_review now sid db).2 u =
      Ok {| Analytics.total_items := t;
            Analytics.completion_rate :=
              Analytics.rounded_percentage
                (if counted_for db u s && bool_decide (completed s = None)
                 then c + 1 else c) n |}
  ∧ Analytics.analyze_learning_pattern (delete_review sid db).2 u =
      Ok {| Analytics.total_items := t;
            Analytics.completion_rate :=
              Analytics.rounded_percentage
                (if counted_for db u s && bool_decide (completed s ≠ None)
                 then c - 1 else c)
                (if counted_for db u s then n - 1 else n) |}.
Proof.
  intros Hs c n t. split; [apply analyze_learning_pattern_eq|].
  pose proof (user_schedules_lookup_counted db u sid s Hs) as Hlook.
  split.
  - rewrite (complete_review_found _ _ _ _ Hs). cbn [snd].
    rewrite analyze_learning_pattern_eq, total_items_with_review_schedules.
    unfold completed_schedules_of, all_schedules_of.
    rewrite user_schedules_insert.
    change (counted_for db u (set_completed now s)) with (counted_for db u s).
    destruct (counted_for db u s) eqn:Ec; cbn [andb].
    + rewrite map_size_insert_Some by (rewrite Hlook; eauto).
      rewrite map_filter_insert_True by (cbn; congruence).
      rewrite map_size_insert.
      destruct (completed s) as [t0|] eqn:Ecs.
      * rewrite bool_decide_eq_false_2 by done.
        assert (filter (λ kv : Z * ReviewSchedule, completed kv.2 ≠ None)
                  (Analytics.user_schedules db u) !! sid = Some s) as ->; [|done].
        apply map_lookup_filter_Some. split; [done|]. simpl. by rewrite Ecs.
      * rewrite bool_decide_eq_true_2 by done.
        assert (filter (λ kv : Z * ReviewSchedule, completed kv.2 ≠ None)
                  (Analytics.user_schedules db u) !! sid = None) as ->.
        { apply map_lookup_filter_None. right. intros s0 Hs0. simpl.
          assert (s0 = s) as -> by congruence. rewrite Ecs. intros H. by apply H. }
        do 3 f_equal. unfold c, completed_schedules_of. lia.
    + rewrite delete_id by done. done.
  - rewrite (delete_review_found _ _ _ Hs). cbn [snd].
    rewrite analyze_learning_pattern_eq, total_items_with_review_schedules.
    unfold completed_schedules_of, all_schedules_of.
    rewrite user_schedules_insert.
    assert (counted_for db u (set_is_deleted true s) = false) as ->.
    { unfold counted_for. simpl. apply andb_false_r. }
    rewrite map_filter_delete, !map_size_delete, Hlook.
    destruct (counted_for db u s) eqn:Ec; cbn [andb].
    + pose proof (map_size_ne_0_lookup_2 _ _ (mk_is_Some _ _ Hlook)) as Hpos.
      destruct (completed s) as [t0|] eqn:Ecs.
      * rewrite bool_decide_eq_true_2 by done.
        assert (filter (λ kv : Z * ReviewSchedule, completed kv.2 ≠ None)
                  (Analytics.user_schedules db u) !! sid = Some s) as Hf.
        { apply map_lookup_filter_Some. split; [done|]. simpl. by rewrite Ecs. }
        rewrite Hf.
        pose proof (map_size_ne_0_lookup_2 _ _ (mk_is_Some _ _ Hf)) as Hposc.
        do 3 f_equal; unfold c, n, completed_schedules_of, all_schedules_of; lia.
      * rewrite bool_decide_eq_false_2 by (intros H; by apply H).
        assert (filter (λ kv : Z * ReviewSchedule, completed kv.2 ≠ None)
                  (Analytics.user_schedules db u) !! sid = None) as ->.
        { apply map_lookup_filter_None. right. intros s0 Hs0. simpl.
          assert (s0 = s) as -> by congruence. rewrite Ecs. intros H. by apply H. }
        do 3 f_equal; unfold c, n, completed_schedules_of, all_schedules_of; simpl; lia.
    + assert (filter (λ kv : Z * ReviewSchedule, completed kv.2 ≠ None)
                (Analytics.user_schedules db u) !! sid = None) as ->; [|done].
      apply map_lookup_filter_None. by left.
Qed.

Lemma analytics_after_review_update_witness :
  Analytics.analyze_learning_pattern Sample.db 1 =
    Ok {| Analytics.total_items := 2;
          Analytics.completion_rate := PyFloat (PyFloat.round_quot 333 10) |}
  ∧ Analytics.analyze_learning_pattern (complete_review Sample.friday 3 Sample.db).2 1 =
      Ok {| Analytics.total_items := 2;
            Analytics.completion_rate := PyFloat (PyFloat.round_quot 667 10) |}
  ∧ Analytics.analyze_learning_pattern (delete_review 3 Sample.db).2 1 =
      Ok {| Analytics.total_items := 2;
            Analytics.completion_rate := PyFloat (PyFloat.round_quot 500 10) |}.
Proof.
  destruct (analytics_after_review_update Sample.friday 3 Sample.db
              (Sample.schedule 1 3 (plus_hours Sample.monday 72) None false) 1)
    as (H0 & H1 & H2).
  - vm_compute. reflexivity.
  - split; [|split].
    + etransitivity; [exact H0|]. vm_compute. reflexivity.
    + etransitivity; [exact H1|]. vm_compute. reflexivity.
    + etransitivity; [exact H2|]. vm_compute. reflexivity.
Defined.

Section AnalyticsCreated.
Variable iso_parse : string → option datetime.

(** X13. How a new learning item changes what [analyze_learning_pattern]
    reports. On a store in which every schedule has its parent item, a
    successful [create_learning_item] adds one item and six schedules, none
    completed, to the counts of the user of the request, so that the rate
    of that user goes from [c / n] to [c / (n + 6)]; the report on every
    other user is as before. *)
Theorem analytics_after_create
    (item : LearningItemCreate.t) (db db' : store) (summary : item_summary) (u : Z) :
  parents_stored db →
  create_learning_item iso_parse item db = (Success summary, db') →
  let c := completed_schedules_of db u in
  let n := all_schedules_of db u in
  let t := total_items_of db u in
  Analytics.analyze_learning_pattern db u =
    Ok {| Analytics.total_items := t;
          Analytics.completion_rate := Analytics.rounded_percentage c n |}
  ∧ Analytics.analyze_learning_pattern db' u =
      if decide (u = LearningItemCreate.user_id item)
      then Ok {| Analytics.total_items := t + 1;
                 Analytics.completion_rate := Analytics.rounded_percentage c (n + 6) |}
      else Ok {| Analytics.total_items := t;
                 Analytics.completion_rate := Analytics.rounded_percentage c n |}.
Proof.
  intros Hparents H c n t. split; [apply analyze_learning_pattern_eq|].
  apply create_learning_item_Success in H
    as (T & a & intervals & dates & HT & Ha & Hopt & Hdates & Hid & Hdate & Hu & Hitems & Hrs).
  pose proof (optimize_review_intervals_length _ _ _ Hopt) as Hlen.
  pose proof (created_schedules_lookup T intervals dates (next_id (learning_items db))
                (review_schedules db)) as Hlook.
  set (id := next_id (learning_items db)) in *.
  assert (learning_items db !! id = None) as Hfresh by apply next_id_fresh.
  set (L := imap (λ j h, (next_id (review_schedules db) + Z.of_nat j,
                          new_schedule id (Z.of_nat j + 1) (plus_hours T h))) intervals).
  assert (length L = 6%nat) as HL by (unfold L; by rewrite length_imap).
  (* the schedules counted for [u] *)
  assert (∀ k s, Analytics.user_schedules db' u !! k = Some s ↔
                 Analytics.user_schedules db u !! k = Some s
                 ∨ (u = LearningItemCreate.user_id item ∧ (k, s) ∈ L)) as Hus.
  { intros k s. unfold Analytics.user_schedules.
    rewrite !map_lookup_filter_Some, Hrs, (Hlook _ _ Hdates). cbn [snd].
    unfold Analytics.joined_for_user. rewrite Hitems. split.
    - intros ([Hold|(j & h & Hj & -> & Hnone & ->)] & Hjoin & Hdel).
      + left. split; [done|]. split; [|done].
        destruct (Hparents _ _ Hold) as [it Hit].
        rewrite lookup_insert_ne in Hjoin by congruence. done.
      + right. cbn [learning_item_id new_schedule] in Hjoin.
        rewrite lookup_insert_eq in Hjoin. cbn [user_id] in Hjoin.
        apply bool_decide_eq_true in Hjoin. split; [done|].
        apply elem_of_lookup_imap. by exists j, h.
    - intros [(Hold & Hjoin & Hdel)|[-> Hin]].
      + split; [by left|]. split; [|done].
        destruct (Hparents _ _ Hold) as [it Hit].
        rewrite lookup_insert_ne by congruence. done.
      + apply elem_of_lookup_imap in Hin as (j & h & [= -> ->] & Hj).
        split; [|split; [|done]].
        * right. exists j, h. repeat split; try done.
          destruct (review_schedules db !! _) eqn:E; [|done].
          assert (next_id (review_schedules db) + Z.of_nat j
                  < next_id (review_schedules db)) by (apply next_id_above; eauto).
          lia.
        * cbn [learning_item_id new_schedule]. rewrite lookup_insert_eq. cbn [user_id].
          by apply bool_decide_eq_true. }
  assert (∀ k s, (k, s) ∈ L → Analytics.user_schedules db u !! k = None) as Hdisj.
  { intros k s (j & h & [= -> ->] & Hj)%elem_of_lookup_imap.
    apply map_lookup_filter_None. left.
    destruct (review_schedules db !! _) eqn:E; [|done].
    assert (next_id (review_schedules db) + Z.of_nat j
            < next_id (review_schedules db)) by (apply next_id_above; eauto).
    lia. }
  assert (map_to_list (Analytics.user_schedules db' u)
          ≡ₚ (if decide (u = LearningItemCreate.user_id item) then L else [])
             ++ map_to_list (Analytics.user_schedules db u)) as Hperm.
  { apply NoDup_Permutation.
    - apply NoDup_map_to_list.
    - apply NoDup_app. split; [|split].
      + case_decide; [|constructor].
        apply (NoDup_imap_keys _ (λ j h, new_schedule id (Z.of_nat j + 1) (plus_hours T h))).
      + intros [k s] Hin Hold. apply elem_of_map_to_list in Hold.
        case_decide; [|by apply elem_of_nil in Hin].
        rewrite (Hdisj _ _ Hin) in Hold. done.
      + apply NoDup_map_to_list.
    - intros [k s]. rewrite elem_of_app, !elem_of_map_to_list, Hus.
      case_decide; [tauto|]. rewrite elem_of_nil. tauto. }
  assert (filter (λ kv : Z * ReviewSchedule, completed kv.2 ≠ None)
                 (Analytics.user_schedules db' u)
          = filter (λ kv : Z * ReviewSchedule, completed kv.2 ≠ None)
                   (Analytics.user_schedules db u)) as Hdone.
  { apply map_eq. intros k. apply option_eq. intros s.
    rewrite !map_lookup_filter_Some, Hus. cbn [snd]. split; [|tauto].
    intros [[Hold|[_ Hin]] Hc]; [done|].
    apply elem_of_lookup_imap in Hin as (j & h & [= -> ->] & Hj). by destruct Hc. }
  rewrite analyze_learning_pattern_eq.
  unfold completed_schedules_of, all_schedules_of. rewrite Hdone.
  rewrite <- (length_map_to_list (Analytics.user_schedules db' u)), Hperm, length_app.
  rewrite length_map_to_list.
  unfold total_items_of. rewrite Hitems.
  case_decide as Hu'.
  - subst u. rewrite map_filter_insert_True by done.
    rewrite map_size_insert_None by (apply map_lookup_filter_None; by left).
    rewrite HL. do 3 f_equal; unfold t, n, total_items_of, all_schedules_of; lia.
  - rewrite map_filter_insert_not'; [done|simpl; congruence|].
    intros y Hy. congruence.
Qed.

End AnalyticsCreated.

Lemma analytics_after_create_witness :
  ∃ summary db',
    create_learning_item IsoFormat.parse (Sample.new_item "2024-03-01T08:00:00") Sample.db
      = (Success summary, db')
    ∧ Analytics.analyze_learning_pattern db' 1 =
        Ok {| Analytics.total_items := 3;
              Analytics.completion_rate := PyFloat (PyFloat.round_quot 111 10) |}.
Proof.
  destruct (create_learning_item IsoFormat.parse (Sample.new_item "2024-03-01T08:00:00")
              Sample.db) as [[summary|e] db'] eqn:E; [|vm_compute in E; discriminate E].
  exists summary, db'. split; [reflexivity|].
  destruct (analytics_after_create IsoFormat.parse _ _ _ _ 1 sample_parents_stored E)
    as (_ & H1).
  rewrite H1. vm_compute. reflexivity.
Defined.

(** ** Rounding against a number on the grid *)

Section Grid.
Import PyFloat Value.
Local Open Scope R_scope.

Lemma F2R_le m j e : (m <= j)%Z → F2R m e <= F2R j e.
Proof.
  intros H. unfold F2R. apply IZR_le in H. pose proof (bpow_gt_0 e). nra.
Qed.

(** A multiple of the rounding unit at or above the exact value is at or
    above the rounded one, and likewise below. *)
Lemma rounds_to_le s V e r j :
  rounds_to s V e r → V <= F2R j e → is_finite r = true → Rabs (value r) <= F2R j e.
Proof.
  intros (m & Hm & _ & Hup & _ & Hres) HV Hfin. specialize (Hup j HV).
  destruct Hres as [[-> ->]|[(p & e' & -> & Hval & _)| [-> _]]]; [| |done].
  - simpl. rewrite Rabs_R0. replace 0 with (F2R 0 e) by (unfold F2R; lra). by apply F2R_le.
  - rewrite value_finite_pos, Hval. by apply F2R_le.
Qed.

Lemma rounds_to_ge s V e r j :
  rounds_to s V e r → F2R j e <= V → is_finite r = true → F2R j e <= Rabs (value r).
Proof.
  intros (m & Hm & _ & _ & Hdown & Hres) HV Hfin. specialize (Hdown j HV).
  destruct Hres as [[-> ->]|[(p & e' & -> & Hval & _)| [-> _]]]; [| |done].
  - simpl. rewrite Rabs_R0. replace 0 with (F2R 0 e) by (unfold F2R; lra). by apply F2R_le.
  - rewrite value_finite_pos, Hval. by apply F2R_le.
Qed.

(** An integer is on the grid of every exponent that is not positive. *)
Lemma integer_on_grid N e : (e <= 0)%Z → ∃ j, IZR N = F2R j e.
Proof.
  intros He. exists (N * 2 ^ (- e))%Z. symmetry. by apply F2R_whole.
Qed.

(** Below [2^53] the rounding unit of an exact value divides what its own
    unit divides, and every integer. *)
Lemma on_grid_at_round m e X :
  (0 < m)%Z → F2R m e < bpow 53 →
  (∃ j, X = F2R j e) → (∀ e', (e' <= 0)%Z → ∃ j, X = F2R j e') →
  ∃ j, X = F2R j (e_round m e).
Proof.
  intros Hm Hlt He Hint. unfold e_round.
  destruct (Z.max_spec e (fexp prec emax (Zdigits2 m + e))) as [[_ ->]|[_ ->]]; [|done].
  apply Hint.
  pose proof (F2R_digits m e Hm) as [Hlo _].
  assert (Zdigits2 m + e - 1 < 53)%Z by (apply bpow_lt_inv; lra).
  unfold fexp, emin, prec, emax. lia.
Qed.

Lemma F2R_pos p e : 0 < F2R (Z.pos p) e.
Proof.
  unfold F2R. pose proof (bpow_gt_0 e).
  assert (0 < IZR (Z.pos p)) by (apply IZR_lt; lia). nra.
Qed.

(** The float of an exact positive value below [2^53] is finite and
    positive. *)
Lemma exact_round_small s m e :
  (0 < m)%Z → F2R m e < bpow 53 →
  is_finite (exact_round s m e) = true.
Proof.
  intros Hm Hlt.
  pose proof (F2R_digits m e Hm) as [Hlo _].
  assert (Zdigits2 m + e - 1 < 53)%Z by (apply bpow_lt_inv; lra).
  pose proof (exact_round_rounds s m e ltac:(lia)) as Hr.
  apply (rounds_to_finite _ _ _ _ 53 Hr).
  - unfold e_round. destruct (Z_le_gt_dec e 53) as [He|He].
    + unfold fexp, emin, prec, emax. lia.
    + exfalso. assert (bpow 53 <= F2R m e); [|lra].
      etransitivity; [apply (bpow_le 53 e); lia|].
      unfold F2R. assert (1 <= IZR m) by (apply IZR_le; lia).
      pose proof (bpow_gt_0 e). nra.
  - lra.
  - unfold emax, prec. lia.
Qed.

(** An exact value that is a positive integer below [2^53] is not
    changed by the rounding. *)
Lemma exact_round_integer s m e N :
  (0 < m)%Z → (0 < N < 2 ^ 53)%Z → F2R m e = IZR N →
  ∃ q eq, exact_round s m e = S754_finite s q eq ∧ F2R (Z.pos q) eq = IZR N.
Proof.
  intros Hm HN Hval.
  assert (F2R m e < bpow 53) as Hlt.
  { rewrite Hval, (bpow_IZR 53) by lia. apply IZR_lt. lia. }
  pose proof (exact_round_small s m e Hm Hlt) as Hfin.
  pose proof (exact_round_rounds s m e ltac:(lia)) as Hr.
  destruct (on_grid_at_round m e (IZR N) Hm Hlt) as [j Hj].
  { exists m. by rewrite Hval. }
  { intros e' He'. by apply integer_on_grid. }
  rewrite Hval in Hr.
  pose proof (rounds_to_exact _ _ _ _ j Hr Hj Hfin) as Hex.
  destruct (rounds_to_cases _ _ _ _ Hr) as [Hz|[(q & eq & Hq)|Hi]].
  - rewrite Hz in Hex. simpl in Hex. rewrite Rabs_R0 in Hex.
    assert (0 < IZR N) by (apply IZR_lt; lia). lra.
  - exists q, eq. split; [done|]. by rewrite Hq, value_finite_pos in Hex.
  - rewrite Hi in Hfin. done.
Qed.

End Grid.

(** ** The optimizer in integer arithmetic *)

Section Optimizer.
Import PyFloat Value.
Local Open Scope R_scope.

(** The rounded value is not below a number of the grid that the exact
    value misses by less than half a unit. *)
Lemma rounds_to_near_ge s V e r j :
  rounds_to s V e r → F2R j e - V < bpow e / 2 → is_finite r = true →
  F2R j e <= Rabs (value r).
Proof.
  intros (m & Hm & Herr & _ & _ & Hres) Hnear Hfin.
  assert (j <= m)%Z as Hjm.
  { destruct (Z_le_gt_dec j m) as [|Hgt]; [done|]. exfalso.
    assert (F2R m e <= F2R j e - bpow e).
    { replace (F2R j e - bpow e) with (F2R (j - 1) e) by (unfold F2R; rewrite minus_IZR; ring).
      apply F2R_le. lia. }
    apply Rabs_bound in Herr. lra. }
  destruct Hres as [[-> ->]|[(p & e' & -> & Hval & _)| [-> _]]]; [| |done].
  - simpl. rewrite Rabs_R0. replace 0 with (F2R 0 e) by (unfold F2R; lra). by apply F2R_le.
  - rewrite value_finite_pos, Hval. by apply F2R_le.
Qed.

Lemma round_int_small b :
  (0 < b < 2 ^ 53)%Z →
  ∃ q eq, round_int b = S754_finite false q eq ∧ F2R (Z.pos q) eq = IZR b.
Proof.
  intros Hb. destruct (round_int_as_exact b ltac:(lia)) as (mz & ez & -> & Hmz & Hval & _).
  by apply exact_round_integer.
Qed.

(** [int(b * f)] is the integer [k] when the exact product is within
    [7/8] above [k] and at most a fraction [2^-54] of itself below it. *)
Lemma truncated_product_eq b mf ef k :
  (0 < b <= 2 ^ 49)%Z → (ef <= -52)%Z → F2R (Z.pos mf) ef < 2 → (0 <= k)%Z →
  IZR k - IZR b * F2R (Z.pos mf) ef <= IZR b * F2R (Z.pos mf) ef * bpow (-54) →
  IZR b * F2R (Z.pos mf) ef <= IZR k + 7 / 8 →
  Analytics.truncated_product (S754_finite false mf ef) b = k.
Proof.
  intros Hb Hef Hf Hk Hlow Hup.
  assert (2 ^ 49 < 2 ^ 53)%Z by done.
  destruct (round_int_small b ltac:(lia)) as (q & eq & Hq & Hqb).
  unfold Analytics.truncated_product. rewrite Hq, fmul_finite. cbn [xorb].
  set (M := Z.pos (q * mf)). set (E := (eq + ef)%Z).
  set (V := IZR b * F2R (Z.pos mf) ef) in *.
  assert (F2R M E = V) as HV by (unfold M, E, V; by rewrite Pos2Z.inj_mul, F2R_mul, Hqb).
  pose proof (F2R_pos mf ef) as Hfpos.
  assert (1 <= IZR b <= IZR (2 ^ 49)) as [Hb1 Hb2] by (split; apply IZR_le; lia).
  rewrite <- (bpow_IZR 49) in Hb2 by lia.
  assert (0 < V) by (unfold V; nra).
  assert (V < bpow 50) as HV50.
  { replace 50%Z with (49 + 1)%Z by lia. rewrite bpow_add, bpow_1.
    pose proof (bpow_gt_0 49). unfold V. nra. }
  assert (V < bpow 53) as HV53.
  { eapply Rlt_le_trans; [exact HV50|]. apply bpow_le. lia. }
  pose proof (exact_round_rounds false M E ltac:(done)) as Hr. rewrite HV in Hr.
  pose proof (exact_round_small false M E ltac:(done) ltac:(by rewrite HV)) as Hfin.
  pose proof (F2R_digits M E ltac:(done)) as [Hdlo Hdhi]. rewrite HV in Hdlo, Hdhi.
  assert (eq <= 49)%Z as Heq.
  { apply (F2R_le_bpow_exp q). by rewrite Hqb. }
  assert (Zdigits2 M + E - 1 < 50)%Z by (apply bpow_lt_inv; lra).
  set (e := e_round M E) in *.
  assert (e <= -3)%Z as He3 by (unfold e, e_round, fexp, emin, prec, emax, E; lia).
  assert (Zdigits2 M + E <= e + 53)%Z as He53
    by (unfold e, e_round, fexp, emin, prec, emax; lia).
  assert (V < bpow (e + 53)) as HVe.
  { eapply Rlt_le_trans; [exact Hdhi|]. by apply bpow_le. }
  (* [k] and [k + 7/8] on the grid *)
  assert (IZR k = F2R (k * 2 ^ (- e)) e) as Hgk.
  { symmetry. apply F2R_whole; lia. }
  assert (IZR k + 7 / 8 = F2R ((8 * k + 7) * 2 ^ (-3 - e)) e) as Hgk7.
  { replace e with (-3 - (-3 - e))%Z at 2 by lia.
    rewrite F2R_shift by lia. unfold F2R. rewrite plus_IZR, mult_IZR.
    change (bpow (-3)) with (/ (2 * (2 * (2 * 1)))). lra. }
  assert (IZR k <= Rabs (value (exact_round false M E))) as Hlo.
  { rewrite Hgk. apply (rounds_to_near_ge _ _ _ _ _ Hr); [|done].
    rewrite <- Hgk.
    assert (V * bpow (-54) < bpow e / 2); [|lra].
    replace (bpow e / 2) with (bpow (e + 53) * bpow (-54)).
    - pose proof (bpow_gt_0 (-54)). nra.
    - replace e with ((e + 53) + -54 + 1)%Z at 2 by lia.
      rewrite !bpow_add, bpow_1. field. }
  assert (Rabs (value (exact_round false M E)) <= IZR k + 7 / 8) as Hhi.
  { rewrite Hgk7. apply (rounds_to_le _ _ _ _ _ Hr); [|done]. by rewrite <- Hgk7. }
  destruct (rounds_to_cases _ _ _ _ Hr) as [Hz|[(q' & e' & Hq')|Hi]].
  - rewrite Hz in *. simpl in Hlo. rewrite Rabs_R0 in Hlo.
    apply le_IZR in Hlo. lia.
  - rewrite Hq' in *. rewrite value_finite_pos in Hlo, Hhi. cbn [cond_Zopp].
    destruct (shiftl_floor q' e') as (_ & Hs1 & Hs2).
    assert (Z.shiftl (Z.pos q') e' < k + 1)%Z.
    { apply lt_IZR. rewrite plus_IZR. lra. }
    assert (k < Z.shiftl (Z.pos q') e' + 1)%Z.
    { apply lt_IZR. rewrite plus_IZR. lra. }
    lia.
  - rewrite Hi in Hfin. done.
Qed.

End Optimizer.

Section OptimizerExact.
Import PyFloat Value.
Local Open Scope R_scope.

Lemma bpow_neg_IZR n : (0 <= n)%Z → bpow (- n) = / IZR (2 ^ n).
Proof. intros Hn. by rewrite bpow_opp, bpow_IZR. Qed.

Lemma bpow_m52 : bpow (-52) = / 4503599627370496.
Proof. apply (bpow_neg_IZR 52). lia. Qed.

Lemma bpow_m53 : bpow (-53) = / 9007199254740992.
Proof. apply (bpow_neg_IZR 53). lia. Qed.

Lemma bpow_m54 : bpow (-54) = / 18014398509481984.
Proof. apply (bpow_neg_IZR 54). lia. Qed.

Lemma truncated_product_1_0 b :
  (0 <= b <= 2 ^ 49)%Z → Analytics.truncated_product lit_1_0 b = b.
Proof.
  intros Hb. destruct (Z.eq_dec b 0%Z) as [->|Hne]; [done|].
  assert (F2R 4503599627370496 (-52) = 1) as Hc.
  { unfold F2R. rewrite bpow_m52. lra. }
  apply truncated_product_eq; try lia.
  - rewrite Hc. lra.
  - rewrite Hc. assert (1 <= IZR b) by (apply IZR_le; lia).
    pose proof (bpow_gt_0 (-54)). nra.
  - rewrite Hc. lra.
Qed.

Lemma truncated_product_0_8 b :
  (0 <= b <= 2 ^ 49)%Z → Analytics.truncated_product lit_0_8 b = (4 * b / 5)%Z.
Proof.
  intros Hb. destruct (Z.eq_dec b 0%Z) as [->|Hne]; [done|].
  assert (F2R 7205759403792794 (-53) = (4 + 2 / 9007199254740992) / 5) as Hc.
  { unfold F2R. rewrite bpow_m53. lra. }
  pose proof (Z.div_mod (4 * b) 5 ltac:(lia)) as Hdm.
  pose proof (Z.mod_pos_bound (4 * b) 5 ltac:(lia)) as Hmod.
  set (k := (4 * b / 5)%Z) in *.
  assert (4 * IZR b = 5 * IZR k + IZR ((4 * b) mod 5)) as HR
    by (rewrite <- !mult_IZR, <- plus_IZR; by f_equal).
  assert (0 <= IZR ((4 * b) mod 5) <= 4) as Hrho by (split; apply IZR_le; lia).
  assert (1 <= IZR b <= 562949953421312) as HbR by (split; apply IZR_le; lia).
  apply truncated_product_eq; try lia.
  - rewrite Hc. lra.
  - rewrite Hc. pose proof (bpow_gt_0 (-54)).
    assert (0 <= IZR b * ((4 + 2 / 9007199254740992) / 5) * bpow (-54)) by nra.
    lra.
  - rewrite Hc. lra.
Qed.

Lemma truncated_product_1_2 b :
  (0 <= b <= 2 ^ 49)%Z → Analytics.truncated_product lit_1_2 b = (6 * b / 5)%Z.
Proof.
  intros Hb. destruct (Z.eq_dec b 0%Z) as [->|Hne]; [done|].
  assert (F2R 5404319552844595 (-52) = (6 - 1 / 4503599627370496) / 5) as Hc.
  { unfold F2R. rewrite bpow_m52. lra. }
  pose proof (Z.div_mod (6 * b) 5 ltac:(lia)) as Hdm.
  pose proof (Z.mod_pos_bound (6 * b) 5 ltac:(lia)) as Hmod.
  set (k := (6 * b / 5)%Z) in *.
  assert (6 * IZR b = 5 * IZR k + IZR ((6 * b) mod 5)) as HR
    by (rewrite <- !mult_IZR, <- plus_IZR; by f_equal).
  assert (0 <= IZR ((6 * b) mod 5) <= 4) as Hrho by (split; apply IZR_le; lia).
  assert (1 <= IZR b <= 562949953421312) as HbR by (split; apply IZR_le; lia).
  apply truncated_product_eq; try lia.
  - rewrite Hc. lra.
  - rewrite Hc, bpow_m54. lra.
  - rewrite Hc. lra.
Qed.

Lemma optimize_review_intervals_Ok r bs f :
  f = (if PyNum.lt_int r 50 then lit_0_8 else if PyNum.gt_int r 80 then lit_1_2 else lit_1_0) →
  Forall (λ b, is_finite (fmul (round_int b) f) = true) bs →
  Analytics.optimize_review_intervals r bs = Ok (Analytics.truncated_product f <$> bs).
Proof.
  intros -> Hfin. unfold Analytics.optimize_review_intervals. cbv zeta.
  induction Hfin as [|b bs Hb _ IH]; [done|].
  cbn [mapM fmap list_fmap]. rewrite (scale_interval _ b Hb), bind_Ok.
  cbn [mapM] in IH. rewrite IH. reflexivity.
Qed.

End OptimizerExact.

(** X15. For intervals from 0 to [2^49] hours the optimizer is integer
    arithmetic: a rate below 50 gives four fifths of every interval,
    rounded down; a rate above 80 gives six fifths, rounded down; every
    other rate, a NaN included, gives the intervals back unchanged. *)
Theorem optimize_review_intervals_fifths (r : pynum) (bs : list Z) :
  Forall (λ b, 0 ≤ b ≤ 2 ^ 49) bs →
  Analytics.optimize_review_intervals r bs =
    Ok ((λ b, if PyNum.lt_int r 50 then 4 * b / 5
              else if PyNum.gt_int r 80 then 6 * b / 5
              else b) <$> bs).
Proof.
  intros Hbs.
  rewrite (optimize_review_intervals_Ok r bs _ eq_refl).
  - f_equal. apply list_fmap_ext. intros i b Hb.
    pose proof (proj1 (Forall_lookup _ _) Hbs i b Hb) as Hrange. cbv beta in Hrange.
    destruct (PyNum.lt_int r 50); [by apply truncated_product_0_8|].
    destruct (PyNum.gt_int r 80); [by apply truncated_product_1_2|].
    by apply truncated_product_1_0.
  - eapply Forall_impl; [exact Hbs|]. intros b Hb. cbv beta in *.
    assert (Z.abs b ≤ 2 ^ 970).
    { assert (2 ^ 49 ≤ 2 ^ 970) by (apply Z.pow_le_mono_r; lia). lia. }
    destruct (PyNum.lt_int r 50); [|destruct (PyNum.gt_int r 80)];
      (apply small_interval_finite; [done | lia |]);
      apply F2R_le_two, Z.leb_le; reflexivity.
Qed.

Lemma optimize_review_intervals_fifths_witness :
  Analytics.optimize_review_intervals (PyInt 40) [5; 1000; 1000000007]
    = Ok [4; 800; 800000005]
  ∧ Analytics.optimize_review_intervals (PyFloat (PyFloat.round_quot 905 10))
      [5; 1000; 1000000007]
    = Ok [6; 1200; 1200000008].
Proof.
  assert (Forall (λ b, 0 ≤ b ≤ 2 ^ 49) [5; 1000; 1000000007]) as Hbs.
  { repeat (constructor; [split; apply Z.leb_le; vm_compute; reflexivity|]). constructor. }
  split.
  - rewrite (optimize_review_intervals_fifths _ _ Hbs). vm_compute. reflexivity.
  - rewrite (optimize_review_intervals_fifths _ _ Hbs). vm_compute. reflexivity.
Defined.

(** ** The quotient of two integers, correctly rounded *)

Section QuotientValue.
Import PyFloat Value Analytics.
Local Open Scope R_scope.

(** The location that the division computes is the location of the
    quotient. *)
Lemma new_location_represents a r q :
  (0 < a)%Z → (0 <= r < a)%Z →
  represents (IZR q + IZR r / IZR a) (shr_record_of_loc q (new_location a r)).
Proof.
  intros Ha Hr.
  assert (0 < IZR a) as HaR by (apply IZR_lt; lia).
  assert (0 <= IZR r < IZR a) as [Hr0 Hr1] by (split; [apply IZR_le|apply IZR_lt]; lia).
  assert (∀ x y : R, 0 < y → (x / y) * y = x) as Hdiv by (intros; field; lra).
  assert (0 <= IZR r / IZR a < 1) as [Hf0 Hf1].
  { pose proof (Hdiv (IZR r) (IZR a) HaR). split.
    - apply Rmult_le_reg_r with (IZR a); [done|]. lra.
    - apply Rmult_lt_reg_r with (IZR a); [done|]. lra. }
  assert (∀ c : comparison, (2 * r ?= a)%Z = c →
            match c with
            | Lt => IZR r / IZR a < / 2
            | Eq => IZR r / IZR a = / 2
            | Gt => / 2 < IZR r / IZR a
            end) as Hcmp.
  { intros c Hc. pose proof (Hdiv (IZR r) (IZR a) HaR) as Hd.
    destruct c.
    - apply Z.compare_eq in Hc. apply (f_equal IZR) in Hc. rewrite mult_IZR in Hc.
      apply Rmult_eq_reg_r with (IZR a); lra.
    - apply (proj1 (Z.compare_lt_iff _ _)), IZR_lt in Hc. rewrite mult_IZR in Hc.
      apply Rmult_lt_reg_r with (IZR a); lra.
    - apply (proj1 (Z.compare_gt_iff _ _)), IZR_lt in Hc. rewrite mult_IZR in Hc.
      apply Rmult_lt_reg_r with (IZR a); lra. }
  unfold new_location.
  destruct (Z.even a) eqn:Heven.
  - unfold new_location_even. destruct (r =? 0)%Z eqn:E0.
    + apply Z.eqb_eq in E0 as ->. unfold represents. simpl. lra.
    + apply Z.eqb_neq in E0.
      assert (0 < IZR r / IZR a).
      { assert (0 < IZR r) by (apply IZR_lt; lia).
        apply Rmult_lt_reg_r with (IZR a); [done|]. rewrite Hdiv by done. lra. }
      specialize (Hcmp _ eq_refl).
      destruct (2 * r ?= a)%Z; unfold represents; simpl; lra.
  - unfold new_location_odd. destruct (r =? 0)%Z eqn:E0.
    + apply Z.eqb_eq in E0 as ->. unfold represents. simpl. lra.
    + apply Z.eqb_neq in E0.
      assert (0 < IZR r / IZR a).
      { assert (0 < IZR r) by (apply IZR_lt; lia).
        apply Rmult_lt_reg_r with (IZR a); [done|]. rewrite Hdiv by done. lra. }
      assert (2 * r ≠ a)%Z as Hodd.
      { intros <-. rewrite Z.even_mul in Heven. done. }
      destruct (2 * r + 1 ?= a)%Z eqn:Ec.
      * apply Z.compare_eq in Ec.
        assert ((2 * r ?= a)%Z = Lt) as Hlt by (apply Z.compare_lt_iff; lia).
        specialize (Hcmp _ Hlt). unfold represents. simpl. lra.
      * apply (proj1 (Z.compare_lt_iff _ _)) in Ec.
        assert ((2 * r ?= a)%Z = Lt) as Hlt by (apply Z.compare_lt_iff; lia).
        specialize (Hcmp _ Hlt). unfold represents. simpl. lra.
      * apply (proj1 (Z.compare_gt_iff _ _)) in Ec.
        assert ((2 * r ?= a)%Z = Gt) as Hgt by (apply Z.compare_gt_iff; lia).
        specialize (Hcmp _ Hgt). unfold represents. simpl. lra.
Qed.

(** [round_quot c a] is the rounding of [c / a], at the exponent of a
    mantissa [q] that is the integer part of [c / a] scaled. *)
Lemma round_quot_rounds c a :
  (0 < c)%Z → (0 < a)%Z →
  ∃ q e', (-1074 <= e' <= 0)%Z ∧ (0 <= q)%Z
          ∧ IZR q <= IZR c / IZR a * bpow (- e')
          ∧ rounds_to false (IZR c / IZR a) (e_round q e') (round_quot c a).
Proof.
  intros Hc Ha. unfold round_quot.
  destruct c as [|c|c]; try lia.
  assert ((Z.pos c <? 0)%Z = false) as -> by (apply Z.ltb_ge; lia).
  change (Z.abs (Z.pos c)) with (Z.pos c). unfold SFdiv_core_binary. cbv zeta.
  rewrite !Z.add_0_r, !Z.sub_0_r.
  set (e' := Z.min (fexp prec emax (Zdigits2 (Z.pos c) - Zdigits2 a)) 0).
  assert (e' <= 0)%Z as He' by (unfold e'; lia).
  assert (-1074 <= e')%Z as He'min by (unfold e', fexp, emin, prec, emax; lia).
  set (m' := match (0 - e')%Z with
             | Z0 => Z.pos c | Z.pos _ => Z.shiftl (Z.pos c) (0 - e') | Z.neg _ => 0%Z
             end).
  assert (m' = Z.pos c * 2 ^ (- e'))%Z as Hm'.
  { unfold m'. destruct (0 - e')%Z as [|s|s] eqn:Es.
    - replace (- e')%Z with 0%Z by lia. lia.
    - rewrite <- Es. rewrite Z.shiftl_mul_pow2 by lia. repeat f_equal; lia.
    - lia. }
  clearbody m'.
  pose proof (Z.div_eucl_eq m' a ltac:(lia)) as Hdiv.
  pose proof (Z.mod_pos_bound m' a Ha) as Hmod.
  unfold Z.modulo in Hmod.
  destruct (Z.div_eucl m' a) as [q r]. simpl in Hmod.
  assert (0 < 2 ^ (- e'))%Z as Hp by (apply Z.pow_pos_nonneg; lia).
  assert (0 <= q)%Z as Hq by nia.
  assert (0 < IZR a) as HaR by (apply IZR_lt; lia).
  assert (IZR q + IZR r / IZR a = IZR (Z.pos c) / IZR a * bpow (- e')) as Hx.
  { rewrite (bpow_IZR (- e')) by lia.
    apply (f_equal IZR) in Hdiv. rewrite Hm', plus_IZR, !mult_IZR in Hdiv.
    field_simplify; [|lra|lra]. rewrite Hdiv. field. lra. }
  exists q, e'. split; [lia|]. split; [done|]. split.
  - rewrite <- Hx. assert (0 <= IZR r / IZR a); [|lra].
    apply Rmult_le_reg_r with (IZR a); [done|].
    replace (IZR r / IZR a * IZR a) with (IZR r) by (field; lra).
    rewrite Rmult_0_l. apply IZR_le. lia.
  - pose proof (binary_round_aux_rounds false q e' (new_location a r) _ Hq
                  (new_location_represents a r q Ha Hmod)) as Hr.
    rewrite Hx in Hr.
    replace (IZR (Z.pos c) / IZR a * bpow (- e') * bpow e') with (IZR (Z.pos c) / IZR a) in Hr.
    + exact Hr.
    + rewrite Rmult_assoc, <- bpow_add. replace (- e' + e')%Z with 0%Z by lia.
      rewrite bpow_0. lra.
Qed.

(** A quotient that is at most an integer [N] rounds to at most [N]. *)
Lemma round_quot_le c a N :
  (0 < c)%Z → (0 < a)%Z → (c <= N * a)%Z → (N < 2 ^ 52)%Z →
  is_finite (round_quot c a) = true
  ∧ Rabs (value (round_quot c a)) <= IZR N
  ∧ (round_quot c a = S754_zero false ∨ ∃ p e, round_quot c a = S754_finite false p e).
Proof.
  intros Hc Ha HN HN52.
  destruct (round_quot_rounds c a Hc Ha) as (q & e' & He' & Hq & Hqv & Hr).
  assert (0 < IZR a) as HaR by (apply IZR_lt; lia).
  assert (IZR c / IZR a <= IZR N) as HV.
  { apply Rmult_le_reg_r with (IZR a); [done|].
    replace (IZR c / IZR a * IZR a) with (IZR c) by (field; lra).
    rewrite <- mult_IZR. by apply IZR_le. }
  assert (IZR N < bpow 52) as HN'.
  { rewrite (bpow_IZR 52) by lia. by apply IZR_lt. }
  assert (q < 2 ^ (52 - e'))%Z as Hqlt.
  { apply lt_IZR. rewrite <- bpow_IZR by lia.
    replace (52 - e')%Z with (52 + - e')%Z by lia. rewrite bpow_add.
    pose proof (bpow_gt_0 (- e')). nra. }
  assert (Zdigits2 q <= 52 - e')%Z as Hd by (apply Zdigits2_le; lia).
  assert (e_round q e' <= 0)%Z as Her by (unfold e_round, fexp, emin, prec, emax; lia).
  assert (is_finite (round_quot c a) = true) as Hfin.
  { apply (rounds_to_finite _ _ _ _ 52 Hr); [lia|lra|unfold emax, prec; lia]. }
  split; [done|]. split.
  - destruct (integer_on_grid N (e_round q e') Her) as [j Hj].
    rewrite Hj. apply (rounds_to_le _ _ _ _ _ Hr); [|done]. by rewrite <- Hj.
  - destruct (rounds_to_cases _ _ _ _ Hr) as [Hz|[Hf|Hi]]; [by left|by right|].
    rewrite Hi in Hfin. discriminate Hfin.
Qed.

(** A quotient that is an integer [N] rounds to [N]. *)
Lemma round_quot_exact a N :
  (0 < a)%Z → (0 < N < 2 ^ 52)%Z →
  ∃ p e, round_quot (N * a) a = S754_finite false p e ∧ F2R (Z.pos p) e = IZR N.
Proof.
  intros Ha HN.
  destruct (round_quot_rounds (N * a) a ltac:(nia) Ha) as (q & e' & He' & Hq & Hqv & Hr).
  destruct (round_quot_le (N * a) a N ltac:(nia) Ha ltac:(lia) ltac:(lia))
    as (Hfin & _ & Hcases).
  assert (0 < IZR a) as HaR by (apply IZR_lt; lia).
  assert (IZR (N * a) / IZR a = IZR N) as HV by (rewrite mult_IZR; field; lra).
  rewrite HV in *.
  assert (IZR N < bpow 52) as HN'.
  { rewrite (bpow_IZR 52) by lia. apply IZR_lt. lia. }
  assert (q < 2 ^ (52 - e'))%Z as Hqlt.
  { apply lt_IZR. rewrite <- bpow_IZR by lia.
    replace (52 - e')%Z with (52 + - e')%Z by lia. rewrite bpow_add.
    pose proof (bpow_gt_0 (- e')). nra. }
  assert (Zdigits2 q <= 52 - e')%Z as Hd by (apply Zdigits2_le; lia).
  assert (e_round q e' <= 0)%Z as Her by (unfold e_round, fexp, emin, prec, emax; lia).
  destruct (integer_on_grid N (e_round q e') Her) as [j Hj].
  pose proof (rounds_to_exact _ _ _ _ j Hr Hj Hfin) as Hex.
  destruct Hcases as [Hz|(p & e & Hp)].
  - rewrite Hz in Hex. simpl in Hex. rewrite Rabs_R0 in Hex.
    assert (0 < IZR N) by (apply IZR_lt; lia). lra.
  - exists p, e. split; [done|]. by rewrite Hp, value_finite_pos in Hex.
Qed.

End QuotientValue.

(** ** The range of the completion rate *)

Section Rate.
Import PyFloat Value Analytics.
Local Open Scope R_scope.

Lemma round_half_even_le num den N :
  (0 <= num)%Z → (0 < den)%Z → (num <= N * den)%Z → (round_half_even num den <= N)%Z.
Proof.
  intros Hnum Hden HN. unfold round_half_even. cbv zeta.
  pose proof (Z.div_mod num den ltac:(lia)) as Hdm.
  pose proof (Z.mod_pos_bound num den Hden) as Hmod.
  assert (num / den <= N)%Z by (apply Z.div_le_upper_bound; lia).
  destruct (Z.eq_dec (num / den)%Z N) as [Heq|Hne].
  - assert (num mod den = 0)%Z as -> by nia.
    assert ((2 * 0 ?= den)%Z = Lt) as -> by (apply Z.compare_lt_iff; lia). lia.
  - destruct (2 * (num mod den) ?= den)%Z; try destruct (Z.even (num / den)); lia.
Qed.

Lemma F2R_int_le p e N : (0 <= e)%Z → F2R (Z.pos p) e <= IZR N → (Z.pos p * 2 ^ e <= N)%Z.
Proof.
  intros He H. apply le_IZR. rewrite mult_IZR, <- bpow_IZR by lia. exact H.
Qed.

Lemma F2R_frac_le p e N :
  (e < 0)%Z → F2R (Z.pos p) e <= IZR N → (Z.pos p <= N * 2 ^ (- e))%Z.
Proof.
  intros He H. apply le_IZR. rewrite mult_IZR, <- bpow_IZR by lia.
  unfold F2R in H. rewrite bpow_opp. pose proof (bpow_gt_0 e).
  apply (Rmult_le_reg_r (bpow e)); [done|]. rewrite Rmult_assoc, Rinv_l by lra. lra.
Qed.

Lemma within_value N x :
  (0 <= N)%Z → within N x → is_finite x = true ∧ 0 <= value x <= IZR N.
Proof.
  intros HN [->|(p & e & -> & Hle)]; (split; [done|]).
  - simpl. split; [lra|]. by apply IZR_le.
  - cbn [value cond_Zopp]. pose proof (F2R_pos p e). lra.
Qed.

(** The product of a float within 1 and [100.0] is within 100. *)
Lemma times_100_within x : within 1 x → within 100 (fmul x (round_int 100)).
Proof.
  intros [->|(p & e & -> & Hle)]; [by left|].
  change (round_int 100) with (S754_finite false 7036874417766400 (-46)).
  rewrite fmul_finite. cbn [xorb].
  set (M := Z.pos (p * 7036874417766400)). set (E := (e + -46)%Z).
  pose proof (F2R_pos p e) as Hpos.
  assert (F2R M E = F2R (Z.pos p) e * 100) as HV.
  { unfold M, E. rewrite Pos2Z.inj_mul, F2R_mul.
      by rewrite (F2R_whole 7036874417766400 (-46) 100) by (lia || reflexivity). }
  assert (F2R M E <= 100) as HV100 by (rewrite HV; lra).
  assert (F2R M E < bpow 53) as HV53.
  { rewrite (bpow_IZR 53) by lia. change (2 ^ 53)%Z with 9007199254740992%Z. lra. }
  pose proof (F2R_le_1_exp p e Hle) as He.
  pose proof (exact_round_rounds false M E ltac:(done)) as Hr.
  pose proof (exact_round_small false M E ltac:(done) HV53) as Hfin.
  destruct (on_grid_at_round M E 100 ltac:(done) HV53) as [j Hj].
  { apply (integer_on_grid 100). unfold E. lia. }
  { intros e' He'. by apply (integer_on_grid 100). }
  pose proof (rounds_to_le _ _ _ _ j Hr ltac:(by rewrite <- Hj) Hfin) as Hle100.
  rewrite <- Hj in Hle100.
  destruct (rounds_to_cases _ _ _ _ Hr) as [Hz|[(q & eq & Hq)|Hi]].
  - by left.
  - right. exists q, eq. split; [done|]. by rewrite Hq, value_finite_pos in Hle100.
  - rewrite Hi in Hfin. done.
Qed.

(** Rounding a float within 100 to one decimal gives a float within
    100. *)
Lemma round1_nearest_within x : within 100 x → within 100 (round1_nearest x).
Proof.
  intros [->|(p & e & -> & Hle)]; [by left|].
  unfold round1_nearest. cbv zeta. cbn [cond_Zopp].
  set (k := if (0 <=? e)%Z then (10 * Z.pos p * 2 ^ e)%Z
            else round_half_even (10 * Z.pos p) (2 ^ (- e))).
  assert (0 <= k <= 1000)%Z as Hk.
  { unfold k. destruct (0 <=? e)%Z eqn:E.
    - apply Z.leb_le in E. pose proof (F2R_int_le p e 100 E Hle).
      assert (0 < 2 ^ e)%Z by (apply Z.pow_pos_nonneg; lia). nia.
    - apply Z.leb_gt in E. pose proof (F2R_frac_le p e 100 E Hle) as Hp.
      assert (0 < 2 ^ (- e))%Z as Hd by (apply Z.pow_pos_nonneg; lia).
      pose proof (round_half_even_bounds (10 * Z.pos p) (2 ^ (- e)) ltac:(lia) Hd).
      pose proof (round_half_even_le (10 * Z.pos p) (2 ^ (- e)) 1000 ltac:(lia) Hd ltac:(lia)).
      lia. }
  clearbody k.
  destruct (Z.eq_dec k 0%Z) as [->|Hne]; [by left|].
  destruct (round_quot_le k 10 100 ltac:(lia) ltac:(lia) ltac:(lia) ltac:(done))
    as (_ & Hle' & [Hz|(q & eq & Hq)]).
  - rewrite Hz. by left.
  - rewrite Hq in *. right. exists q, eq. split; [done|]. by rewrite value_finite_pos in Hle'.
Qed.

Lemma round_quot_within_1 c a : (0 <= c <= a)%Z → (0 < a)%Z → within 1 (round_quot c a).
Proof.
  intros Hc Ha. destruct (Z.eq_dec c 0%Z) as [->|Hne]; [by left|].
  destruct (round_quot_le c a 1 ltac:(lia) Ha ltac:(lia) ltac:(done))
    as (_ & Hle & [Hz|(q & eq & Hq)]).
  - by left.
  - rewrite Hq in *. right. exists q, eq. split; [done|]. by rewrite value_finite_pos in Hle.
Qed.

(** All completed: the rate is [100.0]. *)
Lemma rounded_percentage_all a :
  (0 < a)%Z → rounded_percentage a a = PyFloat (round_int 100).
Proof.
  intros Ha. unfold rounded_percentage.
  assert ((a =? 0)%Z = false) as -> by (apply Z.eqb_neq; lia). f_equal.
  destruct (round_quot_exact a 1 Ha ltac:(done)) as (p & e & Hp & Hval).
  rewrite Z.mul_1_l in Hp. rewrite Hp.
  change (round_int 100) with (S754_finite false 7036874417766400 (-46)).
  rewrite fmul_finite. cbn [xorb].
  destruct (exact_round_integer false (Z.pos (p * 7036874417766400)) (e + -46) 100)
    as (q & eq & -> & Hq); [done|done| |].
  { rewrite Pos2Z.inj_mul, F2R_mul, Hval.
    rewrite (F2R_whole 7036874417766400 (-46) 100) by (lia || reflexivity). lra. }
  unfold round1_nearest. cbv zeta. cbn [cond_Zopp].
  assert ((if (0 <=? eq)%Z then (10 * Z.pos q * 2 ^ eq)%Z
           else round_half_even (10 * Z.pos q) (2 ^ (- eq))) = 1000%Z) as ->;
    [|by vm_compute].
  destruct (0 <=? eq)%Z eqn:E.
  - apply Z.leb_le in E.
    assert (Z.pos q * 2 ^ eq = 100)%Z; [|lia].
    apply eq_IZR. rewrite mult_IZR, <- bpow_IZR by lia. exact Hq.
  - apply Z.leb_gt in E.
    assert (Z.pos q = 100 * 2 ^ (- eq))%Z as ->.
    { apply eq_IZR. rewrite mult_IZR, <- bpow_IZR by lia.
      unfold F2R in Hq. rewrite bpow_opp. pose proof (bpow_gt_0 eq).
      apply (Rmult_eq_reg_r (bpow eq)); [|lra].
      rewrite Rmult_assoc, Rinv_l by lra. lra. }
    assert (0 < 2 ^ (- eq))%Z as Hd by (apply Z.pow_pos_nonneg; lia).
    unfold round_half_even. cbv zeta.
    replace (10 * (100 * 2 ^ (- eq)))%Z with (1000 * 2 ^ (- eq))%Z by lia.
    rewrite Z.div_mul by lia. rewrite Z.mod_mul by lia.
    assert ((2 * 0 ?= 2 ^ (- eq))%Z = Lt) as -> by (apply Z.compare_lt_iff; lia).
    done.
Qed.

(** None completed: the rate is [0.0]. *)
Lemma rounded_percentage_none a :
  (0 < a)%Z → rounded_percentage 0 a = PyFloat (S754_zero false).
Proof.
  intros Ha. unfold rounded_percentage.
  by assert ((a =? 0)%Z = false) as -> by (apply Z.eqb_neq; lia).
Qed.

Lemma rounded_percentage_within c a :
  (0 <= c <= a)%Z → (0 < a)%Z →
  ∃ x, rounded_percentage c a = PyFloat x ∧ within 100 x.
Proof.
  intros Hc Ha. unfold rounded_percentage.
  assert ((a =? 0)%Z = false) as -> by (apply Z.eqb_neq; lia).
  eexists. split; [done|].
  by apply round1_nearest_within, times_100_within, round_quot_within_1.
Qed.

End Rate.

(** ** The preview is never early *)

Section NotEarly.
Import PyFloat Value.
Local Open Scope R_scope.

(** An integer at or below an exact value stays at or below the rounded
    one. *)
Lemma exact_round_ge_integer s m e N :
  (0 < m)%Z → (0 <= N < 2 ^ 53)%Z → IZR N <= F2R m e →
  is_finite (exact_round s m e) = true →
  IZR N <= Rabs (value (exact_round s m e)).
Proof.
  intros Hm HN HV Hfin.
  pose proof (exact_round_rounds s m e ltac:(lia)) as Hr.
  assert (IZR N < bpow 53) as HN53.
  { rewrite (bpow_IZR 53) by lia. apply IZR_lt. lia. }
  destruct (Rlt_le_dec (F2R m e) (bpow 53)) as [Hlt|Hge].
  - unfold e_round in Hr.
    destruct (Z.max_spec e (fexp prec emax (Zdigits2 m + e))) as [[_ Hmax]|[_ Hmax]];
      rewrite Hmax in Hr.
    + pose proof (F2R_digits m e Hm) as [Hlo _].
      assert (Zdigits2 m + e - 1 < 53)%Z by (apply bpow_lt_inv; lra).
      destruct (integer_on_grid N (fexp prec emax (Zdigits2 m + e))) as [j Hj].
      { unfold fexp, emin, prec, emax. lia. }
      rewrite Hj. apply (rounds_to_ge _ _ _ _ _ Hr); [|done]. by rewrite <- Hj.
    + by rewrite (rounds_to_exact _ _ _ _ m Hr eq_refl Hfin).
  - etransitivity; [left; exact HN53|].
    by apply exact_round_lower.
Qed.

(** What [timedelta(hours=...)] makes of one of the six scaled intervals
    is at least the base interval. *)
Lemma scaled_interval_us n b us :
  (0 <= n)%Z → b ∈ [1; 24; 72; 168; 336; 720]%Z →
  hours_to_us (scaled_interval n b) = Ok us →
  (b * US_PER_HOUR <= us)%Z.
Proof.
  intros Hn Hb Hus.
  pose proof (hours_to_us_finite _ _ Hus) as Hfin.
  pose proof (base_range b Hb) as Hrange.
  unfold scaled_interval in *.
  destruct (round_int_base b Hb) as (mb & eb & Hmb & Hvb). rewrite Hmb in *.
  destruct (factor_at_least_one n Hn) as [(p & e & Hf & Hge)|Hinf];
    [|rewrite Hinf in Hfin; done].
  rewrite Hf in *. rewrite fmul_finite in *. cbn [xorb] in *.
  set (M := Z.pos (mb * p)) in *. set (E := (eb + e)%Z) in *.
  assert (IZR b <= F2R M E) as HV.
  { unfold M, E. rewrite Pos2Z.inj_mul, F2R_mul, Hvb.
    assert (1 <= IZR b) by (apply IZR_le; lia). nra. }
  pose proof (exact_round_ge_integer false M E b ltac:(done) ltac:(lia) HV Hfin) as Hlow.
  destruct (rounds_to_cases _ _ _ _ (exact_round_rounds false M E ltac:(done)))
    as [Hz|[(q & eq & Hq)|Hi]].
  - rewrite Hz in Hlow. simpl in Hlow. rewrite Rabs_R0 in Hlow.
    apply le_IZR in Hlow. lia.
  - rewrite Hq in *. rewrite value_finite_pos in Hlow.
    destruct (hours_to_us_bounds q eq) as (us' & Hus' & Hlo & _).
    assert (us' = us) as -> by congruence.
    destruct (shiftl_floor q eq) as (_ & _ & Hs).
    assert (b < Z.shiftl (Z.pos q) eq + 1)%Z.
    { apply lt_IZR. rewrite plus_IZR. lra. }
    unfold US_PER_HOUR in *. lia.
  - rewrite Hi in Hfin. done.
Qed.

End NotEarly.

Section PreviewDates.
Variable iso_parse : string → option datetime.

(** X16. For [n >= 0] a preview has six entries, numbered from 1 in the
    order of the base intervals, and every entry is at least its base
    interval after the anchor: the first at least 1 hour, the last at least
    720 hours. The dates keep the time zone of the anchor. *)
Theorem review_dates_not_early
    (s : string) (n : Z) (T : datetime) (records : list Preview.t) :
  0 ≤ n →
  fromisoformat iso_parse s = Ok T →
  calculate_reviews iso_parse s n = Success records →
  length records = 6%nat
  ∧ ∀ (i : nat) (r : Preview.t), records !! i = Some r →
      ∃ b, BASE_INTERVALS !! i = Some b
           ∧ Preview.review_number r = Z.of_nat i + 1
           ∧ dt_us T + b * US_PER_HOUR ≤ dt_us (Preview.review_date r)
           ∧ dt_tz (Preview.review_date r) = dt_tz T.
Proof.
  intros Hn HT Hcalc.
  apply calculate_reviews_Success in Hcalc
    as (T' & d1 & d2 & d3 & d4 & d5 & d6 & HT' & H1 & H2 & H3 & H4 & H5 & H6 & ->).
  assert (T' = T) as -> by congruence.
  split; [done|].
  assert (∀ b d, b ∈ [1; 24; 72; 168; 336; 720] →
            after_hours T (scaled_interval n b) = Ok d →
            dt_us T + b * US_PER_HOUR ≤ dt_us d ∧ dt_tz d = dt_tz T) as Hlate.
  { intros b d Hb Hd.
    pose proof (after_hours_us _ _ _ Hd) as (us & Hus & ->).
    pose proof (scaled_interval_us n b us Hn Hb Hus). split; [lia|].
    unfold after_hours in Hd. destruct (timedelta_hours_float _) as [td|]; [|done].
    rewrite bind_Ok in Hd. by apply datetime_add_Ok in Hd as ->. }
  intros i r Hi.
  destruct i as [|[|[|[|[|[|i]]]]]]; try discriminate Hi; injection Hi as <-;
    eexists; (split; [reflexivity|]); (split; [reflexivity|]);
    cbn [Preview.review_date preview]; apply Hlate; try done; in_base.
Qed.

End PreviewDates.

Lemma review_dates_not_early_witness :
  ∃ records,
    calculate_reviews IsoFormat.parse "2024-01-01T09:00:00" 3 = Success records
    ∧ length records = 6%nat
    ∧ ∀ r, records !! 5%nat = Some r →
           dt_us Sample.monday + 720 * US_PER_HOUR ≤ dt_us (Preview.review_date r).
Proof.
  destruct (calculate_reviews IsoFormat.parse "2024-01-01T09:00:00" 3)
    as [records|e] eqn:E; [|vm_compute in E; discriminate E].
  exists records. split; [reflexivity|].
  destruct (review_dates_not_early IsoFormat.parse "2024-01-01T09:00:00" 3 Sample.monday
              records) as (Hlen & Hall).
  - lia.
  - vm_compute. reflexivity.
  - exact E.
  - split; [exact Hlen|]. intros r Hr.
    destruct (Hall 5%nat r Hr) as (b & Hb & _ & Hlate & _).
    injection Hb as <-. exact Hlate.
Defined.

(** ** No NaN in the preview *)

Section NotNan.
Import PyFloat Value.

Lemma binary_round_aux_not_nan s m e l :
  0 ≤ m → binary_round_aux prec emax s m e l ≠ S754_nan.
Proof.
  intros Hm. destruct (loc_represented m l) as (x & Hx & _).
  pose proof (binary_round_aux_rounds s m e l x Hm Hx) as Hr.
  destruct (rounds_to_cases _ _ _ _ Hr) as [->|[(p & e' & ->)| ->]]; done.
Qed.

Lemma binary_round_not_nan s m e : binary_round prec emax s m e ≠ S754_nan.
Proof.
  destruct (binary_round_as_exact s m e) as (mz & ez & -> & Hmz & _).
  apply binary_round_aux_not_nan. lia.
Qed.

Lemma binary_normalize_not_nan m e sz : binary_normalize prec emax m e sz ≠ S754_nan.
Proof. destruct m; simpl; [done|apply binary_round_not_nan..]. Qed.

Lemma fmul_finite_not_nan s m e y :
  y ≠ S754_nan → fmul (S754_finite s m e) y ≠ S754_nan.
Proof.
  intros Hy. destruct y; try done. apply binary_round_aux_not_nan. lia.
Qed.

Lemma fadd_finite_not_nan s m e y :
  y ≠ S754_nan → fadd (S754_finite s m e) y ≠ S754_nan.
Proof.
  intros Hy. destruct y; try done. apply binary_normalize_not_nan.
Qed.

Lemma scaled_interval_not_nan n b :
  b ∈ [1; 24; 72; 168; 336; 720] → scaled_interval n b ≠ S754_nan.
Proof.
  intros Hb. unfold scaled_interval.
  destruct (round_int_base b Hb) as (mb & eb & -> & _).
  apply fmul_finite_not_nan.
  change (round_int 1) with (S754_finite false 4503599627370496 (-52)).
  apply fadd_finite_not_nan. apply fmul_finite_not_nan. apply binary_normalize_not_nan.
Qed.

(** [timedelta(hours=h)] raises [ValueError] for a NaN only. *)
Lemma timedelta_hours_float_Raise h e :
  h ≠ S754_nan → timedelta_hours_float h = Raise e → e = OverflowError.
Proof.
  intros Hh. unfold timedelta_hours_float.
  assert (∀ e, hours_to_us h = Raise e → e = OverflowError) as Hus.
  { clear e. intros e. unfold hours_to_us.
    destruct h as [sz|si| |s m ex]; try done.
    - by intros [= <-].
    - change (to_int (S754_finite s m ex)) with (Ok (cond_Zopp s (Z.shiftl (Z.pos m) ex))).
      rewrite bind_Ok. cbv zeta.
      assert (frac (S754_finite s m ex) ≠ S754_nan) as Hfrac.
      { unfold frac. destruct (0 <=? ex); [done|apply binary_normalize_not_nan]. }
      destruct (frac (S754_finite s m ex)) as [sz|si| |s' m' e'] eqn:Ef; try done.
      + change (of_int US_PER_HOUR) with (Ok (S754_finite false 7549747200000000 (-21))).
        rewrite bind_Ok. by intros [= <-].
      + cbn [is_zero].
        change (of_int US_PER_HOUR) with (Ok (S754_finite false 7549747200000000 (-21))).
        rewrite bind_Ok.
        pose proof (fmul_finite_not_nan false 7549747200000000 (-21)
                      (S754_finite s' m' e') ltac:(done)) as Hd.
        destruct (fmul _ _) as [sz|si| |s'' m'' e'']; try done.
        by intros [= <-]. }
  destruct (hours_to_us h) as [us|e'] eqn:E.
  - rewrite bind_Ok. unfold microseconds_to_delta.
    destruct (_ && _); [done|by intros [= <-]].
  - intros [= <-]. by apply Hus.
Qed.

End NotNan.

Section PreviewStatus.
Variable iso_parse : string → option datetime.

(** X17. [calculate_reviews] answers 400 exactly when the date does not
    parse, for every repetition number, negative ones included: a
    repetition number, however large, makes it answer 500 at worst. It
    never answers not-found. *)
Theorem calculate_reviews_400_iff (s : string) (n : Z) :
  (calculate_reviews iso_parse s n = Failure Http400
   ↔ ∀ d, fromisoformat iso_parse s ≠ Ok d)
  ∧ calculate_reviews iso_parse s n ≠ Failure Http404.
Proof.
  unfold calculate_reviews.
  destruct (fromisoformat iso_parse s) as [T|e] eqn:HT.
  - rewrite bind_Ok. cbv zeta.
    match goal with |- context [respond ?c] =>
      assert (∀ e, c = Raise e → e = OverflowError) as Hraise end.
    { intros e.
      destruct (mapM (adjusted_interval n) [1; 24; 72; 168; 336; 720])
        as [ivs|e'] eqn:E1.
      - rewrite bind_Ok.
        destruct (mapM _ ivs) as [dates|e'] eqn:E2; [done|].
        cbn [mbind result_bind]. intros [= <-].
        apply mapM_Raise in E2 as (h & Hh & Hraise).
        apply mapM_Ok in E1. apply list_elem_of_lookup in Hh as [i Hi].
        destruct (Forall2_lookup_r _ _ _ _ _ E1 Hi) as (b & Hb & Hadj).
        apply list_elem_of_lookup_2 in Hb.
        assert (h = scaled_interval n b) as ->.
        { destruct (PyFloat.is_finite (PyFloat.round_int n)) eqn:Hfin.
          - rewrite (adjusted_interval_finite n b Hfin) in Hadj.
            + by injection Hadj as <-.
            + by destruct (round_int_base b Hb) as (mb & eb & -> & _).
          - by rewrite (adjusted_interval_overflow n b Hfin) in Hadj. }
        destruct (timedelta_hours_float (scaled_interval n b)) as [td|e''] eqn:E3.
        + rewrite bind_Ok in Hraise. unfold datetime_add in Hraise.
          destruct (datetime_valid _); [done|by injection Hraise as <-].
        + injection Hraise as <-.
          by apply (timedelta_hours_float_Raise _ _ (scaled_interval_not_nan n b Hb)).
      - cbn [mbind result_bind]. intros [= <-].
        apply mapM_Raise in E1 as (b & Hb & Hraise).
        destruct (PyFloat.is_finite (PyFloat.round_int n)) eqn:Hfin.
        + rewrite (adjusted_interval_finite n b Hfin) in Hraise; [done|].
          by destruct (round_int_base b Hb) as (mb & eb & -> & _).
        + rewrite (adjusted_interval_overflow n b Hfin) in Hraise. by injection Hraise. }
    match goal with |- context [respond ?c] => destruct c as [records|e] eqn:E end.
    + split; [|done]. split; [done|]. intros H. by destruct (H T).
    + rewrite (Hraise e eq_refl). split; [|done]. split; [done|].
      intros H. by destruct (H T).
  - pose proof (fromisoformat_Raise _ _ _ HT) as ->.
    split; [|done]. split; [done|]. done.
Qed.

End PreviewStatus.

(** X14. [get_analytics] never fails. With no schedule counted for the
    user the completion rate is the integer 0; otherwise it is a finite
    float from 0 to 100, exactly [100.0] when every counted schedule is
    completed and exactly [0.0] when none is. *)
Theorem completion_rate_range (db : store) (u : Z) :
  ∃ a, get_analytics u db = Success a
    ∧ 0 ≤ Analytics.total_items a
    ∧ match Analytics.completion_rate a with
      | PyInt k => k = 0 ∧ all_schedules_of db u = 0
      | PyFloat x =>
        0 < all_schedules_of db u
        ∧ PyFloat.is_finite x = true
        ∧ (0 <= Value.value x <= 100)%R
      end
    ∧ (0 < all_schedules_of db u →
       completed_schedules_of db u = all_schedules_of db u →
       Analytics.completion_rate a = PyFloat (PyFloat.round_int 100))
    ∧ (0 < all_schedules_of db u →
       completed_schedules_of db u = 0 →
       Analytics.completion_rate a = PyFloat (S754_zero false)).
Proof.
  eexists. unfold get_analytics. rewrite analyze_learning_pattern_eq.
  split; [reflexivity|]. cbn [Analytics.total_items Analytics.completion_rate].
  split; [unfold total_items_of; lia|].
  pose proof (completed_schedules_le db u) as Hle.
  split; [|split].
  - destruct (Z.eq_dec (all_schedules_of db u) 0) as [Hz|Hnz].
    + rewrite Hz. by unfold Analytics.rounded_percentage.
    + assert (0 < all_schedules_of db u) as Hpos by (unfold all_schedules_of in *; lia).
      destruct (rounded_percentage_within _ _ Hle Hpos) as (x & -> & Hx).
      split; [done|]. by apply (within_value 100).
  - intros Hpos ->. by apply rounded_percentage_all.
  - intros Hpos ->. by apply rounded_percentage_none.
Qed.

(** X4. What the listings show after [delete_learning_item]: the deleted item
    is in no listing of [get_learning_items] and the other items are listed
    as before; when the item was stored, its listing of
    [get_review_schedules] is empty, and the listings of the other items
    are as before. A listing of items shows no id twice. *)
Theorem listing_after_delete_learning_item (item_id : Z) (db : store) :
  (∀ u k item,
     (k, item) ∈ get_learning_items u (delete_learning_item item_id db).2 ↔
     (k, item) ∈ get_learning_items u db ∧ k ≠ item_id)
  ∧ (∀ i k s,
       (k, s) ∈ get_review_schedules i (delete_learning_item item_id db).2 ↔
       (k, s) ∈ get_review_schedules i db
       ∧ (i ≠ item_id ∨ learning_items db !! item_id = None))
  ∧ (∀ u, NoDup (get_learning_items u db).*1).
Proof.
  split; [|split].
  - intros u k item. rewrite !get_learning_items_elem. unfold delete_learning_item.
    destruct (learning_items db !! item_id) as [it|] eqn:E; simpl.
    + rewrite lookup_delete_Some.
      split; intros [[? ?] ?]; repeat split; try done; congruence.
    + split; [|tauto]. intros [Hk Hu]. repeat split; try done. congruence.
  - intros i k s. rewrite !get_review_schedules_elem. unfold delete_learning_item.
    destruct (learning_items db !! item_id) as [it|] eqn:E; simpl.
    + rewrite map_lookup_filter_Some. simpl. split.
      * intros ((Hk & Hne) & Hi & Hd). repeat split; try done. left. congruence.
      * intros ((Hk & Hi & Hd) & [Hne|Hnone]); [|done].
        repeat split; try done. congruence.
    + split; [|tauto]. intros H. split; [done|by right].
  - intros u. unfold get_learning_items. apply NoDup_fst_map_to_list.
Qed.
